(** * GridLab: the grid, visibility and action engine of [minigrid.py]

    A shallow embedding of [src/minigrid.py] (classes [Grid] and
    [MiniGridEnv]) and the properties of the grid container, the
    visibility pass, the observation codec and the [step] state machine.

    Conventions of the embedding.
    - Python integers are [Z]; a [range] is a list of [Z].
    - A call that can raise returns a [result]: [Ok v] or [Raise e] with
      the exception class. A method that mutates [self] returns the new
      object; a method of the environment is a function from the
      environment to the new environment and a [result], so what was
      mutated before an exception is still visible after it.
    - The source text is followed statement by statement, slips included:
      where an attribute or a name does not exist the model raises the
      exception Python raises at that point. One line of the source,
      line 150, [for i in range(0. width)], does not parse; it is read as
      [range(0, width)].
    - What the source takes from elsewhere is a parameter: the object
      library ([WorldObj], [Wall]) is the class [ObjectLibrary];
      [hash] takes the digest and the printing of arrays and positions
      as arguments, and [hash_sha256] gives it SHA-256 and the texts of
      [str]. The closed examples use the library [spec_objects]. *)

From stdpp Require Import base tactics option list numbers strings pretty.
From Stdlib Require Import ZArith Lia QArith.

Open Scope Z_scope.

(** ** Exceptions and results *)

Inductive exn : Set :=
  | AssertionError | AttributeError | NameError | IndexError | TypeError
  | KeyError | ValueError | ZeroDivisionError | RecursionError.

#[global] Instance exn_eq_dec : EqDecision exn.
Proof. solve_decision. Defined.

Inductive result (A : Type) : Type :=
  | Ok (a : A)
  | Raise (e : exn).
Arguments Ok {A} a.
Arguments Raise {A} e.

#[global] Instance result_eq_dec {A} `{EqDecision A} : EqDecision (result A).
Proof. solve_decision. Defined.

#[global] Instance result_ret : MRet result := fun A a => Ok a.
#[global] Instance result_bind : MBind result := fun A B f m =>
  match m with Ok a => f a | Raise e => Raise e end.

Definition is_ok {A} (r : result A) : bool :=
  match r with Ok _ => true | Raise _ => false end.

(** [assert c] *)
Definition assert (c : bool) : result unit :=
  if c then Ok tt else Raise AssertionError.

(** ** Python sequences *)

(** [range(lo, hi)] *)
Definition range (lo hi : Z) : list Z := seqZ lo (hi - lo).

(** [for x in xs: body], the loop state threaded through; [continue] is a
    body that returns the state it was given. *)
Fixpoint for_in {S : Type} (xs : list Z) (body : Z → S → result S) (s : S)
  : result S :=
  match xs with
  | [] => Ok s
  | x :: xs' => s' ← body x s; for_in xs' body s'
  end.

(** Index normalisation of lists and arrays: a negative index counts from
    the end, anything outside [-n, n) raises [IndexError]. *)
Definition py_index (n i : Z) : result nat :=
  if bool_decide (0 ≤ i < n) then Ok (Z.to_nat i)
  else if bool_decide (- n ≤ i < 0) then Ok (Z.to_nat (i + n))
  else Raise IndexError.

(** [l[i]] *)
Definition getitem {A} (l : list A) (i : Z) : result A :=
  k ← py_index (Z.of_nat (length l)) i;
  match l !! k with Some x => Ok x | None => Raise IndexError end.

(** [l[i] = x] *)
Definition setitem {A} (l : list A) (i : Z) (x : A) : result (list A) :=
  k ← py_index (Z.of_nat (length l)) i;
  Ok (<[k := x]> l).

(** [l.remove(x)]: the first item equal to [x] goes; [ValueError] when
    there is none. *)
Fixpoint list_remove {A} `{EqDecision A} (x : A) (l : list A)
  : result (list A) :=
  match l with
  | [] => Raise ValueError
  | y :: l' =>
    if decide (y = x) then Ok l'
    else l'' ← list_remove x l'; Ok (y :: l'')
  end.

(** ** NumPy arrays of shape [(d0, d1)] (a trailing axis of length 3 is a
    triple in each cell), stored in C order. *)

Record ndarray (A : Type) : Type := mk_ndarray {
  shape : Z * Z;
  data : list A
}.
Arguments mk_ndarray {A} shape data.
Arguments shape {A} _.
Arguments data {A} _.

#[global] Instance ndarray_eq_dec {A} `{EqDecision A} : EqDecision (ndarray A).
Proof. solve_decision. Defined.

(** [np.zeros], [np.ones]: a negative dimension raises [ValueError]. *)
Definition np_full {A} (d0 d1 : Z) (x : A) : result (ndarray A) :=
  if bool_decide (0 ≤ d0 ∧ 0 ≤ d1)
  then Ok (mk_ndarray (d0, d1) (replicate (Z.to_nat (d0 * d1)) x))
  else Raise ValueError.

(** [a[i, j]] *)
Definition np_get {A} (a : ndarray A) (i j : Z) : result A :=
  i' ← py_index (fst (shape a)) i;
  j' ← py_index (snd (shape a)) j;
  match data a !! (i' * Z.to_nat (snd (shape a)) + j')%nat with
  | Some x => Ok x
  | None => Raise IndexError
  end.

(** [a[i, j] = x] *)
Definition np_set {A} (a : ndarray A) (i j : Z) (x : A) : result (ndarray A) :=
  i' ← py_index (fst (shape a)) i;
  j' ← py_index (snd (shape a)) j;
  Ok (mk_ndarray (shape a)
        (<[(i' * Z.to_nat (snd (shape a)) + j')%nat := x]> (data a))).

(** An array whose data fill its shape [(d0, d1)]. *)
Definition has_shape {A} (a : ndarray A) (d0 d1 : Z) : Prop :=
  shape a = (d0, d1) ∧ 0 ≤ d0 ∧ 0 ≤ d1 ∧
  Z.of_nat (length (data a)) = d0 * d1.

(** A store into a [uint8] array keeps the low eight bits. ([np.bool]
    dates the source to NumPy before 1.24, where the conversion wraps.) *)
Definition uint8 (x : Z) : Z := x mod 256.

Definition uint8_3 (t : Z * Z * Z) : Z * Z * Z :=
  let '(a, b, c) := t in (uint8 a, uint8 b, uint8 c).

(** ** Constants of the module *)

(** The keys of [OBJECT_TO_IDX]. *)
Inductive ObjType : Set :=
  | unseen | empty | wall | floor | door | key | ball | box | goal | lava
  | agent.

#[global] Instance ObjType_eq_dec : EqDecision ObjType.
Proof. solve_decision. Defined.

Definition OBJECT_TO_IDX (t : ObjType) : Z :=
  match t with
  | unseen => 0 | empty => 1 | wall => 2 | floor => 3 | door => 4 | key => 5
  | ball => 6 | box => 7 | goal => 8 | lava => 9 | agent => 10
  end.

(** [IDX_TO_OBJECT[k]]; a missing key raises [KeyError]. *)
Definition IDX_TO_OBJECT (k : Z) : result ObjType :=
  match k with
  | 0 => Ok unseen | 1 => Ok empty | 2 => Ok wall | 3 => Ok floor
  | 4 => Ok door | 5 => Ok key | 6 => Ok ball | 7 => Ok box | 8 => Ok goal
  | 9 => Ok lava | 10 => Ok agent
  | _ => Raise KeyError
  end.

(** The keys of [COLOR_TO_IDX]. *)
Inductive Color : Set := red | green | blue | purple | yellow | grey.

#[global] Instance Color_eq_dec : EqDecision Color.
Proof. solve_decision. Defined.

Definition COLOR_TO_IDX (c : Color) : Z :=
  match c with
  | red => 0 | green => 1 | blue => 2 | purple => 3 | yellow => 4 | grey => 5
  end.

Definition IDX_TO_COLOR (k : Z) : result Color :=
  match k with
  | 0 => Ok red | 1 => Ok green | 2 => Ok blue | 3 => Ok purple
  | 4 => Ok yellow | 5 => Ok grey
  | _ => Raise KeyError
  end.

(** [DIR_TO_VEC[d]] for [d] in [0, 4). *)
Definition DIR_TO_VEC (d : Z) : Z * Z :=
  match d with
  | 0 => (1, 0)
  | 1 => (0, 1)
  | 2 => (-1, 0)
  | _ => (0, -1)
  end.

(** ** Positions

    A position is a tuple where the caller wrote one and a NumPy array
    where the source built it with [np.array] or by adding a direction
    vector; the two print differently, which [hash] observes. *)
Inductive Position : Set :=
  | PyTuple (x y : Z)
  | NdArray (x y : Z).

#[global] Instance Position_eq_dec : EqDecision Position.
Proof. solve_decision. Defined.

Definition coords (p : Position) : Z * Z :=
  match p with PyTuple x y | NdArray x y => (x, y) end.

(** ** World objects

    Modelled from the spec: class [WorldObj] and its variants are not in
    [src/]. The spec (section 3) gives an object a [type], a [color] and an
    object-specific [state] encoded as a small integer; [put_obj] and
    [place_obj] of the source add the attributes [init_pos] and
    [cur_pos]. *)
Record WorldObj : Set := mk_obj {
  type : ObjType;
  color : Color;
  state : Z;
  init_pos : option Position;
  cur_pos : option Position
}.

#[global] Instance WorldObj_eq_dec : EqDecision WorldObj.
Proof. solve_decision. Defined.

(** Modelled from the spec: the capability set the core consumes from the
    object library (section 3): [can_overlap()], [can_pickup()],
    [see_behind()], [encode()], the class-level [decode] and the
    constructor [Wall()] that [Grid.slice] calls. The library is a
    parameter of the development. *)
Class ObjectLibrary : Type := {
  can_overlap : WorldObj → bool;
  can_pickup : WorldObj → bool;
  see_behind : WorldObj → bool;
  WorldObj_encode : WorldObj → Z * Z * Z;
  WorldObj_decode : Z → Z → Z → result (option WorldObj);
  Wall : WorldObj
}.

(** ** class Grid *)

Module Grid.

(** The attributes [width], [height] and [grid] of a [Grid] object. *)
Record t : Set := mk {
  width : Z;
  height : Z;
  grid : list (option WorldObj)
}.

#[global] Instance eq_dec : EqDecision t.
Proof. solve_decision. Defined.

(** The invariant of the constructor: both sides at least 3, and one
    cell for each coordinate. *)
Definition well_formed (g : t) : Prop :=
  3 ≤ width g ∧ 3 ≤ height g ∧
  Z.of_nat (length (grid g)) = width g * height g.

(** A visibility mask for [grid] seen from [(ox, oy)]: it has the shape
    of the grid and the bit of the origin is set. *)
Definition mask_inv (grid : t) (ox oy : Z) (mask : ndarray bool) : Prop :=
  has_shape mask (width grid) (height grid) ∧
  np_get mask ox oy = Ok true.

(** [Grid(width, height)]: [[None] * width * height]. *)
Definition new (width height : Z) : result t :=
  _ ← assert (bool_decide (width >= 3));
  _ ← assert (bool_decide (height >= 3));
  Ok (mk width height (replicate (Z.to_nat (width * height)) None)).

(** [set]: the cell written is [j * self.width + 1], whatever [i] is. *)
Definition set (self : t) (i j : Z) (v : option WorldObj) : result t :=
  _ ← assert (bool_decide (i >= 0) && bool_decide (i < width self));
  _ ← assert (bool_decide (j >= 0) && bool_decide (j < height self));
  l ← setitem (grid self) (j * width self + 1) v;
  Ok (mk (width self) (height self) l).

(** [get]: the cell read is [j * self.width + i]. *)
Definition get (self : t) (i j : Z) : result (option WorldObj) :=
  _ ← assert (bool_decide (i >= 0) && bool_decide (i < width self));
  _ ← assert (bool_decide (j >= 0) && bool_decide (j < height self));
  getitem (grid self) (j * width self + i).

(** [rotate_left]: the target row is [grid.height - 1 - 1] for every
    source column. *)
Definition rotate_left (self : t) : result t :=
  grid ← new (height self) (width self);
  for_in (range 0 (width self)) (λ i grid,
    for_in (range 0 (height self)) (λ j grid,
      v ← get self i j;
      set grid j (height grid - 1 - 1) v) grid) grid.

(** [__contains__] for a key that is a tuple [(color, type)], where the
    colour may be [None]. (For a key that is an object the source
    compares identities, which values do not have.) *)
Definition contains (self : t) (key : option Color * ObjType) : bool :=
  existsb (λ e,
    match e with
    | None => false
    | Some e =>
      bool_decide ((Some (color e), type e) = key) ||
      (bool_decide (key.1 = None) && bool_decide (key.2 = type e))
    end) (grid self).

Section WithObjects.
Context `{ObjectLibrary}.

(** [slice]. Line 150 of the source reads [range(0. width)], which is
    not Python; it is read as [range(0, width)]. The source column is
    [topX + 1] for every target column. *)
Definition slice (self : t) (topX topY width height : Z) : result t :=
  grid ← new width height;
  for_in (range 0 height) (λ j grid,
    for_in (range 0 width) (λ i grid,
      let x := topX + 1 in
      let y := topY + j in
      v ← (if bool_decide (x >= 0) && bool_decide (x < Grid.width self) &&
              bool_decide (y >= 0) && bool_decide (y < Grid.height self)
           then get self x y
           else Ok (Some Wall));
      set grid i j v) grid) grid.

(** [encode(vis_mask)]; [None] for the default argument. *)
Definition encode (self : t) (vis_mask : option (ndarray bool))
  : result (ndarray (Z * Z * Z)) :=
  vis_mask ← match vis_mask with
             | None => np_full (width self) (height self) true
             | Some m => Ok m
             end;
  array ← np_full (width self) (height self) (0, 0, 0);
  for_in (range 0 (width self)) (λ i array,
    for_in (range 0 (height self)) (λ j array,
      b ← np_get vis_mask i j;
      if b : bool then
        v ← get self i j;
        match v with
        | None => np_set array i j (uint8_3 (OBJECT_TO_IDX empty, 0, 0))
        | Some o => np_set array i j (uint8_3 (WorldObj_encode o))
        end
      else Ok array) array) array.

(** [decode(array)] *)
Definition decode (array : ndarray (Z * Z * Z)) : result (t * ndarray bool) :=
  let '(width, height) := shape array in
  vis_mask ← np_full width height true;
  grid ← new width height;
  for_in (range 0 width) (λ i st,
    for_in (range 0 height) (λ j '(grid, vis_mask),
      '(type_idx, color_idx, state) ← np_get array i j;
      v ← WorldObj_decode type_idx color_idx state;
      grid ← set grid i j v;
      vis_mask ← np_set vis_mask i j
                   (negb (bool_decide (type_idx = OBJECT_TO_IDX unseen)));
      Ok (grid, vis_mask)) st) (grid, vis_mask).

(** [__eq__]: [np.array_equal] of the two mask-less encodings. *)
Definition eq (self other : t) : result bool :=
  grid1 ← encode self None;
  grid2 ← encode other None;
  Ok (bool_decide (grid2 = grid1)).

(** [__ne__] *)
Definition ne (self other : t) : result bool :=
  b ← eq self other;
  Ok (negb b).

(** [cell and not cell.see_behind()] *)
Definition opaque (cell : option WorldObj) : bool :=
  match cell with
  | Some o => negb (see_behind o)
  | None => false
  end.

(** One sweep of [process_vis] along row [j]: from column [i] the
    mask spreads to column [i + d] and, above row 0, to the row in
    front. [d] is [1] in the first loop and [-1] in the second. *)
Definition vis_spread (grid : t) (j d i : Z) (mask : ndarray bool)
  : result (ndarray bool) :=
  b ← np_get mask i j;
  if negb b then Ok mask else
  cell ← get grid i j;
  if opaque cell then Ok mask else
  mask ← np_set mask (i + d) j true;
  if bool_decide (j > 0) then
    mask ← np_set mask (i + d) (j - 1) true;
    np_set mask i (j - 1) true
  else Ok mask.

(** [process_vis(grid, agent_pos)]: returns the grid as the final
    loop left it, and the mask. *)
Definition process_vis (grid : t) (agent_pos : Z * Z)
  : result (t * ndarray bool) :=
  mask ← np_full (width grid) (height grid) false;
  mask ← np_set mask (fst agent_pos) (snd agent_pos) true;
  mask ← for_in (reverse (range 0 (height grid))) (λ j mask,
    mask ← for_in (range 0 (width grid - 1)) (vis_spread grid j 1) mask;
    for_in (reverse (range 1 (width grid))) (vis_spread grid j (-1)) mask) mask;
  grid ← for_in (range 0 (height grid)) (λ j grid,
    for_in (range 0 (width grid)) (λ i grid,
      b ← np_get mask i j;
      if negb b then set grid i j None else Ok grid) grid) grid;
  Ok (grid, mask).

(** The triple that [encode] leaves in the array for a cell with mask
    bit [b] and content [v]. *)
Definition cell_code (b : bool) (v : option WorldObj) : Z * Z * Z :=
  if b then
    match v with
    | None => uint8_3 (OBJECT_TO_IDX empty, 0, 0)
    | Some o => uint8_3 (WorldObj_encode o)
    end
  else (0, 0, 0).

(** What one write of [process_vis] to the mask keeps: the mask has the
    shape of the grid, only gains bits, and gains none in the rows
    behind row [oy]. *)
Definition mask_grows (grid : t) (oy : Z) (m m' : ndarray bool) : Prop :=
  has_shape m' (width grid) (height grid) ∧
  (∀ a b, np_get m a b = Ok true → np_get m' a b = Ok true) ∧
  ((∀ a b, 0 ≤ a < width grid → oy < b < height grid →
           np_get m a b = Ok false) →
   ∀ a b, 0 ≤ a < width grid → oy < b < height grid →
          np_get m' a b = Ok false).

(** No bit of the mask is on in the rows behind row [oy]. *)
Definition behind_dark (grid : t) (oy : Z) (m : ndarray bool) : Prop :=
  ∀ a b, 0 ≤ a < width grid → oy < b < height grid →
         np_get m a b = Ok false.

(** No cell of the grid stops the view. *)
Definition see_through (grid : t) : Prop :=
  ∀ i j cell, get grid i j = Ok cell → opaque cell = false.

(** The grids that the methods of the class build: the constructor,
    and [set], [slice] and [rotate_left] on such a grid. Nothing else in
    the source writes the list of cells. *)
Inductive built : t → Prop :=
  | built_new width height g :
      new width height = Ok g → built g
  | built_set g i j v g' :
      built g → set g i j v = Ok g' → built g'
  | built_slice g topX topY width height g' :
      built g → slice g topX topY width height = Ok g' → built g'
  | built_rotate_left g g' :
      built g → rotate_left g = Ok g' → built g'.

End WithObjects.

End Grid.

(** ** What [hash] takes from the libraries

    [hashlib.sha256] is SHA-256 after FIPS 180-4, on 32-bit words held
    in [Z]. *)

Module SHA256.

Definition w32 (x : Z) : Z := x `mod` 2 ^ 32.

Definition rotr (n x : Z) : Z :=
  Z.lor (Z.shiftr x n) (w32 (Z.shiftl x (32 - n))).

Definition Ch (x y z : Z) : Z :=
  Z.lxor (Z.land x y) (Z.land (Z.lxor x (2 ^ 32 - 1)) z).

Definition Maj (x y z : Z) : Z :=
  Z.lxor (Z.lxor (Z.land x y) (Z.land x z)) (Z.land y z).

Definition Sigma0 (x : Z) : Z :=
  Z.lxor (Z.lxor (rotr 2 x) (rotr 13 x)) (rotr 22 x).

Definition Sigma1 (x : Z) : Z :=
  Z.lxor (Z.lxor (rotr 6 x) (rotr 11 x)) (rotr 25 x).

Definition sigma0 (x : Z) : Z :=
  Z.lxor (Z.lxor (rotr 7 x) (rotr 18 x)) (Z.shiftr x 3).

Definition sigma1 (x : Z) : Z :=
  Z.lxor (Z.lxor (rotr 17 x) (rotr 19 x)) (Z.shiftr x 10).

(** The first 64 primes. *)
Definition primes : list Z :=
  [2; 3; 5; 7; 11; 13; 17; 19; 23; 29; 31; 37; 41; 43; 47; 53;
   59; 61; 67; 71; 73; 79; 83; 89; 97; 101; 103; 107; 109; 113; 127; 131;
   137; 139; 149; 151; 157; 163; 167; 173; 179; 181; 191; 193; 197; 199;
   211; 223; 227; 229; 233; 239; 241; 251; 257; 263; 269; 271; 277; 281;
   283; 293; 307; 311].

(** The integer part of the cube root of [n], for [n] below [2 ^ 105]. *)
Definition cube_root (n : Z) : Z :=
  foldl (λ r k, let r' := r + 2 ^ k in
                if bool_decide (r' * r' * r' ≤ n) then r' else r)
        0 (reverse (seqZ 0 35)).

(** The round constants: the first 32 bits of the fractional parts of
    the cube roots of the first 64 primes. *)
Definition K : list Z :=
  Eval vm_compute in (λ p, cube_root (p * 2 ^ 96) `mod` 2 ^ 32) <$> primes.

(** The message, the byte [0x80], zero bytes up to 56 modulo 64, and the
    length in bits as eight bytes. *)
Definition pad (msg : list Z) : list Z :=
  let n := Z.of_nat (length msg) in
  msg ++ [0x80] ++ replicate (Z.to_nat ((55 - n) `mod` 64)) 0
      ++ map (λ k, Z.shiftr (8 * n) (8 * k) `mod` 256) [7; 6; 5; 4; 3; 2; 1; 0].

(** Big-endian words of four bytes. *)
Fixpoint words (n : nat) (bytes : list Z) : list Z :=
  match n, bytes with
  | S n, b0 :: b1 :: b2 :: b3 :: bytes =>
    (b0 * 2 ^ 24 + b1 * 2 ^ 16 + b2 * 2 ^ 8 + b3) :: words n bytes
  | _, _ => []
  end.

(** Blocks of sixteen words. *)
Fixpoint blocks (n : nat) (ws : list Z) : list (list Z) :=
  match n with
  | O => []
  | S n => take 16 ws :: blocks n (drop 16 ws)
  end.

(** The message schedule: [n] more words after the ones in [w]. *)
Fixpoint schedule (n : nat) (w : list Z) : list Z :=
  match n with
  | O => w
  | S n =>
    let t := length w in
    let back k := nth (t - k) w 0 in
    schedule n (w ++ [w32 (sigma1 (back 2%nat) + back 7%nat
                           + sigma0 (back 15%nat) + back 16%nat)])
  end.

Definition state : Type := Z * Z * Z * Z * Z * Z * Z * Z.

(** The initial hash value: the first 32 bits of the fractional parts
    of the square roots of the first 8 primes. *)
Definition H0 : state :=
  Eval vm_compute in
    let h := λ i : nat, Z.sqrt (nth i primes 0 * 2 ^ 64) `mod` 2 ^ 32 in
    (h 0%nat, h 1%nat, h 2%nat, h 3%nat, h 4%nat, h 5%nat, h 6%nat, h 7%nat).

Definition round (st : state) (kw : Z * Z) : state :=
  let '(a, b, c, d, e, f, g, h) := st in
  let '(k, w) := kw in
  let t1 := w32 (h + Sigma1 e + Ch e f g + k + w) in
  let t2 := w32 (Sigma0 a + Maj a b c) in
  (w32 (t1 + t2), a, b, c, w32 (d + t1), e, f, g).

Definition compress (hs : state) (block : list Z) : state :=
  let '(a, b, c, d, e, f, g, h) :=
    foldl round hs (zip K (schedule 48 block)) in
  let '(a0, b0, c0, d0, e0, f0, g0, h0) := hs in
  (w32 (a0 + a), w32 (b0 + b), w32 (c0 + c), w32 (d0 + d),
   w32 (e0 + e), w32 (f0 + f), w32 (g0 + g), w32 (h0 + h)).

(** The digest of a list of bytes, as eight words. *)
Definition digest (msg : list Z) : list Z :=
  let bytes := pad msg in
  let ws := words (length bytes / 4) bytes in
  let '(a, b, c, d, e, f, g, h) :=
    foldl compress H0 (blocks (length ws / 16) ws) in
  [a; b; c; d; e; f; g; h].

(** The characters [0] to [9] and [a] to [f]. *)
Definition hex_digit (d : Z) : Ascii.ascii :=
  Ascii.ascii_of_N (Z.to_N (if bool_decide (d < 10) then 48 + d else 87 + d)).

Definition hex_word (x : Z) : string :=
  String.string_of_list_ascii
    (map (λ k, hex_digit (Z.shiftr x (4 * k) `mod` 16)) [7; 6; 5; 4; 3; 2; 1; 0]).

(** [hashlib.sha256(text.encode('utf8')).hexdigest()] for a text of
    ASCII characters. *)
Definition hexdigest (text : string) : string :=
  let bytes := map (λ c, Z.of_N (Ascii.N_of_ascii c))
                   (String.list_ascii_of_string text) in
  foldr (λ x s, hex_word x +:+ s) "" (digest bytes).

End SHA256.

(** [str] of an integer array (NumPy 1.14 to 1.23, default print
    options). Every item is right-justified to the width of the longest
    of [str(max)] and [str(min)] over the items shown. *)
Definition nl : string := String (Ascii.ascii_of_nat 10) "".

Definition rjust (w : nat) (s : string) : string :=
  String.concat "" (replicate (w - String.length s) " ") +:+ s.

Definition int_width (l : list Z) : nat :=
  match l with
  | [] => 0%nat
  | x :: l' => Nat.max (String.length (pretty (foldr Z.max x l')))
                       (String.length (pretty (foldr Z.min x l')))
  end.

(** An array of more than 1000 items is printed abridged: along an
    axis of more than six entries the first three and the last three are
    shown, with [...] ([None] here) between them. *)
Definition edge_items {A} (abridged : bool) (l : list A) : list (option A) :=
  if abridged && bool_decide (6 < length l)%nat
  then (Some <$> take 3 l) ++ [None] ++ (Some <$> drop (length l - 3) l)
  else Some <$> l.

(** [str(array)] for the array of [encode], of shape [(width, height, 3)]:
    one line per cell, a blank line between two columns of the grid. *)
Definition np_array_str (a : ndarray (Z * Z * Z)) : string :=
  let '(d0, d1) := shape a in
  let abridged := bool_decide (1000 < d0 * d1 * 3) in
  let blocks :=
    (λ i : nat, take (Z.to_nat d1) (drop (i * Z.to_nat d1) (data a)))
      <$> seq 0 (Z.to_nat d0) in
  let shown := edge_items abridged (edge_items abridged <$> blocks) in
  let items :=
    mjoin ((λ b, match b with
                 | None => []
                 | Some rows =>
                   mjoin ((λ r, match r with
                                | None => []
                                | Some (t, c, s) => [t; c; s]
                                end) <$> rows)
                 end) <$> shown) in
  let w := int_width items in
  let row r :=
    match r with
    | None => "..."
    | Some (t, c, s) =>
      "[" +:+ rjust w (pretty t) +:+ " " +:+ rjust w (pretty c) +:+ " "
          +:+ rjust w (pretty s) +:+ "]"
    end in
  let block b :=
    match b with
    | None => "..."
    | Some rows => "[" +:+ String.concat (nl +:+ "  ") (row <$> rows) +:+ "]"
    end in
  "[" +:+ String.concat (nl +:+ nl +:+ " ") (block <$> shown) +:+ "]".

(** [str] of a position: [(x, y)] for a tuple, [[x y]] for an array. *)
Definition position_str (p : Position) : string :=
  match p with
  | PyTuple x y => "(" +:+ pretty x +:+ ", " +:+ pretty y +:+ ")"
  | NdArray x y =>
    let w := int_width [x; y] in
    "[" +:+ rjust w (pretty x) +:+ " " +:+ rjust w (pretty y) +:+ "]"
  end.

(** ** class MiniGridEnv *)

Module MiniGridEnv.

(** [Actions] *)
Module Actions.
Definition left : Z := 0.
Definition right : Z := 1.
Definition forward : Z := 2.
Definition pickup : Z := 3.
Definition drop : Z := 4.
Definition toggle : Z := 5.
Definition done : Z := 6.
Definition up : Z := 7.
Definition down : Z := 8.
End Actions.

(** Modelled from the spec: the seeded pseudo-random source [np_random]
    (section 1: the same seed and call sequence produce the same values).
    It is the sequence of its raw draws and the number of draws made. *)
Record RandomState : Type := mk_rng {
  draws : nat → Z;
  cursor : nat
}.

(** The attributes of the environment that the modelled methods read or
    write. [mission] is [None] where the attribute is not defined. *)
Record t : Type := mk {
  agent_view_size : Z;
  max_steps : Z;
  see_through_walls : bool;
  agent_pos : option Position;
  agent_dir : option Z;
  grid : Grid.t;
  carrying : option WorldObj;
  step_count : Z;
  mission : option string;
  np_random : RandomState
}.

Definition set_agent_pos (v : option Position) (self : t) : t :=
  mk (agent_view_size self) (max_steps self) (see_through_walls self) v
     (agent_dir self) (grid self) (carrying self) (step_count self)
     (mission self) (np_random self).

Definition set_agent_dir (v : option Z) (self : t) : t :=
  mk (agent_view_size self) (max_steps self) (see_through_walls self)
     (agent_pos self) v (grid self) (carrying self) (step_count self)
     (mission self) (np_random self).

Definition set_grid (v : Grid.t) (self : t) : t :=
  mk (agent_view_size self) (max_steps self) (see_through_walls self)
     (agent_pos self) (agent_dir self) v (carrying self) (step_count self)
     (mission self) (np_random self).

Definition set_step_count (v : Z) (self : t) : t :=
  mk (agent_view_size self) (max_steps self) (see_through_walls self)
     (agent_pos self) (agent_dir self) (grid self) (carrying self) v
     (mission self) (np_random self).

Definition set_np_random (v : RandomState) (self : t) : t :=
  mk (agent_view_size self) (max_steps self) (see_through_walls self)
     (agent_pos self) (agent_dir self) (grid self) (carrying self)
     (step_count self) (mission self) v.

(** A method of the environment: the environment after the call, and
    the value returned or the exception raised. *)
Definition M (A : Type) : Type := t → t * result A.

#[global] Instance M_ret : MRet M := λ A a self, (self, Ok a).
#[global] Instance M_bind : MBind M := λ A B f m self,
  match m self with
  | (self', Ok a) => f a self'
  | (self', Raise e) => (self', Raise e)
  end.

(** A raise, the reading of an attribute, an assignment to attributes,
    and the call of a method that leaves the environment as it is. *)
Definition lift {A} (r : result A) : M A := λ self, (self, r).
Definition read {A} (f : t → A) : M A := λ self, (self, Ok (f self)).
Definition update (f : t → t) : M unit := λ self, (f self, Ok tt).
Definition call {A} (f : t → result A) : M A := λ self, (self, f self).

(** [if c: m] *)
Definition when (c : bool) (m : M unit) : M unit :=
  if c then m else mret tt.

(** The observation dictionary of [gen_obs]. *)
Record Obs : Type := mk_obs {
  image : ndarray (Z * Z * Z);
  direction : option Z;
  obs_mission : string
}.

(** [self.agent_dir] where an integer is needed: comparing or adding
    [None] raises [TypeError]. *)
Definition agent_dir_int (self : t) : result Z :=
  match agent_dir self with
  | Some d => Ok d
  | None => Raise TypeError
  end.

(** [self.agent_pos[0]], [self.agent_pos[1]] *)
Definition agent_pos_xy (self : t) : result (Z * Z) :=
  match agent_pos self with
  | Some p => Ok (coords p)
  | None => Raise TypeError
  end.

(** [dir_vec] *)
Definition dir_vec (self : t) : result (Z * Z) :=
  d ← agent_dir_int self;
  _ ← assert (bool_decide (d >= 0) && bool_decide (d < 4));
  Ok (DIR_TO_VEC d).

(** [right_vec] *)
Definition right_vec (self : t) : result (Z * Z) :=
  '(dx, dy) ← dir_vec self;
  Ok (- dy, dx).

(** [front_pos]: [self.agent_pos + self.dir_vec]; the property is
    evaluated before the sum, whose result is an array. *)
Definition front_pos (self : t) : result Position :=
  '(dx, dy) ← dir_vec self;
  '(x, y) ← agent_pos_xy self;
  Ok (NdArray (x + dx) (y + dy)).

(** [_reward]. The float arithmetic is carried out on exact rationals. *)
Definition _reward (self : t) : result Q :=
  if bool_decide (max_steps self = 0) then Raise ZeroDivisionError
  else Ok (1 - (9 # 10) * (inject_Z (step_count self)
                           / inject_Z (max_steps self)))%Q.

(** [get_view_exts]: the branches for facing 1 and 3 read [self.agent_Pos]
    and [slef], which do not exist. *)
Definition get_view_exts (self : t) : result (Z * Z * Z * Z) :=
  let sz := agent_view_size self in
  '(topX, topY) ←
    (if bool_decide (agent_dir self = Some 0) then
       '(x, y) ← agent_pos_xy self;
       Ok (x, y - sz `div` 2)
     else if bool_decide (agent_dir self = Some 1) then
       _ ← agent_pos_xy self;
       Raise AttributeError
     else if bool_decide (agent_dir self = Some 2) then
       '(x, y) ← agent_pos_xy self;
       Ok (x - sz + 1, y - sz `div` 2)
     else if bool_decide (agent_dir self = Some 3) then
       _ ← agent_pos_xy self;
       Raise NameError
     else Raise AssertionError);
  Ok (topX, topY, topX + sz, topY + sz).

Section WithObjects.
Context `{ObjectLibrary}.

(** [gen_obs_grid]. The body of the rotation loop is
    [grid = grid.rotate.left()]; a [Grid] has no attribute [rotate]. The
    branch for [see_through_walls] names [grid_height], which does not
    exist. *)
Definition gen_obs_grid (self : t) : result (Grid.t * ndarray bool) :=
  '(topX, topY, botX, botY) ← get_view_exts self;
  grid ← Grid.slice (grid self) topX topY
           (agent_view_size self) (agent_view_size self);
  d ← agent_dir_int self;
  grid ← for_in (range 0 (d + 1)) (λ i grid, Raise AttributeError) grid;
  '(grid, vis_mask) ←
    (if negb (see_through_walls self) then
       Grid.process_vis grid
         (agent_view_size self `div` 2, agent_view_size self - 1)
     else Raise NameError);
  let agent_pos := (Grid.width grid `div` 2, Grid.height grid - 1) in
  grid ← Grid.set grid (fst agent_pos) (snd agent_pos) (carrying self);
  Ok (grid, vis_mask).

(** [gen_obs] *)
Definition gen_obs (self : t) : result Obs :=
  '(grid, vis_mask) ← gen_obs_grid self;
  image ← Grid.encode grid (Some vis_mask);
  match mission self with
  | None => Raise AssertionError
  | Some m => Ok (mk_obs image (agent_dir self) m)
  end.

(** [fwd_cell == None or fwd_cell.can_overlap()] *)
Definition enterable (fwd_cell : option WorldObj) : bool :=
  match fwd_cell with
  | None => true
  | Some o => can_overlap o
  end.

(** [fwd_cell != None and fwd_cell.type == t] *)
Definition has_type (fwd_cell : option WorldObj) (ty : ObjType) : bool :=
  match fwd_cell with
  | None => false
  | Some o => bool_decide (type o = ty)
  end.

(** [step]. The fourth test of the chain reads [self.action.pickpup]; the
    attribute is [actions], so every action that is not [left], [right]
    or [forward] raises [AttributeError] there, and the branches below
    it (pickup, drop, toggle, up, down, done, unknown action) are never
    entered. *)
Definition step (action : Z) : M (Obs * Q * bool) :=
  n ← read step_count;
  _ ← update (set_step_count (n + 1));
  let reward := 0%Q in
  let done := false in
  fwd_pos ← call front_pos;
  fwd_cell ← call (λ self,
                Grid.get (grid self) (coords fwd_pos).1 (coords fwd_pos).2);
  '(reward, done) ←
    (if bool_decide (action = Actions.left) then
       d ← call agent_dir_int;
       _ ← update (set_agent_dir (Some (d - 1)));
       _ ← when (bool_decide (d - 1 < 0))
              (update (set_agent_dir (Some (d - 1 + 4))));
       mret (reward, done)
     else if bool_decide (action = Actions.right) then
       d ← call agent_dir_int;
       _ ← update (set_agent_dir (Some ((d + 1) `mod` 4)));
       mret (reward, done)
     else if bool_decide (action = Actions.forward) then
       _ ← when (enterable fwd_cell) (update (set_agent_pos (Some fwd_pos)));
       '(reward, done) ←
         (if has_type fwd_cell goal
          then r ← call _reward; mret (r, true)
          else mret (reward, done) : M (Q * bool));
       let done := if has_type fwd_cell lava then true else done in
       mret (reward, done)
     else lift (Raise AttributeError) : M (Q * bool));
  n ← read step_count;
  m ← read max_steps;
  let done := if bool_decide (n >= m) then true else done in
  obs ← call gen_obs;
  mret (obs, reward, done).

End WithObjects.

(** Modelled from the spec: [np_random.randint(low, high)], a draw from
    [low, high); an empty interval raises [ValueError]. *)
Definition randint (low high : Z) : M Z := λ self,
  if bool_decide (low >= high) then (self, Raise ValueError)
  else
    let rs := np_random self in
    (set_np_random (mk_rng (draws rs) (S (cursor rs))) self,
     Ok (low + draws rs (cursor rs) `mod` (high - low))).

(** [_rand_int] *)
Definition _rand_int (low high : Z) : M Z := randint low high.

(** [num_tries > max_tries]; [None] is the default [math.inf]. *)
Definition exceeds (num_tries : Z) (max_tries : option Z) : bool :=
  match max_tries with
  | None => false
  | Some m => bool_decide (num_tries > m)
  end.

(** [self.grid.get( *pos) != None] *)
Definition occupied (cell : option WorldObj) : bool :=
  match cell with Some _ => true | None => false end.

(** [np.array_equal(pos, self.agent_pos)] *)
Definition at_agent (pos : Position) (self : t) : bool :=
  bool_decide (coords <$> agent_pos self = Some (coords pos)).

(** The [while True] loop of [place_obj]. [fuel] bounds the number of
    iterations the model follows; [None] is returned when it runs out
    before the loop has left by [break] or by an exception. *)
Fixpoint place_obj_loop (fuel : nat) (top size : Z * Z)
    (reject_fn : option (t → Position → bool)) (max_tries : option Z)
    (num_tries : Z) (self : t) : option (t * result Position) :=
  match fuel with
  | O => None
  | S fuel =>
    if exceeds num_tries max_tries then Some (self, Raise RecursionError)
    else
      let num_tries := num_tries + 1 in
      let draw : M Position :=
        x ← _rand_int top.1 (Z.min (top.1 + size.1) (Grid.width (grid self)));
        y ← _rand_int top.2 (Z.min (top.2 + size.2) (Grid.height (grid self)));
        mret (NdArray x y) in
      match draw self with
      | (self, Raise e) => Some (self, Raise e)
      | (self, Ok pos) =>
        match Grid.get (grid self) (coords pos).1 (coords pos).2 with
        | Raise e => Some (self, Raise e)
        | Ok cell =>
          if occupied cell then
            place_obj_loop fuel top size reject_fn max_tries num_tries self
          else if at_agent pos self then
            place_obj_loop fuel top size reject_fn max_tries num_tries self
          else if match reject_fn with
                  | Some f => f self pos
                  | None => false
                  end then
            place_obj_loop fuel top size reject_fn max_tries num_tries self
          else Some (self, Ok pos)
        end
      end
  end.

(** [obj.init_pos = pos; obj.cur_pos = pos] on the object that the grid
    cell refers to. *)
Definition placed_at (pos : Position) (obj : option WorldObj)
  : option WorldObj :=
  match obj with
  | Some o => Some (mk_obj (type o) (color o) (state o) (Some pos) (Some pos))
  | None => None
  end.

(** [place_obj] *)
Definition place_obj (fuel : nat) (obj : option WorldObj)
    (top size : option (Z * Z)) (reject_fn : option (t → Position → bool))
    (max_tries : option Z) (self : t) : option (t * result Position) :=
  let top := match top with
             | None => (0, 0)
             | Some top => (Z.max top.1 0, Z.max top.2 0)
             end in
  let size := match size with
              | None => (Grid.width (grid self), Grid.height (grid self))
              | Some size => size
              end in
  match place_obj_loop fuel top size reject_fn max_tries 0 self with
  | None => None
  | Some (self, Raise e) => Some (self, Raise e)
  | Some (self, Ok pos) =>
    match Grid.set (grid self) (coords pos).1 (coords pos).2
            (placed_at pos obj) with
    | Raise e => Some (self, Raise e)
    | Ok g => Some (set_grid g self, Ok pos)
    end
  end.

(** [place_agent] *)
Definition place_agent (fuel : nat) (top size : option (Z * Z))
    (rand_dir : bool) (max_tries : option Z) (self : t)
  : option (t * result Position) :=
  let self := set_agent_pos None self in
  match place_obj fuel None top size None max_tries self with
  | None => None
  | Some (self, Raise e) => Some (self, Raise e)
  | Some (self, Ok pos) =>
    let self := set_agent_pos (Some pos) self in
    if rand_dir then
      match _rand_int 0 4 self with
      | (self, Raise e) => Some (self, Raise e)
      | (self, Ok d) => Some (set_agent_dir (Some d) self, Ok pos)
      end
    else Some (self, Ok pos)
  end.

(** More attribute assignments. *)
Definition set_carrying (v : option WorldObj) (self : t) : t :=
  mk (agent_view_size self) (max_steps self) (see_through_walls self)
     (agent_pos self) (agent_dir self) (grid self) v (step_count self)
     (mission self) (np_random self).

(** [steps_remaining] *)
Definition steps_remaining (self : t) : Z := max_steps self - step_count self.

(** [_rand_bool] *)
Definition _rand_bool : M bool :=
  d ← randint 0 2;
  mret (bool_decide (d = 0)).

(** [_rand_elem] *)
Definition _rand_elem {A} (iterable : list A) : M A :=
  let lst := iterable in
  idx ← _rand_int 0 (Z.of_nat (length lst));
  lift (getitem lst idx).

(** The loop of [_rand_subset]. It runs while [len(out) < num_elems] and
    [out] grows by one item in each turn: [n] is the number of turns
    left. *)
Fixpoint _rand_subset_loop {A} `{EqDecision A} (n : nat) (lst out : list A)
  : M (list A) :=
  match n with
  | O => mret out
  | S n =>
    elem ← _rand_elem lst;
    lst ← lift (list_remove elem lst);
    _rand_subset_loop n lst (out ++ [elem])
  end.

(** [_rand_subset] *)
Definition _rand_subset {A} `{EqDecision A} (iterable : list A)
    (num_elems : Z) : M (list A) :=
  let lst := iterable in
  _ ← lift (assert (bool_decide (num_elems <= Z.of_nat (length lst))));
  _rand_subset_loop (Z.to_nat num_elems) lst [].

(** [COLOR_NAMES]: the sorted keys of [COLORS]. *)
Definition COLOR_NAMES : list Color := [blue; green; grey; purple; red; yellow].

(** [_rand_color] *)
Definition _rand_color : M Color := _rand_elem COLOR_NAMES.

(** [_rand_pos] *)
Definition _rand_pos (xLow xHigh yLow yHigh : Z) : M Position :=
  x ← randint xLow xHigh;
  y ← randint yLow yHigh;
  mret (PyTuple x y).

(** [put_obj]: the object stored is the one whose [init_pos] and
    [cur_pos] are then assigned. *)
Definition put_obj (obj : WorldObj) (i j : Z) : M unit := λ self,
  match Grid.set (grid self) i j (placed_at (PyTuple i j) (Some obj)) with
  | Raise e => (self, Raise e)
  | Ok g => (set_grid g self, Ok tt)
  end.

(** [get_view_coords] *)
Definition get_view_coords (self : t) (i j : Z) : result (Z * Z) :=
  '(ax, ay) ← agent_pos_xy self;
  '(dx, dy) ← dir_vec self;
  '(rx, ry) ← right_vec self;
  let sz := agent_view_size self in
  let hs := agent_view_size self `div` 2 in
  let tx := ax + (dx * (sz - 1)) - (rx * hs) in
  let ty := ay + (dy * (sz - 1)) - (ry * hs) in
  let lx := i - tx in
  let ly := j - ty in
  let vx := rx * lx + ry * ly in
  let vy := - (dx * lx + dy * ly) in
  Ok (vx, vy).

(** [relative_coords] *)
Definition relative_coords (self : t) (x y : Z) : result (option (Z * Z)) :=
  '(vx, vy) ← get_view_coords self x y;
  if bool_decide (vx < 0) || bool_decide (vy < 0) ||
     bool_decide (vx >= agent_view_size self) ||
     bool_decide (vy >= agent_view_size self)
  then Ok None
  else Ok (Some (vx, vy)).

(** [in_view] *)
Definition in_view (self : t) (x y : Z) : result bool :=
  r ← relative_coords self x y;
  Ok (bool_decide (r ≠ None)).

Section MoreMethods.
Context `{ObjectLibrary}.

(** [agent_sees]. The line after the reading of the observed cell is
    [world_cell = self.grid,get(x, y)], a tuple whose second item calls
    a name [get] that does not exist. *)
Definition agent_sees (self : t) (x y : Z) : result bool :=
  coordinates ← relative_coords self x y;
  match coordinates with
  | None => Ok false
  | Some (vx, vy) =>
    obs ← gen_obs self;
    '(obs_grid, _) ← Grid.decode (image obs);
    obs_cell ← Grid.get obs_grid vx vy;
    Raise NameError
  end.

(** [reset]. [_gen_grid] is the method of the subclass, applied to the
    configured width and height. The last two lines are
    [obj = self.gen_obs()] and [return obs]. *)
Definition reset (_gen_grid : M unit) : M Obs :=
  _ ← update (set_agent_pos None);
  _ ← update (set_agent_dir None);
  _ ← _gen_grid;
  pos ← read agent_pos;
  _ ← lift (assert (bool_decide (pos ≠ None)));
  dir ← read agent_dir;
  _ ← lift (assert (bool_decide (dir ≠ None)));
  start_cell ← call (λ self,
                  '(x, y) ← agent_pos_xy self; Grid.get (grid self) x y);
  _ ← lift (assert (enterable start_cell));
  _ ← update (set_carrying None);
  _ ← update (set_step_count 0);
  obj ← call gen_obs;
  lift (Raise NameError).

End MoreMethods.

(** [s[:size]] *)
Definition prefix (s : string) (size : Z) : string :=
  let n := Z.of_nat (String.length s) in
  let stop := if bool_decide (size < 0)
              then Z.max (size + n) 0 else Z.min size n in
  String.substring 0 (Z.to_nat stop) s.

(** [str(self.agent_dir)]: [None], or the decimal digits of the integer. *)
Definition str_agent_dir (d : option Z) : string :=
  match d with
  | None => "None"
  | Some d => pretty d
  end.

Section Hash.
Context `{ObjectLibrary}.

(** [hashlib.sha256]: the hex digest of the UTF-8 bytes of a text. *)
Variable sha256_hexdigest : string → string.
(** [str] of the array that [Grid.encode] returns. *)
Variable str_ndarray : ndarray (Z * Z * Z) → string.
(** [str] of a position: of a tuple, or of a one-dimensional array. *)
Variable str_position : Position → string.

Definition str_agent_pos (p : option Position) : string :=
  match p with
  | None => "None"
  | Some p => str_position p
  end.

(** The text that the three [update] calls of [hash] feed to the digest,
    one after the other. *)
Definition hash_message (self : t) : result string :=
  enc ← Grid.encode (grid self) None;
  Ok (str_ndarray enc +:+ str_agent_pos (agent_pos self)
        +:+ str_agent_dir (agent_dir self)).

(** [hash(size)] *)
Definition hash (self : t) (size : Z) : result string :=
  msg ← hash_message self;
  Ok (prefix (sha256_hexdigest msg) size).

End Hash.

(** [hash] with SHA-256 and the texts of [str]. *)
Definition hash_text `{ObjectLibrary} (self : t) : result string :=
  hash_message np_array_str position_str self.

Definition hash_sha256 `{ObjectLibrary} (self : t) (size : Z)
  : result string :=
  hash SHA256.hexdigest np_array_str position_str self size.

End MiniGridEnv.

(** ** An object library for the closed examples *)

(** A grey wall, a yellow key and a green goal. *)
Definition a_wall : WorldObj := mk_obj wall grey 0 None None.
Definition a_key : WorldObj := mk_obj key yellow 0 None None.
Definition a_goal : WorldObj := mk_obj goal green 0 None None.

(** Modelled from the spec: the object library is not in [src/]. The spec
    makes a wall opaque and not overlap-able, floor and goal overlap-able,
    a key pickup-able and a door open, closed or locked ([STATE_TO_IDX]);
    [encode()] is the triple of type index, colour index and state, and
    the decoder returns no object for the types [empty] and [unseen].
    Where the spec is silent (the other entries of the three capability
    tables, the colour of [Wall()]) the entry below is a choice of this
    instance; the general theorems are stated for every library. *)
Definition spec_objects : ObjectLibrary := {|
  can_overlap o :=
    match type o with
    | floor | goal => true
    | door => bool_decide (state o = 0)
    | _ => false
    end;
  can_pickup o :=
    match type o with
    | key => true
    | _ => false
    end;
  see_behind o :=
    match type o with
    | wall => false
    | door => bool_decide (state o = 0)
    | _ => true
    end;
  WorldObj_encode o :=
    (OBJECT_TO_IDX (type o), COLOR_TO_IDX (color o), state o);
  WorldObj_decode type_idx color_idx state :=
    obj_type ← IDX_TO_OBJECT type_idx;
    color ← IDX_TO_COLOR color_idx;
    match obj_type with
    | empty | unseen => Ok None
    | _ => Ok (Some (mk_obj obj_type color state None None))
    end;
  Wall := a_wall
|}.

(** The 3 by 3 grid with no object. *)
Definition grid_empty3 : Grid.t := Grid.mk 3 3 (replicate 9 None).

(** The 3 by 3 grid with a wall in cell (1, 0): what
    [Grid(3, 3)] holds after [set(1, 0, Wall())]. *)
Definition grid_wall_1_0 : Grid.t :=
  Grid.mk 3 3 [None; Some a_wall; None;
               None; None; None;
               None; None; None].

(** A 3 by 3 view with the agent at (1, 2): a row of walls in front of
    it and a key behind the walls, in cell (0, 0). *)
Definition grid_key_behind_walls : Grid.t :=
  Grid.mk 3 3 [Some a_key; None; None;
               Some a_wall; Some a_wall; Some a_wall;
               None; None; None].

(** The 3 by 3 grid with walls in the cells (1, 1) and (1, 2): what
    [Grid(3, 3)] holds after [set(1, 1, Wall())] and [set(1, 2, Wall())]. *)
Definition grid_wall_1_1_and_1_2 : Grid.t :=
  Grid.mk 3 3 [None; None; None;
               None; Some a_wall; None;
               None; Some a_wall; None].

(** The 3 by 3 grid with a goal in cell (1, 1). *)
Definition grid_goal_1_1 : Grid.t :=
  Grid.mk 3 3 [None; None; None;
               None; Some a_goal; None;
               None; None; None].

(** The 5 by 5 grid with no object. *)
Definition grid_empty5 : Grid.t := Grid.mk 5 5 (replicate 25 None).

(** An array of three by three cells: a grey wall in cell (1, 0), the
    cell (2, 2) unseen, the other cells empty. *)
Definition array_wall_1_0 : ndarray (Z * Z * Z) :=
  mk_ndarray (3, 3) [(1, 0, 0); (1, 0, 0); (1, 0, 0);
                     (2, 5, 0); (1, 0, 0); (1, 0, 0);
                     (1, 0, 0); (1, 0, 0); (0, 0, 0)].

(** The mask of a 3 by 3 grid in which every cell is visible. *)
Definition all_visible3 : ndarray bool := mk_ndarray (3, 3) (replicate 9 true).

(** An environment after [reset]: view size 7, no object carried, a
    mission text, and a random source that always draws 0. *)
Definition env_of (g : Grid.t) (pos : Position) (dir max_steps : Z)
  : MiniGridEnv.t :=
  MiniGridEnv.mk 7 max_steps false (Some pos) (Some dir) g None 0
    (Some "reach the goal") (MiniGridEnv.mk_rng (λ _, 0) 0).

(** * Properties *)

(** ** The grid container *)

Section GridFacts.
Context `{ObjectLibrary}.

(** The bounds check of [get]. *)
Lemma grid_get_out_of_bounds (g : Grid.t) (i j : Z) :
  ¬ (0 ≤ i < Grid.width g ∧ 0 ≤ j < Grid.height g) →
  Grid.get g i j = Raise AssertionError.
Proof.
  intros Hout. unfold Grid.get, assert.
  destruct (bool_decide (i >= 0) && bool_decide (i < Grid.width g)) eqn:Hi;
    [|done].
  destruct (bool_decide (j >= 0) && bool_decide (j < Grid.height g)) eqn:Hj;
    [|done].
  apply andb_prop in Hi as [?%bool_decide_eq_true ?%bool_decide_eq_true].
  apply andb_prop in Hj as [?%bool_decide_eq_true ?%bool_decide_eq_true].
  lia.
Qed.

(** The bounds check of [set]. *)
Lemma grid_set_out_of_bounds (g : Grid.t) (i j : Z) (v : option WorldObj) :
  ¬ (0 ≤ i < Grid.width g ∧ 0 ≤ j < Grid.height g) →
  Grid.set g i j v = Raise AssertionError.
Proof.
  intros Hout. unfold Grid.set, assert.
  destruct (bool_decide (i >= 0) && bool_decide (i < Grid.width g)) eqn:Hi;
    [|done].
  destruct (bool_decide (j >= 0) && bool_decide (j < Grid.height g)) eqn:Hj;
    [|done].
  apply andb_prop in Hi as [?%bool_decide_eq_true ?%bool_decide_eq_true].
  apply andb_prop in Hj as [?%bool_decide_eq_true ?%bool_decide_eq_true].
  lia.
Qed.

(** The dimension check of the constructor. *)
Lemma grid_new_too_small (w h : Z) :
  ¬ (3 ≤ w ∧ 3 ≤ h) → Grid.new w h = Raise AssertionError.
Proof.
  intros Hsmall. unfold Grid.new, assert.
  destruct (bool_decide (w >= 3)) eqn:Hw; [|done].
  destruct (bool_decide (h >= 3)) eqn:Hh; [|done].
  apply bool_decide_eq_true in Hw, Hh. lia.
Qed.

Lemma py_index_in_range (n i : Z) : 0 ≤ i < n → py_index n i = Ok (Z.to_nat i).
Proof. intros Hi. unfold py_index. by rewrite bool_decide_eq_true_2. Qed.

Lemma elem_of_range (lo hi x : Z) : x ∈ range lo hi ↔ lo ≤ x < hi.
Proof. unfold range. rewrite elem_of_seqZ. lia. Qed.

(** A loop whose body returns and keeps [P] returns and keeps [P]. *)
Lemma for_in_ok {S : Type} (P : S → Prop) (xs : list Z)
    (body : Z → S → result S) (s : S) :
  P s →
  (∀ x s, x ∈ xs → P s → ∃ s', body x s = Ok s' ∧ P s') →
  ∃ s', for_in xs body s = Ok s' ∧ P s'.
Proof.
  revert s. induction xs as [|x xs IH]; intros s Hs Hbody; simpl.
  - eauto.
  - destruct (Hbody x s) as (s1 & -> & Hs1); [by left | done |]. simpl.
    apply IH; [done|]. intros y s2 Hy. apply Hbody. by right.
Qed.

Lemma grid_new_ok (w h : Z) :
  3 ≤ w → 3 ≤ h →
  Grid.new w h = Ok (Grid.mk w h (replicate (Z.to_nat (w * h)) None)).
Proof.
  intros Hw Hh. unfold Grid.new, assert.
  rewrite !bool_decide_eq_true_2 by lia. reflexivity.
Qed.

Lemma grid_new_well_formed (w h : Z) :
  3 ≤ w → 3 ≤ h →
  Grid.well_formed (Grid.mk w h (replicate (Z.to_nat (w * h)) None)).
Proof.
  intros Hw Hh. unfold Grid.well_formed. simpl.
  rewrite length_replicate. lia.
Qed.

(** [set] on a cell of a well-formed grid: the column does not matter. *)
Lemma grid_set_column_one (g : Grid.t) (i j : Z) (v : option WorldObj) :
  Grid.well_formed g → 0 ≤ i < Grid.width g → 0 ≤ j < Grid.height g →
  Grid.set g i j v =
    Ok (Grid.mk (Grid.width g) (Grid.height g)
          (<[Z.to_nat (j * Grid.width g + 1) := v]> (Grid.grid g))).
Proof.
  intros (Hw & Hh & Hlen) Hi Hj. unfold Grid.set, assert, setitem.
  rewrite !bool_decide_eq_true_2 by lia. simpl.
  rewrite py_index_in_range by nia. reflexivity.
Qed.

Lemma grid_set_ok (g : Grid.t) (i j : Z) (v : option WorldObj) :
  Grid.well_formed g → 0 ≤ i < Grid.width g → 0 ≤ j < Grid.height g →
  ∃ g', Grid.set g i j v = Ok g' ∧ Grid.well_formed g' ∧
        Grid.width g' = Grid.width g ∧ Grid.height g' = Grid.height g.
Proof.
  intros Hg Hi Hj. rewrite grid_set_column_one by done.
  eexists. split; [done|]. destruct Hg as (Hw & Hh & Hlen).
  unfold Grid.well_formed. simpl. by rewrite length_insert.
Qed.

Lemma grid_get_ok (g : Grid.t) (i j : Z) :
  Grid.well_formed g → 0 ≤ i < Grid.width g → 0 ≤ j < Grid.height g →
  ∃ v, Grid.get g i j = Ok v.
Proof.
  intros (Hw & Hh & Hlen) Hi Hj. unfold Grid.get, assert, getitem.
  rewrite !bool_decide_eq_true_2 by lia. simpl.
  rewrite py_index_in_range by nia. simpl.
  destruct (Grid.grid g !! _) as [v|] eqn:Hv; [by eexists|].
  apply lookup_ge_None in Hv. nia.
Qed.

(** [rotate_left] returns a grid with the two sides exchanged. *)
Lemma rotate_left_dimensions (g : Grid.t) :
  Grid.well_formed g →
  ∃ g', Grid.rotate_left g = Ok g' ∧ Grid.well_formed g' ∧
        Grid.width g' = Grid.height g ∧ Grid.height g' = Grid.width g.
Proof.
  intros Hg. pose proof Hg as (Hw & Hh & Hlen). unfold Grid.rotate_left.
  rewrite grid_new_ok by done. simpl.
  apply (for_in_ok (λ g', Grid.well_formed g' ∧
           Grid.width g' = Grid.height g ∧ Grid.height g' = Grid.width g)).
  { split; [by apply grid_new_well_formed | done]. }
  intros i g1 Hi%elem_of_range Hg1. apply for_in_ok; [done|].
  intros j g2 Hj%elem_of_range (Hg2 & Hw2 & Hh2).
  destruct (grid_get_ok g i j) as [v ->]; [done | lia | lia |]. simpl.
  destruct (grid_set_ok g2 j (Grid.height g2 - 1 - 1) v)
    as (g3 & -> & ? & ? & ?); [done | lia | lia |].
  eexists. split; [done|]. split_and!; congruence.
Qed.

(** [slice] returns a grid of the size asked for. *)
Lemma slice_dimensions (g : Grid.t) (topX topY w h : Z) :
  Grid.well_formed g → 3 ≤ w → 3 ≤ h →
  ∃ g', Grid.slice g topX topY w h = Ok g' ∧ Grid.well_formed g' ∧
        Grid.width g' = w ∧ Grid.height g' = h.
Proof.
  intros Hg Hw Hh. unfold Grid.slice.
  rewrite grid_new_ok by done. simpl.
  apply (for_in_ok (λ g', Grid.well_formed g' ∧
           Grid.width g' = w ∧ Grid.height g' = h)).
  { split; [by apply grid_new_well_formed | done]. }
  intros j g1 Hj%elem_of_range Hg1. apply for_in_ok; [done|].
  intros i g2 Hi%elem_of_range (Hg2 & Hw2 & Hh2).
  assert (∃ v,
    (if bool_decide (topX + 1 >= 0) && bool_decide (topX + 1 < Grid.width g) &&
        bool_decide (topY + j >= 0) && bool_decide (topY + j < Grid.height g)
     then Grid.get g (topX + 1) (topY + j)
     else Ok (Some Wall)) = Ok v) as [v Hv].
  { destruct (_ && _) eqn:Hb; [|by eexists].
    repeat (apply andb_prop in Hb as [Hb ?%bool_decide_eq_true]).
    apply bool_decide_eq_true in Hb. apply grid_get_ok; [done | lia | lia]. }
  cbv zeta. rewrite Hv. simpl.
  destruct (grid_set_ok g2 i j v) as (g3 & -> & ? & ? & ?);
    [done | lia | lia |].
  eexists. split; [done|]. split_and!; congruence.
Qed.


Lemma np_full_ok {A} (d0 d1 : Z) (x : A) :
  0 ≤ d0 → 0 ≤ d1 →
  ∃ a, np_full d0 d1 x = Ok a ∧ has_shape a d0 d1.
Proof.
  intros H0 H1. unfold np_full. rewrite bool_decide_eq_true_2 by done.
  eexists. split; [done|]. unfold has_shape. simpl.
  rewrite length_replicate. split_and!; [done | lia..].
Qed.

Lemma np_get_ok {A} (a : ndarray A) (d0 d1 i j : Z) :
  has_shape a d0 d1 → 0 ≤ i < d0 → 0 ≤ j < d1 →
  ∃ x, np_get a i j = Ok x.
Proof.
  intros (Hs & H0 & H1 & Hlen) Hi Hj. unfold np_get. rewrite Hs. simpl.
  rewrite !py_index_in_range by done. simpl.
  destruct (data a !! _) as [x|] eqn:Hx; [by eexists|].
  apply lookup_ge_None in Hx. nia.
Qed.

(** Storing [x] keeps the shape, and keeps each cell that held [x]. *)
Lemma np_set_ok {A} (a : ndarray A) (d0 d1 i j : Z) (x : A) :
  has_shape a d0 d1 → 0 ≤ i < d0 → 0 ≤ j < d1 →
  ∃ a', np_set a i j x = Ok a' ∧ has_shape a' d0 d1 ∧
        np_get a' i j = Ok x ∧
        ∀ i' j', np_get a i' j' = Ok x → np_get a' i' j' = Ok x.
Proof.
  intros (Hs & H0 & H1 & Hlen) Hi Hj. unfold np_set. rewrite Hs. simpl.
  rewrite !py_index_in_range by done. simpl.
  eexists. split; [done|]. split_and!.
  - unfold has_shape. simpl. rewrite length_insert. done.
  - unfold np_get. simpl.
    rewrite !py_index_in_range by done. simpl.
    rewrite list_lookup_insert_eq by nia. done.
  - intros i' j'. unfold np_get. simpl. rewrite Hs. simpl.
    destruct (py_index d0 i') as [a0|]; [|done]. simpl.
    destruct (py_index d1 j') as [b0|]; [|done]. simpl.
    destruct (decide ((Z.to_nat i * Z.to_nat d1 + Z.to_nat j)%nat
                      = (a0 * Z.to_nat d1 + b0)%nat)) as [<-|Hne].
    + rewrite list_lookup_insert_eq by nia. done.
    + rewrite list_lookup_insert_ne by done. done.
Qed.

Section ProcessVis.
Variables (grid : Grid.t) (ox oy : Z).
Hypothesis grid_wf : Grid.well_formed grid.

Lemma np_set_true_inv (mask : ndarray bool) (i j : Z) :
  Grid.mask_inv grid ox oy mask →
  0 ≤ i < Grid.width grid → 0 ≤ j < Grid.height grid →
  ∃ mask', np_set mask i j true = Ok mask' ∧ Grid.mask_inv grid ox oy mask'.
Proof.
  intros [Hs Ho] Hi Hj.
  destruct (np_set_ok mask _ _ i j true Hs Hi Hj)
    as (m' & -> & Hs' & _ & Hkeep).
  eexists. split; [done|]. split; [done | by apply Hkeep].
Qed.

Lemma vis_spread_inv (j d i : Z) (mask : ndarray bool) :
  Grid.mask_inv grid ox oy mask → 0 ≤ j < Grid.height grid →
  0 ≤ i < Grid.width grid → 0 ≤ i + d < Grid.width grid →
  ∃ mask', Grid.vis_spread grid j d i mask = Ok mask' ∧
           Grid.mask_inv grid ox oy mask'.
Proof.
  intros Hm Hj Hi Hid. unfold Grid.vis_spread.
  destruct (np_get_ok mask _ _ i j (proj1 Hm) Hi Hj) as [b ->]. simpl.
  destruct b; simpl; [|by eauto].
  destruct (grid_get_ok grid i j grid_wf Hi Hj) as [cell ->]. simpl.
  destruct (Grid.opaque cell); [by eauto|].
  destruct (np_set_true_inv mask (i + d) j) as (m1 & -> & Hm1); [done..|].
  simpl.
  case_bool_decide; [|by eauto].
  destruct (np_set_true_inv m1 (i + d) (j - 1)) as (m2 & -> & Hm2);
    [done | lia | lia |]. simpl.
  apply np_set_true_inv; [done | lia | lia].
Qed.

End ProcessVis.

(** [process_vis] on a well-formed grid and an origin inside it returns,
    with a mask of the shape of the grid whose origin bit is set, and
    leaves the dimensions of the grid alone. *)
Lemma process_vis_mask (grid : Grid.t) (ox oy : Z) :
  Grid.well_formed grid →
  0 ≤ ox < Grid.width grid → 0 ≤ oy < Grid.height grid →
  ∃ grid' mask,
    Grid.process_vis grid (ox, oy) = Ok (grid', mask) ∧
    has_shape mask (Grid.width grid) (Grid.height grid) ∧
    np_get mask ox oy = Ok true ∧
    Grid.well_formed grid' ∧
    Grid.width grid' = Grid.width grid ∧ Grid.height grid' = Grid.height grid.
Proof.
  intros Hg Hx Hy. pose proof Hg as (Hw & Hh & Hlen). unfold Grid.process_vis.
  destruct (np_full_ok (Grid.width grid) (Grid.height grid) false)
    as (m0 & -> & Hm0); [lia | lia |]. simpl.
  destruct (np_set_ok m0 _ _ ox oy true Hm0 Hx Hy) as (m1 & -> & Hm1 & Ho & _).
  simpl.
  match goal with
  | |- context [for_in ?xs ?body m1] =>
      destruct (for_in_ok (Grid.mask_inv grid ox oy) xs body m1)
        as (m2 & -> & Hm2 & Ho2)
  end.
  { done. }
  { intros j m Hj%elem_of_reverse%elem_of_range Hm.
    destruct (for_in_ok (Grid.mask_inv grid ox oy)
                (range 0 (Grid.width grid - 1))
                (Grid.vis_spread grid j 1) m) as (m' & -> & Hm'); [done | |].
    { intros i m' Hi%elem_of_range Hm'.
      apply vis_spread_inv; [done | done | lia..]. }
    simpl. apply for_in_ok; [done|].
    intros i m'' Hi%elem_of_reverse%elem_of_range Hm''.
    apply vis_spread_inv; [done | done | lia..]. }
  cbn [mbind result_bind].
  match goal with
  | |- context [for_in ?xs ?body grid] =>
      destruct (for_in_ok (λ g', Grid.well_formed g' ∧
                  Grid.width g' = Grid.width grid ∧
                  Grid.height g' = Grid.height grid) xs body grid)
        as (g' & -> & Hg' & Hw' & Hh')
  end.
  { done. }
  { intros j g1 Hj%elem_of_range Hg1. apply for_in_ok; [done|].
    intros i g2 Hi%elem_of_range (Hg2 & Hw2 & Hh2).
    destruct (np_get_ok m2 _ _ i j Hm2) as [b ->]; [lia | lia |]. simpl.
    destruct b; simpl; [by eauto|].
    destruct (grid_set_ok g2 i j None) as (g3 & -> & ? & ? & ?);
      [done | lia | lia |].
    eexists. split; [done|]. split_and!; congruence. }
  simpl. eexists _, _. split_and!; done.
Qed.

End GridFacts.

(** ** The action interpreter *)

Section StepFacts.
Context `{ObjectLibrary}.
Import MiniGridEnv.

Lemma set_np_random_self (s : t) : set_np_random (np_random s) s = s.
Proof. by destruct s. Qed.

(** No direction vector is null. *)
Lemma DIR_TO_VEC_nonzero (d : Z) : DIR_TO_VEC d ≠ (0, 0).
Proof. unfold DIR_TO_VEC. repeat case_match; discriminate. Qed.

Lemma front_pos_placed (s : t) (p : Position) (d : Z) :
  agent_pos s = Some p → agent_dir s = Some d → 0 ≤ d < 4 →
  front_pos s = Ok (NdArray ((coords p).1 + (DIR_TO_VEC d).1)
                            ((coords p).2 + (DIR_TO_VEC d).2)).
Proof.
  intros Hp Hd Hr. unfold front_pos, dir_vec, agent_dir_int, agent_pos_xy.
  rewrite Hp, Hd. simpl.
  rewrite !bool_decide_eq_true_2 by lia. simpl.
  destruct (DIR_TO_VEC d), (coords p). reflexivity.
Qed.

(** [get_view_exts] returns for the facings 0 and 2 only. *)
Lemma get_view_exts_ok (s : t) (r : Z * Z * Z * Z) :
  get_view_exts s = Ok r → agent_dir s = Some 0 ∨ agent_dir s = Some 2.
Proof.
  unfold get_view_exts.
  repeat case_bool_decide; eauto;
    destruct (agent_pos_xy s) as [[??]|]; simpl; discriminate.
Qed.

(** [gen_obs_grid] never returns: the rotation loop runs at least once
    and its body raises. *)
Lemma gen_obs_grid_raises (s : t) : ∃ e, gen_obs_grid s = Raise e.
Proof.
  unfold gen_obs_grid.
  destruct (get_view_exts s) as [[[[topX topY] botX] botY]|e] eqn:Hext;
    [|by eexists].
  apply get_view_exts_ok in Hext. simpl.
  destruct (Grid.slice _ _ _ _ _) as [g|e]; [|by eexists]. simpl.
  unfold agent_dir_int.
  destruct Hext as [-> | ->]; eexists; reflexivity.
Qed.

Lemma gen_obs_raises (s : t) : ∃ e, gen_obs s = Raise e.
Proof.
  unfold gen_obs. destruct (gen_obs_grid_raises s) as [e ->]. by eexists.
Qed.

(** Case analysis along the body of [step]. *)
Ltac step_cases :=
  unfold step, mbind, M_bind, read, update, lift, call, when, mret, M_ret;
  repeat match goal with
  | |- context [front_pos ?s] => destruct (front_pos s); simpl
  | |- context [Grid.get ?g ?i ?j] => destruct (Grid.get g i j); simpl
  | |- context [agent_dir_int ?s] => destruct (agent_dir_int s); simpl
  | |- context [enterable ?c] => destruct (enterable c); simpl
  | |- context [has_type ?c ?ty] => destruct (has_type c ty); simpl
  | |- context [_reward ?s] => destruct (_reward s); simpl
  | |- context [bool_decide ?P] => destruct (bool_decide P); simpl
  end.

(** No call of [step] returns: each path ends in an exception, the last
    of them in [gen_obs]. *)
Lemma step_raises (action : Z) (s : t) : ∃ e, (step action s).2 = Raise e.
Proof.
  step_cases;
    repeat match goal with
    | |- context [gen_obs ?s] => destruct (gen_obs_raises s) as [? ->]; simpl
    end; by eexists.
Qed.

(** Each call of [step] counts, whatever the action and however the
    call ends. *)
Lemma step_counts (action : Z) (s : t) :
  step_count (step action s).1 = step_count s + 1.
Proof.
  step_cases;
    repeat match goal with
    | |- context [gen_obs ?s] => destruct (gen_obs s); simpl
    end; done.
Qed.

(** An action that is not [left], [right] or [forward] raises, and
    the counter is all that has changed. *)
Lemma step_other_action (action : Z) (s : t) :
  action ≠ Actions.left → action ≠ Actions.right → action ≠ Actions.forward →
  ∃ e, step action s = (set_step_count (step_count s + 1) s, Raise e).
Proof.
  intros Hl Hr Hf.
  unfold step, mbind, M_bind, read, update, lift, call, when, mret, M_ret.
  destruct (front_pos _) as [fwd|e]; [|by eexists].
  destruct (Grid.get _ _ _) as [cell|e]; [|by eexists].
  rewrite !bool_decide_eq_false_2 by done. by eexists.
Qed.

(** The environment that [step(forward)] leaves behind. *)
Lemma step_forward_state
    (s : t) (p : Position) (d : Z) (cell : option WorldObj) :
  agent_pos s = Some p → agent_dir s = Some d → 0 ≤ d < 4 →
  Grid.get (grid s) ((coords p).1 + (DIR_TO_VEC d).1)
                    ((coords p).2 + (DIR_TO_VEC d).2) = Ok cell →
  (step Actions.forward s).1 =
    (if enterable cell
     then set_agent_pos (Some (NdArray ((coords p).1 + (DIR_TO_VEC d).1)
                                       ((coords p).2 + (DIR_TO_VEC d).2)))
     else id) (set_step_count (step_count s + 1) s).
Proof.
  intros Hp Hd Hr Hget.
  unfold step, mbind, M_bind, read, update, lift, call, when, mret, M_ret.
  rewrite (front_pos_placed _ p d) by done.
  cbn [coords fst snd set_step_count grid]. rewrite Hget.
  rewrite (bool_decide_eq_false_2 (Actions.forward = Actions.left)) by done.
  rewrite (bool_decide_eq_false_2 (Actions.forward = Actions.right)) by done.
  rewrite (bool_decide_eq_true_2 (Actions.forward = Actions.forward)) by done.
  destruct (enterable cell); simpl;
    repeat match goal with
    | |- context [has_type ?c ?ty] => destruct (has_type c ty); simpl
    | |- context [_reward ?s] => destruct (_reward s); simpl
    | |- context [bool_decide ?P] => destruct (bool_decide P); simpl
    | |- context [gen_obs ?s] => destruct (gen_obs s); simpl
    end; done.
Qed.

Lemma enterable_spec (cell : option WorldObj) :
  enterable cell = true
  ↔ cell = None ∨ ∃ o, cell = Some o ∧ can_overlap o = true.
Proof.
  destruct cell as [o|]; simpl.
  - split; [intros; right; eauto | intros [|(? & [= <-] & ?)]; done].
  - split; [by left | done].
Qed.

(** The position that [step(forward)] has written when it raises: the
    forward cell if and only if that cell is empty or its occupant
    answers [can_overlap()] with true, and the old position otherwise.
    The agent is placed, faces one of the four directions, and the
    forward cell is in the grid and holds [cell]. *)
Lemma step_forward_moves_iff_enterable
    (s : t) (p : Position) (d : Z) (cell : option WorldObj) :
  agent_pos s = Some p → agent_dir s = Some d → 0 ≤ d < 4 →
  Grid.get (grid s) ((coords p).1 + (DIR_TO_VEC d).1)
                    ((coords p).2 + (DIR_TO_VEC d).2) = Ok cell →
  let s' := (step Actions.forward s).1 in
  (coords <$> agent_pos s' = Some ((coords p).1 + (DIR_TO_VEC d).1,
                                   (coords p).2 + (DIR_TO_VEC d).2)
   ↔ cell = None ∨ ∃ o, cell = Some o ∧ can_overlap o = true) ∧
  (¬ (cell = None ∨ ∃ o, cell = Some o ∧ can_overlap o = true) →
   agent_pos s' = Some p).
Proof.
  intros Hp Hd Hr Hget s'. subst s'.
  rewrite (step_forward_state s p d cell) by done.
  rewrite <- enterable_spec.
  destruct (enterable cell); simpl.
  - split; [split; done | intros Hn; by destruct Hn].
  - rewrite Hp. simpl. split; [|done].
    split; [|done]. pose proof (DIR_TO_VEC_nonzero d) as Hnz.
    destruct (coords p) as [x y], (DIR_TO_VEC d) as [dx dy]. simpl.
    intros [= Hx Hy]. destruct Hnz. f_equal; lia.
Qed.

(** Claim C10. When the cell in front of the agent lies outside the grid,
    [step] fails with the bounds assertion of [Grid.get] for every
    action, the two turns included: the forward cell is read before the
    action is looked at. Only the step counter has changed. *)
Theorem step_fails_facing_outward (s : t) (action : Z) (p : Position) (d : Z) :
  agent_pos s = Some p → agent_dir s = Some d → 0 ≤ d < 4 →
  ¬ (0 ≤ (coords p).1 + (DIR_TO_VEC d).1 < Grid.width (grid s) ∧
     0 ≤ (coords p).2 + (DIR_TO_VEC d).2 < Grid.height (grid s)) →
  Grid.get (grid s) ((coords p).1 + (DIR_TO_VEC d).1)
                    ((coords p).2 + (DIR_TO_VEC d).2) = Raise AssertionError ∧
  step action s = (set_step_count (step_count s + 1) s, Raise AssertionError).
Proof.
  intros Hp Hd Hr Hout. split; [by apply grid_get_out_of_bounds|].
  unfold step, mbind, M_bind, read, update, lift, call.
  rewrite (front_pos_placed _ p d) by done.
  cbn [coords fst snd set_step_count grid].
  rewrite grid_get_out_of_bounds by done. reflexivity.
Qed.

(** *** Placement *)

Lemma randint_state (low high : Z) (s s' : t) (r : result Z) :
  randint low high s = (s', r) → ∃ rs, s' = set_np_random rs s.
Proof.
  unfold randint. case_bool_decide; intros [= <- <-].
  - exists (np_random s). by rewrite set_np_random_self.
  - by eexists.
Qed.

(** The sampling loop changes nothing but the random source. *)
Lemma place_obj_loop_state fuel top size reject_fn max_tries num_tries
    (s s' : t) (r : result Position) :
  place_obj_loop fuel top size reject_fn max_tries num_tries s = Some (s', r) →
  ∃ rs, s' = set_np_random rs s.
Proof.
  revert num_tries s. induction fuel as [|fuel IH]; intros num_tries s; [done|].
  simpl. destruct (exceeds _ _).
  { intros [= <- <-]. exists (np_random s). by rewrite set_np_random_self. }
  unfold _rand_int, mbind, M_bind, mret, M_ret.
  destruct (randint top.1 _ s) as [s1 [x|e]] eqn:Hx;
    apply randint_state in Hx as [rs1 ->].
  2: { intros [= <- <-]. by eexists. }
  destruct (randint top.2 _ _) as [s2 [y|e]] eqn:Hy;
    apply randint_state in Hy as [rs2 ->].
  2: { intros [= <- <-]. by eexists. }
  assert (Hrs : ∀ s'',
    (∃ rs, s'' = set_np_random rs (set_np_random rs2 (set_np_random rs1 s))) →
    ∃ rs, s'' = set_np_random rs s).
  { intros s'' [rs ->]. by exists rs. }
  destruct (Grid.get _ _ _) as [cell|e].
  2: { intros [= <- <-]. apply Hrs. exists rs2. by destruct s. }
  repeat match goal with
  | |- context [if ?b then _ else _] => destruct b
  end; try (intros Hloop; apply Hrs, (IH _ _ Hloop)).
  intros [= <- <-]. apply Hrs. exists rs2. by destruct s.
Qed.

(** A [place_obj] that raises has changed nothing but the random source. *)
Lemma place_obj_raise_state fuel obj top size reject_fn max_tries
    (s s' : t) (e : exn) :
  place_obj fuel obj top size reject_fn max_tries s = Some (s', Raise e) →
  ∃ rs, s' = set_np_random rs s.
Proof.
  unfold place_obj.
  destruct (place_obj_loop _ _ _ _ _ _ _) as [[s1 [pos|e1]]|] eqn:Hloop;
    [| |done]; apply place_obj_loop_state in Hloop as [rs ->].
  - destruct (Grid.set _ _ _ _); intros [= <-]; by eexists.
  - intros [= <- <-]. by eexists.
Qed.

(** A [place_agent] that raises has reset the agent position. *)
Lemma place_agent_raise_state fuel top size rand_dir max_tries
    (s s' : t) (e : exn) :
  place_agent fuel top size rand_dir max_tries s = Some (s', Raise e) →
  ∃ rs, s' = set_np_random rs (set_agent_pos None s).
Proof.
  unfold place_agent.
  destruct (place_obj _ _ _ _ _ _ _) as [[s1 [pos|e1]]|] eqn:Hobj; [| |done].
  - destruct rand_dir; [|done]. unfold _rand_int, randint.
    rewrite bool_decide_eq_false_2 by lia. done.
  - intros [= <- <-]. by apply place_obj_raise_state in Hobj.
Qed.

(** Claim C9, as amended. A [step] whose action is outside the enum
    raises and leaves agent position, facing, carried object and grid as
    they were, but the step counter has been incremented. A [Grid.get] or
    [Grid.set] out of bounds and a [Grid] smaller than 3 by 3 raise at the
    assertion, before any cell is touched. A [place_obj] that raises has
    changed the random source only; a [place_agent] that raises has, in
    addition, reset the agent position to [None]. *)
Theorem failing_calls_and_state :
  (∀ (s : t) (action : Z), ¬ (0 ≤ action ≤ 8) →
     ∃ e, step action s = (set_step_count (step_count s + 1) s, Raise e)) ∧
  (∀ (g : Grid.t) (i j : Z) (v : option WorldObj),
     ¬ (0 ≤ i < Grid.width g ∧ 0 ≤ j < Grid.height g) →
     Grid.get g i j = Raise AssertionError ∧
     Grid.set g i j v = Raise AssertionError) ∧
  (∀ w h : Z, ¬ (3 ≤ w ∧ 3 ≤ h) → Grid.new w h = Raise AssertionError) ∧
  (∀ fuel obj top size reject_fn max_tries (s s' : t) (e : exn),
     place_obj fuel obj top size reject_fn max_tries s = Some (s', Raise e) →
     ∃ rs, s' = set_np_random rs s) ∧
  (∀ fuel top size rand_dir max_tries (s s' : t) (e : exn),
     place_agent fuel top size rand_dir max_tries s = Some (s', Raise e) →
     ∃ rs, s' = set_np_random rs (set_agent_pos None s)).
Proof.
  split_and!.
  - intros s action Hact.
    apply step_other_action;
      unfold Actions.left, Actions.right, Actions.forward; lia.
  - intros g i j v Hout.
    split; [by apply grid_get_out_of_bounds | by apply grid_set_out_of_bounds].
  - apply grid_new_too_small.
  - apply place_obj_raise_state.
  - apply place_agent_raise_state.
Qed.

End StepFacts.

(** ** The state fingerprint *)

Section HashFacts.
Context `{ObjectLibrary}.
Import MiniGridEnv.
Variable sha256_hexdigest : string → string.
Variable str_ndarray : ndarray (Z * Z * Z) → string.
Variable str_position : Position → string.

#[local] Abbreviation hash :=
  (MiniGridEnv.hash sha256_hexdigest str_ndarray str_position).
#[local] Abbreviation hash_message :=
  (MiniGridEnv.hash_message str_ndarray str_position).

(** The fingerprint reads the grid encoding, the agent position and the
    facing, and nothing else of the environment. *)
Lemma hash_deterministic (s1 s2 : t) (size : Z) :
  Grid.encode (grid s1) None = Grid.encode (grid s2) None →
  agent_pos s1 = agent_pos s2 →
  agent_dir s1 = agent_dir s2 →
  hash s1 size = hash s2 size.
Proof.
  intros Henc Hpos Hdir. unfold MiniGridEnv.hash, MiniGridEnv.hash_message.
  by rewrite Henc, Hpos, Hdir.
Qed.

(** Two facings give two messages. *)
Lemma hash_message_facing (s1 s2 : t) (d1 d2 : Z) (m1 m2 : string) :
  Grid.encode (grid s1) None = Grid.encode (grid s2) None →
  agent_pos s1 = agent_pos s2 →
  agent_dir s1 = Some d1 → agent_dir s2 = Some d2 →
  d1 ≠ d2 →
  hash_message s1 = Ok m1 → hash_message s2 = Ok m2 →
  m1 ≠ m2.
Proof.
  intros Henc Hpos Hd1 Hd2 Hne. unfold MiniGridEnv.hash_message.
  rewrite Henc, Hpos, Hd1, Hd2.
  destruct (Grid.encode (grid s2) None) as [enc|]; simpl; [|done].
  intros [= <-] [= <-] Heq. apply Hne.
  apply (inj (String.app _)), (inj (String.app _)) in Heq.
  by apply (inj pretty) in Heq.
Qed.

End HashFacts.

(** ** The fingerprint with SHA-256 *)

Section HashSha256.
Context `{ObjectLibrary}.
Import MiniGridEnv.

(** [SHA256.hexdigest] on the test vectors of the standard: the empty
    text, one block, and two blocks. *)
Example sha256_empty :
  SHA256.hexdigest ""
  = "e3b0c44298fc1c149afbf4c8996fb92427ae41e4649b934ca495991b7852b855".
Proof. vm_compute. reflexivity. Qed.

Example sha256_abc :
  SHA256.hexdigest "abc"
  = "ba7816bf8f01cfea414140de5dae2223b00361a396177a9cb410ff61f20015ad".
Proof. vm_compute. reflexivity. Qed.

Example sha256_two_blocks :
  SHA256.hexdigest "abcdbcdecdefdefgefghfghighijhijkijkljklmklmnlmnomnopnopq"
  = "248d6a61d20638b8e5c026930c3e6039a33ce45964ff2167f6ecedd419db06c1".
Proof. vm_compute. reflexivity. Qed.

(** The hex digest has 64 characters. *)
Lemma hexdigest_length (text : string) :
  String.length (SHA256.hexdigest text) = 64%nat.
Proof.
  unfold SHA256.hexdigest, SHA256.digest.
  destruct (foldl _ _ _) as [[[[[[[a b] c] d] e] f] g] h].
  reflexivity.
Qed.

(** [s[:size]] is [s] when [size] is at least the length of [s]. *)
Lemma prefix_all (s : string) (size : Z) :
  Z.of_nat (String.length s) ≤ size → prefix s size = s.
Proof.
  intros Hle. unfold prefix. rewrite bool_decide_eq_false_2 by lia.
  rewrite Z.min_r, Nat2Z.id by lia. clear Hle.
  induction s as [|a s IH]; simpl; [done | by rewrite IH].
Qed.


End HashSha256.

(** * The claims on concrete inputs

    The closed statements below run the model with the object library
    [spec_objects]. *)

Section Examples.
#[local] Existing Instance spec_objects.
Import MiniGridEnv.

(** Evaluation of a closed statement. *)
Ltac run :=
  vm_compute;
  lazymatch goal with
  | |- _ = _ => reflexivity
  | |- _ => discriminate
  end.

(** [grid_wall_1_0] is what the calls of the source build. *)
Example grid_wall_1_0_built :
  Grid.new 3 3 ≫= (λ g, Grid.set g 1 0 (Some a_wall)) = Ok grid_wall_1_0.
Proof. run. Qed.

(** Claim C1 at a failing input. The grid with a wall in cell (1, 0) is
    encoded with every cell visible and decoded again: the mask comes
    back, the wall does not. [decode] writes each cell through
    [Grid.set], which stores into column 1 of the row whatever the column,
    so the cell (1, 0) ends with the decoding of the last column, which
    is empty. *)
Theorem decode_encode_drops_cell :
  ∃ array G' M',
    Grid.encode grid_wall_1_0 (Some all_visible3) = Ok array ∧
    Grid.decode array = Ok (G', M') ∧
    M' = all_visible3 ∧
    G' = grid_empty3 ∧
    Grid.get grid_wall_1_0 1 0 = Ok (Some a_wall) ∧
    Grid.get G' 1 0 = Ok None ∧
    Grid.encode G' None ≠ Grid.encode grid_wall_1_0 None ∧
    Grid.eq G' grid_wall_1_0 = Ok false.
Proof.
  eexists _, _, _. split_and!; run.
Qed.

(** Why the visibility pass is stated for the grids the class builds.
    This grid holds objects in the columns 0 and 2, which no method of
    the class writes. The agent
    at (1, 2) looks at a row of walls; the key behind them, in cell
    (0, 0), is hidden by the mask and is still in the grid when
    [process_vis] has returned: the erasing [Grid.set] wrote into cell
    (1, 0). *)
Example process_vis_outside_column_one :
  ∃ g' mask,
    Grid.process_vis grid_key_behind_walls (1, 2) = Ok (g', mask) ∧
    np_get mask 1 2 = Ok true ∧
    np_get mask 0 0 = Ok false ∧
    Grid.get g' 0 0 = Ok (Some a_key).
Proof.
  eexists _, _. split_and!; run.
Qed.

(** Claim C3 at a failing input. Four left rotations of the grid with a
    wall in cell (1, 0) give back the dimensions, and an empty grid:
    [rotate_left] writes every source cell into the one cell
    [(1, height - 2)] of the target. *)
Theorem rotate_left_four_times_loses_cells :
  ∃ g4,
    (g1 ← Grid.rotate_left grid_wall_1_0; g2 ← Grid.rotate_left g1;
     g3 ← Grid.rotate_left g2; Grid.rotate_left g3) = Ok g4 ∧
    Grid.width g4 = 3 ∧ Grid.height g4 = 3 ∧
    g4 = grid_empty3 ∧
    Grid.encode g4 None ≠ Grid.encode grid_wall_1_0 None.
Proof.
  eexists. split_and!; run.
Qed.

(** Claim C4 at a failing input. The agent at (0, 1) faces East, the goal
    is in cell (1, 1), [max_steps] is 10 and no step was taken. The call
    moves the agent onto the goal and counts the step, the reward of that
    state is 0.91, and the call then raises [AttributeError] in
    [gen_obs]: neither [done] nor the reward is returned. *)
Theorem step_forward_goal_raises :
  let s := env_of grid_goal_1_1 (PyTuple 0 1) 0 10 in
  let s' := (step Actions.forward s).1 in
  Grid.get (grid s) 1 1 = Ok (Some a_goal) ∧
  (step Actions.forward s).2 = Raise AttributeError ∧
  agent_pos s' = Some (NdArray 1 1) ∧
  step_count s' = 1 ∧
  (∃ r, _reward s' = Ok r ∧ (r == 91 # 100)%Q).
Proof.
  intros s s'. split_and!; try run.
  eexists. split; run.
Qed.

(** Claim C6 at a failing input. The 3 by 3 slice of the empty 3 by 3
    grid from (-1, -1): its cell (0, 0) stands for the source coordinate
    (-1, -1), outside the source, and holds no wall. Only column 1 of the
    slice is ever written. *)
Theorem slice_out_of_bounds_cell_is_empty :
  ∃ g,
    Grid.slice grid_empty3 (-1) (-1) 3 3 = Ok g ∧
    Grid.width g = 3 ∧ Grid.height g = 3 ∧
    Grid.get g 0 0 = Ok None ∧
    Grid.get g 1 0 = Ok (Some Wall) ∧
    Grid.get g 2 0 = Ok None.
Proof.
  eexists. split_and!; run.
Qed.

(** Claim C7 at a failing input. With [max_steps] 1 the first step
    reaches the bound, whatever the action; for each of the nine
    actions the counter becomes 1 and the call raises an exception instead
    of returning [done]: [NameError] after the left turn (facing 3 in
    [get_view_exts]), [AttributeError] for every other action. *)
Theorem step_returns_no_done_flag :
  let s := env_of grid_goal_1_1 (PyTuple 0 1) 0 1 in
  Forall (λ action,
            step_count (step action s).1 = 1 ∧
            max_steps (step action s).1 = 1 ∧
            is_ok (step action s).2 = false)
         (range 0 9) ∧
  (step Actions.left s).2 = Raise NameError ∧
  Forall (λ action, (step action s).2 = Raise AttributeError) (range 1 9).
Proof.
  intros s. split_and!; [| run |].
  - let l := eval vm_compute in (range 0 9) in change (range 0 9) with l.
    repeat (constructor; [cbv beta; split_and!; run|]). constructor.
  - let l := eval vm_compute in (range 1 9) in change (range 1 9) with l.
    repeat (constructor; [cbv beta; run|]). constructor.
Qed.


(** Claim C9 refuted as stated. A [step] with the action 9, outside the
    enum, raises, and the step counter has gone from 0 to 1. *)
Lemma step_invalid_action_counts :
  let s := env_of grid_empty5 (PyTuple 2 2) 0 10 in
  (step 9 s).2 = Raise AttributeError ∧
  step_count s = 0 ∧
  step_count (step 9 s).1 = 1.
Proof. intros s. split_and!; run. Qed.

(** Claim C5 at a failing input. On the 5 by 5 grid the agent stands at
    (2, 2) and faces East. With the cell (3, 2) empty, [step(forward)]
    writes the position (3, 2) and then raises in [gen_obs]: the call
    returns nothing, as every call of [step(forward)] does. After
    [set(3, 2, Wall())] the wall is in the cell (1, 2), the cell (3, 2)
    is still empty, and the same call leaves the agent at (3, 2), where
    the wall was put. *)
Theorem step_forward_raises_and_passes_wall :
  let s := env_of grid_empty5 (PyTuple 2 2) 0 10 in
  Grid.new 5 5 = Ok grid_empty5 ∧
  (∀ s0 : t, ∃ e, (step Actions.forward s0).2 = Raise e) ∧
  (step Actions.forward s).2 = Raise AttributeError ∧
  agent_pos (step Actions.forward s).1 = Some (NdArray 3 2) ∧
  ∃ g,
    Grid.set grid_empty5 3 2 (Some Wall) = Ok g ∧
    Grid.get g 3 2 = Ok None ∧
    Grid.get g 1 2 = Ok (Some Wall) ∧
    (step Actions.forward (set_grid g s)).2 = Raise AttributeError ∧
    agent_pos (step Actions.forward (set_grid g s)).1 = Some (NdArray 3 2).
Proof.
  intros s. split_and!; [run | apply step_raises | run | run |].
  exists (Grid.mk 5 5 (<[11%nat := Some Wall]> (replicate 25 None))).
  split_and!; run.
Qed.

(** Claim C10 applied: at the East edge of the 5 by 5 grid, facing East, a
    left turn raises the bounds assertion. *)
Lemma step_fails_facing_outward_witness :
  let s := env_of grid_empty5 (PyTuple 4 2) 0 10 in
  Grid.get (grid s) 5 2 = Raise AssertionError ∧
  step Actions.left s = (set_step_count 1 s, Raise AssertionError).
Proof.
  intros s.
  refine (step_fails_facing_outward s Actions.left (PyTuple 4 2) 0 _ _ _ _);
    [run | run | lia | simpl; lia].
Defined.

(** Claim C9 applied: an action outside the enum, a cell and a size out
    of bounds, and a placement that gives up after one attempt at the
    occupied cell (1, 1). *)
Lemma failing_calls_witness :
  let s := env_of grid_goal_1_1 (PyTuple 0 1) 0 10 in
  let s' := set_np_random (mk_rng (λ _, 0) 2) s in
  (∃ e, step 9 s = (set_step_count 1 s, Raise e)) ∧
  (Grid.get grid_empty3 3 0 = Raise AssertionError ∧
   Grid.set grid_empty3 3 0 (Some a_key) = Raise AssertionError) ∧
  Grid.new 2 5 = Raise AssertionError ∧
  (place_obj 2 (Some a_key) (Some (1, 1)) (Some (1, 1)) None (Some 0) s
     = Some (s', Raise RecursionError) ∧
   ∃ rs, s' = set_np_random rs s) ∧
  (place_agent 2 (Some (1, 1)) (Some (1, 1)) true (Some 0) s
     = Some (set_agent_pos None s', Raise RecursionError) ∧
   ∃ rs, set_agent_pos None s' = set_np_random rs (set_agent_pos None s)).
Proof.
  intros s s'.
  destruct failing_calls_and_state as (Hstep & Hgrid & Hnew & Hobj & Hagent).
  split; [apply Hstep; lia|].
  split; [apply Hgrid; simpl; lia|].
  split; [apply Hnew; lia|].
  split; (split; [run|]).
  - apply (Hobj 2%nat (Some a_key) (Some (1, 1)) (Some (1, 1)) None (Some 0)
                s s' RecursionError). run.
  - apply (Hagent 2%nat (Some (1, 1)) (Some (1, 1)) true (Some 0)
                  s (set_agent_pos None s') RecursionError). run.
Defined.


End Examples.

(** * Further properties of the grid *)

Section GridMore.
Context `{ObjectLibrary}.

(** Two cells of an array have two places in its data. *)
Lemma cell_index_inj (d i j i' j' : Z) :
  0 ≤ i → 0 ≤ i' → 0 ≤ j < d → 0 ≤ j' < d →
  (Z.to_nat i * Z.to_nat d + Z.to_nat j)%nat
  = (Z.to_nat i' * Z.to_nat d + Z.to_nat j')%nat →
  i = i' ∧ j = j'.
Proof.
  intros Hi Hi' Hj Hj' Heq.
  assert (i * d + j = i' * d + j') as Hz by nia.
  assert (i = i') by nia. lia.
Qed.

Lemma np_get_in_range {A} (a : ndarray A) (d0 d1 i j : Z) :
  has_shape a d0 d1 → 0 ≤ i < d0 → 0 ≤ j < d1 →
  np_get a i j =
    match data a !! (Z.to_nat i * Z.to_nat d1 + Z.to_nat j)%nat with
    | Some x => Ok x
    | None => Raise IndexError
    end.
Proof.
  intros (Hs & _) Hi Hj. unfold np_get. rewrite Hs. simpl.
  rewrite !py_index_in_range by done. reflexivity.
Qed.

(** Reading after a store: the cell stored, or what was there. *)
Lemma np_get_set {A} (a a' : ndarray A) (d0 d1 i j i' j' : Z) (x : A) :
  has_shape a d0 d1 → 0 ≤ i < d0 → 0 ≤ j < d1 →
  0 ≤ i' < d0 → 0 ≤ j' < d1 →
  np_set a i j x = Ok a' →
  np_get a' i' j' =
    if bool_decide (i' = i ∧ j' = j) then Ok x else np_get a i' j'.
Proof.
  intros Ha Hi Hj Hi' Hj' Hset.
  destruct (np_set_ok a d0 d1 i j x Ha Hi Hj) as (a2 & Ha2 & Hs2 & Hget & _).
  rewrite Hset in Ha2. injection Ha2 as <-.
  case_bool_decide as Hc.
  - destruct Hc as [-> ->]. done.
  - rewrite (np_get_in_range a' d0 d1), (np_get_in_range a d0 d1) by done.
    pose proof Ha as (Hs & H0 & H1 & Hlen).
    unfold np_set in Hset. rewrite Hs in Hset. simpl in Hset.
    rewrite !py_index_in_range in Hset by done. simpl in Hset.
    injection Hset as <-. simpl.
    rewrite list_lookup_insert_ne; [done|].
    intros Heq%cell_index_inj; [|lia..]. apply Hc. by destruct Heq.
Qed.

Lemma grid_get_in_range (g : Grid.t) (i j : Z) :
  Grid.well_formed g → 0 ≤ i < Grid.width g → 0 ≤ j < Grid.height g →
  Grid.get g i j =
    match Grid.grid g !! Z.to_nat (j * Grid.width g + i) with
    | Some v => Ok v
    | None => Raise IndexError
    end.
Proof.
  intros (Hw & Hh & Hlen) Hi Hj. unfold Grid.get, assert, getitem.
  rewrite !bool_decide_eq_true_2 by lia. simpl.
  rewrite py_index_in_range by nia. reflexivity.
Qed.

(** [set] then [get] on a well-formed grid. *)
Lemma grid_set_then_get (g : Grid.t) (i j a b : Z) (v : option WorldObj) :
  Grid.well_formed g →
  0 ≤ i < Grid.width g → 0 ≤ j < Grid.height g →
  0 ≤ a < Grid.width g → 0 ≤ b < Grid.height g →
  ∃ g', Grid.set g i j v = Ok g' ∧
        Grid.well_formed g' ∧
        Grid.width g' = Grid.width g ∧ Grid.height g' = Grid.height g ∧
        Grid.get g' a b =
          if bool_decide (a = 1 ∧ b = j) then Ok v else Grid.get g a b.
Proof.
  intros Hg Hi Hj Ha Hb.
  destruct (grid_set_ok g i j v Hg Hi Hj) as (g' & Hset & Hg' & Hw' & Hh').
  exists g'. split_and!; try done.
  rewrite grid_set_column_one in Hset by done. injection Hset as <-.
  pose proof Hg as (Hw & Hh & Hlen).
  rewrite grid_get_in_range, (grid_get_in_range g) by done. simpl.
  case_bool_decide as Hc.
  - destruct Hc as [-> ->]. rewrite list_lookup_insert_eq by nia. done.
  - rewrite list_lookup_insert_ne; [done|].
    intros Heq. apply Hc. assert (j * Grid.width g + 1 = b * Grid.width g + a) by nia.
    assert (j = b) by nia. lia.
Qed.

(** Extra X1. [set] then [get]. On a well-formed grid, [set(i, j, v)]
    returns; afterwards [get(1, j)] is [v], whatever [i] was, and every
    other cell reads as before. *)
Theorem grid_get_after_set (g : Grid.t) (i j a b : Z) (v : option WorldObj) :
  Grid.well_formed g →
  0 ≤ i < Grid.width g → 0 ≤ j < Grid.height g →
  0 ≤ a < Grid.width g → 0 ≤ b < Grid.height g →
  ∃ g', Grid.set g i j v = Ok g' ∧
        Grid.well_formed g' ∧
        Grid.width g' = Grid.width g ∧ Grid.height g' = Grid.height g ∧
        Grid.get g' a b =
          if bool_decide (a = 1 ∧ b = j) then Ok v else Grid.get g a b.
Proof. exact (grid_set_then_get g i j a b v). Qed.

(** A loop over [range(lo, hi)] whose body takes [P x] to [P (x + 1)]
    returns, and takes [P lo] to [P hi]. *)
Lemma for_in_range {S : Type} (P : Z → S → Prop) (lo hi : Z)
    (body : Z → S → result S) (s : S) :
  lo ≤ hi → P lo s →
  (∀ x s, lo ≤ x < hi → P x s → ∃ s', body x s = Ok s' ∧ P (x + 1) s') →
  ∃ s', for_in (range lo hi) body s = Ok s' ∧ P hi s'.
Proof.
  intros Hle. remember (Z.to_nat (hi - lo)) as n eqn:Hn.
  revert lo s Hle Hn. induction n as [|n IH]; intros lo s Hle Hn Hs Hbody.
  - assert (hi = lo) as -> by lia. unfold range.
    rewrite seqZ_nil by lia. simpl. eauto.
  - unfold range. rewrite seqZ_cons by lia. simpl.
    destruct (Hbody lo s) as (s1 & -> & Hs1); [lia | done |]. simpl.
    replace (Z.succ lo) with (lo + 1) by lia.
    replace (Z.pred (hi - lo)) with (hi - (lo + 1)) by lia.
    apply (IH (lo + 1)); [lia | lia | done |].
    intros x s2 Hx. apply Hbody. lia.
Qed.

(** The same loop over [reversed(range(lo, hi))] takes [P hi] to [P lo]. *)
Lemma for_in_range_reversed {S : Type} (P : Z → S → Prop) (lo hi : Z)
    (body : Z → S → result S) (s : S) :
  lo ≤ hi → P hi s →
  (∀ x s, lo ≤ x < hi → P (x + 1) s → ∃ s', body x s = Ok s' ∧ P x s') →
  ∃ s', for_in (reverse (range lo hi)) body s = Ok s' ∧ P lo s'.
Proof.
  intros Hle. remember (Z.to_nat (hi - lo)) as n eqn:Hn.
  revert hi s Hle Hn. induction n as [|n IH]; intros hi s Hle Hn Hs Hbody.
  - assert (hi = lo) as -> by lia. unfold range.
    rewrite seqZ_nil by lia. simpl. eauto.
  - unfold range.
    replace (hi - lo) with ((hi - 1 - lo) + 1) by lia.
    rewrite seqZ_app by lia. rewrite reverse_app.
    replace (lo + (hi - 1 - lo)) with (hi - 1) by lia.
    rewrite seqZ_cons, seqZ_nil by lia. simpl.
    destruct (Hbody (hi - 1) s) as (s1 & -> & Hs1);
      [lia | by replace (hi - 1 + 1) with hi by lia |]. simpl.
    apply (IH (hi - 1)); [lia | lia | done |].
    intros x s2 Hx. apply Hbody. lia.
Qed.

(** The cells of the grid of [rotate_left]. *)
Lemma rotate_left_cells (g : Grid.t) :
  Grid.well_formed g →
  ∃ g', Grid.rotate_left g = Ok g' ∧
        Grid.well_formed g' ∧
        Grid.width g' = Grid.height g ∧ Grid.height g' = Grid.width g ∧
        ∀ a b, 0 ≤ a < Grid.height g → 0 ≤ b < Grid.width g →
          Grid.get g' a b =
            if bool_decide (a = 1 ∧ b = Grid.width g - 2)
            then Grid.get g (Grid.width g - 1) (Grid.height g - 1)
            else Ok None.
Proof.
  intros Hg. pose proof Hg as (Hw & Hh & Hlen). unfold Grid.rotate_left.
  rewrite grid_new_ok by done. cbn [mbind result_bind].
  set (w := Grid.width g) in *. set (h := Grid.height g) in *.
  (* the value written last before the turn [(i, j)] of the two loops *)
  set (written := λ i j : Z,
         if bool_decide (0 < j) then Grid.get g i (j - 1)
         else if bool_decide (0 < i) then Grid.get g (i - 1) (h - 1)
         else Ok None).
  set (Inv := λ (i j : Z) (g' : Grid.t),
         Grid.well_formed g' ∧ Grid.width g' = h ∧ Grid.height g' = w ∧
         ∀ a b, 0 ≤ a < h → 0 ≤ b < w →
           Grid.get g' a b =
             if bool_decide (a = 1 ∧ b = w - 2) then written i j else Ok None).
  destruct (for_in_range (λ i, Inv i 0) 0 w
              (λ i grid, for_in (range 0 h) (λ j grid,
                 v ← Grid.get g i j;
                 Grid.set grid j (Grid.height grid - 1 - 1) v) grid)
              (Grid.mk h w (replicate (Z.to_nat (h * w)) None)))
    as (g' & -> & Hg' & Hw' & Hh' & Hcells); [lia | |  |].
  - split_and!; [by apply grid_new_well_formed | done | done |].
    intros a b Ha Hb.
    rewrite grid_get_in_range by
      (try apply grid_new_well_formed; simpl; lia). simpl.
    rewrite lookup_replicate_2 by nia.
    unfold written. rewrite (bool_decide_eq_false_2 (0 < 0)) by lia.
    by case_bool_decide.
  - intros i g1 Hi Hg1.
    destruct (for_in_range (Inv i) 0 h
                (λ j grid, v ← Grid.get g i j;
                   Grid.set grid j (Grid.height grid - 1 - 1) v) g1)
      as (g2 & -> & Hg2 & Hw2 & Hh2 & Hcells2); [lia | done | |].
    + intros j g2 Hj (Hg2 & Hw2 & Hh2 & Hcells2).
      destruct (grid_get_ok g i j) as [v Hv]; [done | lia | lia |].
      rewrite Hv. cbn [mbind result_bind].
      destruct (grid_set_then_get g2 j (Grid.height g2 - 1 - 1) 0 0 v)
        as (g3 & Hset & Hg3 & Hw3 & Hh3 & _); [done | lia..|].
      exists g3. split; [done|].
      split_and!; [done | congruence | congruence |].
      intros a b Ha Hb.
      destruct (grid_set_then_get g2 j (Grid.height g2 - 1 - 1) a b v)
        as (g3' & Hset' & _ & _ & _ & Hget); [done | lia..|].
      rewrite Hset in Hset'. injection Hset' as <-. rewrite Hget. clear Hget.
      rewrite Hh2. replace (w - 1 - 1) with (w - 2) by lia.
      rewrite Hcells2 by done. case_bool_decide as Hc; [|done].
      unfold written. rewrite (bool_decide_eq_true_2 (0 < j + 1)) by lia.
      by replace (j + 1 - 1) with j by lia.
    + exists g2. split; [done|]. split_and!; try done.
      intros a b Ha Hb. rewrite Hcells2 by done.
      case_bool_decide; [|done]. unfold written.
      rewrite (bool_decide_eq_true_2 (0 < h)) by lia.
      rewrite (bool_decide_eq_false_2 (0 < 0)) by lia.
      rewrite (bool_decide_eq_true_2 (0 < i + 1)) by lia.
      by replace (i + 1 - 1) with i by lia.
  - exists g'. split; [done|]. split_and!; try done.
    intros a b Ha Hb. rewrite Hcells by done.
    case_bool_decide; [|done]. unfold written.
    rewrite (bool_decide_eq_false_2 (0 < 0)) by lia.
    by rewrite (bool_decide_eq_true_2 (0 < w)) by lia.
Qed.

(** Extra X2. What [rotate_left] returns. On a well-formed grid it returns
    a grid with the two sides exchanged in which the cell
    [(1, width - 2)] holds what the source has in its last cell
    [(width - 1, height - 1)], and every other cell is empty. *)
Theorem rotate_left_result (g : Grid.t) :
  Grid.well_formed g →
  ∃ g', Grid.rotate_left g = Ok g' ∧
        Grid.well_formed g' ∧
        Grid.width g' = Grid.height g ∧ Grid.height g' = Grid.width g ∧
        ∀ a b, 0 ≤ a < Grid.height g → 0 ≤ b < Grid.width g →
          Grid.get g' a b =
            if bool_decide (a = 1 ∧ b = Grid.width g - 2)
            then Grid.get g (Grid.width g - 1) (Grid.height g - 1)
            else Ok None.
Proof. exact (rotate_left_cells g). Qed.


(** The cells of the grid of [slice], with line 150 read as
    [range(0, width)]: for a well-formed source and a size of at least
    3 by 3, in row [b] the cell of column 1 holds the source cell
    [(topX + 1, topY + b)], or a wall when that coordinate is outside
    the source, and the cells of the other columns are empty. *)
Lemma slice_cells (g : Grid.t) (topX topY w h : Z) :
  Grid.well_formed g → 3 ≤ w → 3 ≤ h →
  ∃ g', Grid.slice g topX topY w h = Ok g' ∧
        Grid.well_formed g' ∧ Grid.width g' = w ∧ Grid.height g' = h ∧
        ∀ a b, 0 ≤ a < w → 0 ≤ b < h →
          Grid.get g' a b =
            if bool_decide (a = 1) then
              if bool_decide (0 ≤ topX + 1 < Grid.width g ∧
                              0 ≤ topY + b < Grid.height g)
              then Grid.get g (topX + 1) (topY + b)
              else Ok (Some Wall)
            else Ok None.
Proof.
  intros Hg Hw Hh. unfold Grid.slice.
  rewrite grid_new_ok by done. cbn [mbind result_bind].
  set (src := λ b : Z,
         if bool_decide (0 ≤ topX + 1 < Grid.width g ∧
                         0 ≤ topY + b < Grid.height g)
         then Grid.get g (topX + 1) (topY + b)
         else Ok (Some Wall)).
  assert (Hsrc : ∀ j,
    (if bool_decide (topX + 1 >= 0) && bool_decide (topX + 1 < Grid.width g) &&
        bool_decide (topY + j >= 0) && bool_decide (topY + j < Grid.height g)
     then Grid.get g (topX + 1) (topY + j)
     else Ok (Some Wall)) = src j ∧ ∃ v, src j = Ok v).
  { intros j. unfold src.
    destruct (decide (0 ≤ topX + 1 < Grid.width g ∧
                      0 ≤ topY + j < Grid.height g)) as [Hin|Hin].
    - rewrite (bool_decide_eq_true_2 _ Hin).
      rewrite !bool_decide_eq_true_2 by lia. split; [done|].
      apply grid_get_ok; [done | lia | lia].
    - rewrite (bool_decide_eq_false_2 _ Hin).
      split; [|by eexists]. destruct (_ && _) eqn:Hb; [|done].
      repeat (apply andb_prop in Hb as [Hb ?%bool_decide_eq_true]).
      apply bool_decide_eq_true in Hb. lia. }
  set (Inv := λ (j i : Z) (g' : Grid.t),
         Grid.well_formed g' ∧ Grid.width g' = w ∧ Grid.height g' = h ∧
         ∀ a b, 0 ≤ a < w → 0 ≤ b < h →
           Grid.get g' a b =
             if bool_decide (a = 1 ∧ (b < j ∨ (b = j ∧ 0 < i)))
             then src b else Ok None).
  match goal with
  | |- context [for_in (range 0 h) ?body ?g0] =>
      destruct (for_in_range (λ j, Inv j 0) 0 h body g0)
        as (g' & -> & Hg' & Hw' & Hh' & Hcells); [lia | | |]
  end.
  - split_and!; [by apply grid_new_well_formed | done | done |].
    intros a b Ha Hb.
    rewrite grid_get_in_range by
      (try apply grid_new_well_formed; simpl; lia). simpl.
    rewrite lookup_replicate_2 by nia.
    by rewrite bool_decide_eq_false_2 by lia.
  - intros j g1 Hj Hg1.
    match goal with
    | |- context [for_in (range 0 w) ?body g1] =>
        destruct (for_in_range (Inv j) 0 w body g1)
          as (g2 & -> & Hg2 & Hw2 & Hh2 & Hcells2); [lia | done | |]
    end.
    + intros i g2 Hi (Hg2 & Hw2 & Hh2 & Hcells2). cbv zeta.
      destruct (Hsrc j) as [-> [v Hv]]. rewrite Hv. cbn [mbind result_bind].
      destruct (grid_set_then_get g2 i j 0 0 v)
        as (g3 & Hset & Hg3 & Hw3 & Hh3 & _); [done | lia..|].
      exists g3. split; [done|].
      split_and!; [done | congruence | congruence |].
      intros a b Ha Hb.
      destruct (grid_set_then_get g2 i j a b v)
        as (g3' & Hset' & _ & _ & _ & Hget); [done | lia..|].
      rewrite Hset in Hset'. injection Hset' as <-. rewrite Hget. clear Hget.
      rewrite Hcells2 by done. rewrite <- Hv.
      repeat case_bool_decide; try done; try lia.
      all: by (destruct_and?; subst).
    + exists g2. split; [done|]. split_and!; try done.
      intros a b Ha Hb. rewrite Hcells2 by done.
      repeat case_bool_decide; try done; lia.
  - exists g'. split; [done|]. split_and!; try done.
    intros a b Ha Hb. rewrite Hcells by done. fold (src b).
    repeat case_bool_decide; try done; lia.
Qed.


(** Two arrays of one shape with the same cells are the same array. *)
Lemma ndarray_ext {A} (a a' : ndarray A) (d0 d1 : Z) :
  has_shape a d0 d1 → has_shape a' d0 d1 →
  (∀ i j, 0 ≤ i < d0 → 0 ≤ j < d1 → np_get a i j = np_get a' i j) →
  a = a'.
Proof.
  intros Ha Ha' Hcells.
  pose proof Ha as (Hs & H0 & H1 & Hlen).
  pose proof Ha' as (Hs' & _ & _ & Hlen').
  destruct a as [sh l], a' as [sh' l']. simpl in *. subst sh sh'. f_equal.
  apply list_eq_same_length with (Z.to_nat (d0 * d1)); [lia | lia |].
  intros k x y Hk Hx Hy.
  assert (0 < d1) as Hd1 by nia.
  specialize (Hcells (Z.of_nat k `div` d1) (Z.of_nat k `mod` d1)).
  assert (0 ≤ Z.of_nat k `div` d1 < d0) as Hi.
  { split; [apply Z.div_pos; lia|]. apply Z.div_lt_upper_bound; nia. }
  assert (0 ≤ Z.of_nat k `mod` d1 < d1) as Hj by (apply Z.mod_pos_bound; lia).
  rewrite (np_get_in_range _ d0 d1), (np_get_in_range _ d0 d1) in Hcells
    by done. simpl in Hcells.
  replace (Z.to_nat (Z.of_nat k `div` d1) * Z.to_nat d1
           + Z.to_nat (Z.of_nat k `mod` d1))%nat with k in Hcells.
  2: { pose proof (Z.div_mod (Z.of_nat k) d1). nia. }
  rewrite Hx, Hy in Hcells. specialize (Hcells Hi Hj). congruence.
Qed.

(** The cells of the array of [encode]. *)
Lemma encode_cells (g : Grid.t) (vis_mask : option (ndarray bool)) :
  Grid.well_formed g →
  (∀ m, vis_mask = Some m → has_shape m (Grid.width g) (Grid.height g)) →
  ∃ array, Grid.encode g vis_mask = Ok array ∧
    has_shape array (Grid.width g) (Grid.height g) ∧
    ∀ i j v, 0 ≤ i < Grid.width g → 0 ≤ j < Grid.height g →
      Grid.get g i j = Ok v →
      match vis_mask with
      | None => np_get array i j = Ok (Grid.cell_code true v)
      | Some m => ∀ b, np_get m i j = Ok b →
                       np_get array i j = Ok (Grid.cell_code b v)
      end.
Proof.
  intros Hg Hmask. pose proof Hg as (Hw & Hh & Hlen).
  set (w := Grid.width g) in *. set (h := Grid.height g) in *.
  unfold Grid.encode. fold w h.
  (* the mask in use *)
  assert (∃ m, match vis_mask with
               | None => np_full w h true
               | Some m => Ok m
               end = Ok m ∧ has_shape m w h ∧
               ∀ i j, 0 ≤ i < w → 0 ≤ j < h →
                 match vis_mask with
                 | None => np_get m i j = Ok true
                 | Some m' => m = m'
                 end) as (m & -> & Hm & Hbits).
  { destruct vis_mask as [m|].
    - exists m. split_and!; [done | by apply Hmask | done].
    - destruct (np_full_ok w h true) as (m & Hfull & Hm); [lia | lia |].
      exists m. split_and!; [done | done |].
      intros i j Hi Hj. rewrite (np_get_in_range m w h) by done.
      unfold np_full in Hfull. rewrite bool_decide_eq_true_2 in Hfull by lia.
      injection Hfull as <-. simpl. by rewrite lookup_replicate_2 by nia. }
  cbn [mbind result_bind].
  destruct (np_full_ok w h (0, 0, 0)) as (a0 & Ha0eq & Ha0); [lia | lia |].
  rewrite Ha0eq. cbn [mbind result_bind].
  set (code := λ a b : Z,
         mb ← np_get m a b; v ← Grid.get g a b; Ok (Grid.cell_code mb v)).
  set (Inv := λ (i j : Z) (arr : ndarray (Z * Z * Z)),
         has_shape arr w h ∧
         ∀ a b, 0 ≤ a < w → 0 ≤ b < h →
           np_get arr a b =
             if bool_decide (a < i ∨ (a = i ∧ b < j)) then code a b
             else Ok (0, 0, 0)).
  match goal with
  | |- context [for_in (range 0 w) ?body a0] =>
      destruct (for_in_range (λ i, Inv i 0) 0 w body a0)
        as (arr & -> & Harr & Hcells); [lia | | |]
  end.
  - split; [done|]. intros a b Ha Hb.
    rewrite bool_decide_eq_false_2 by lia.
    rewrite (np_get_in_range a0 w h) by done.
    unfold np_full in Ha0eq. rewrite bool_decide_eq_true_2 in Ha0eq by lia.
    injection Ha0eq as <-. simpl. by rewrite lookup_replicate_2 by nia.
  - intros i a1 Hi Ha1.
    match goal with
    | |- context [for_in (range 0 h) ?body a1] =>
        destruct (for_in_range (Inv i) 0 h body a1)
          as (a2 & -> & Ha2 & Hcells2); [lia | done | |]
    end.
    + intros j a2 Hj (Ha2 & Hcells2).
      destruct (np_get_ok m w h i j Hm) as [mb Hmb]; [lia | lia |].
      destruct (grid_get_ok g i j Hg) as [v Hv]; [lia | lia |].
      rewrite Hmb. cbn [mbind result_bind].
      assert (∃ a3, (if mb
                     then v ← Grid.get g i j;
                          match v with
                          | None => np_set a2 i j
                                      (uint8_3 (OBJECT_TO_IDX empty, 0, 0))
                          | Some o => np_set a2 i j (uint8_3 (WorldObj_encode o))
                          end
                     else Ok a2) = Ok a3 ∧ has_shape a3 w h ∧
                ∀ a b, 0 ≤ a < w → 0 ≤ b < h →
                  np_get a3 a b =
                    if bool_decide (a = i ∧ b = j) then Ok (Grid.cell_code mb v)
                    else np_get a2 a b) as (a3 & -> & Ha3 & Hget).
      { destruct mb.
        - rewrite Hv. cbn [mbind result_bind].
          destruct (np_set_ok a2 w h i j (Grid.cell_code true v) Ha2)
            as (a3 & Hset & Ha3 & _); [lia | lia |].
          exists a3. split_and!; [by destruct v | done |].
          intros a b Ha Hb. by apply (np_get_set a2 a3 w h i j).
        - exists a2. split_and!; [done | done |].
          intros a b Ha Hb. case_bool_decide as Hc; [|done].
          destruct Hc as [-> ->]. rewrite Hcells2 by done.
          by rewrite bool_decide_eq_false_2 by lia. }
      eexists. split; [done|]. split; [done|].
      intros a b Ha Hb. rewrite Hget by done.
      case_bool_decide as Hc.
      * destruct Hc as [-> ->]. rewrite bool_decide_eq_true_2 by lia.
        unfold code. by rewrite Hmb, Hv.
      * rewrite Hcells2 by done.
        destruct (decide (a < i ∨ (a = i ∧ b < j))) as [Hd|Hd].
        -- by rewrite !bool_decide_eq_true_2 by lia.
        -- by rewrite !bool_decide_eq_false_2 by lia.
    + exists a2. split; [done|]. split; [done|].
      intros a b Ha Hb. rewrite Hcells2 by done.
      destruct (decide (a < i ∨ (a = i ∧ b < h))) as [Hd|Hd].
      * by rewrite !bool_decide_eq_true_2 by lia.
      * by rewrite !bool_decide_eq_false_2 by lia.
  - exists arr. split_and!; [done | done |].
    intros i j v Hi Hj Hv.
    assert (np_get arr i j = code i j) as Hcode.
    { rewrite Hcells by done. by rewrite bool_decide_eq_true_2 by lia. }
    unfold code in Hcode. rewrite Hv in Hcode.
    specialize (Hbits i j Hi Hj). destruct vis_mask as [m'|].
    + subst m'. intros b Hb. by rewrite Hb in Hcode.
    + by rewrite Hbits in Hcode.
Qed.

(** Extra X4. What [encode] returns. For a well-formed grid and a mask of
    its shape, the array has the shape of the grid, and its cell
    [(i, j)] is [(0, 0, 0)] where the mask bit is off, [(1, 0, 0)] where
    a visible cell is empty, and the triple of the object, brought into
    the range of a byte, where a visible cell holds one. Without a mask
    every cell is visible. *)
Theorem encode_result (g : Grid.t) (vis_mask : option (ndarray bool)) :
  Grid.well_formed g →
  (∀ m, vis_mask = Some m → has_shape m (Grid.width g) (Grid.height g)) →
  ∃ array, Grid.encode g vis_mask = Ok array ∧
    has_shape array (Grid.width g) (Grid.height g) ∧
    ∀ i j v, 0 ≤ i < Grid.width g → 0 ≤ j < Grid.height g →
      Grid.get g i j = Ok v →
      match vis_mask with
      | None => np_get array i j = Ok (Grid.cell_code true v)
      | Some m => ∀ b, np_get m i j = Ok b →
                       np_get array i j = Ok (Grid.cell_code b v)
      end.
Proof. exact (encode_cells g vis_mask). Qed.


(** The grid and the mask of [decode]. *)
Lemma decode_cells (array : ndarray (Z * Z * Z)) (w h : Z) :
  has_shape array w h → 3 ≤ w → 3 ≤ h →
  (∀ i j t c s, 0 ≤ i < w → 0 ≤ j < h → np_get array i j = Ok (t, c, s) →
     ∃ v, WorldObj_decode t c s = Ok v) →
  ∃ grid vis_mask,
    Grid.decode array = Ok (grid, vis_mask) ∧
    Grid.well_formed grid ∧ Grid.width grid = w ∧ Grid.height grid = h ∧
    has_shape vis_mask w h ∧
    ∀ i j t c s, 0 ≤ i < w → 0 ≤ j < h → np_get array i j = Ok (t, c, s) →
      np_get vis_mask i j = Ok (negb (bool_decide (t = 0))).
Proof.
  intros Harr Hw Hh Hdec. pose proof Harr as (Hs & _).
  unfold Grid.decode. rewrite Hs.
  destruct (np_full_ok w h true) as (m0 & Hm0eq & Hm0); [lia | lia |].
  rewrite Hm0eq. cbn [mbind result_bind].
  rewrite grid_new_ok by done. cbn [mbind result_bind].
  set (bit := λ a b : Z,
         '(t, _, _) ← np_get array a b; Ok (negb (bool_decide (t = 0)))).
  set (Inv := λ (i j : Z) (st : Grid.t * ndarray bool),
         Grid.well_formed st.1 ∧ Grid.width st.1 = w ∧ Grid.height st.1 = h ∧
         has_shape st.2 w h ∧
         ∀ a b, 0 ≤ a < w → 0 ≤ b < h →
           np_get st.2 a b =
             if bool_decide (a < i ∨ (a = i ∧ b < j)) then bit a b
             else Ok true).
  match goal with
  | |- context [for_in (range 0 w) ?body ?st0] =>
      destruct (for_in_range (λ i, Inv i 0) 0 w body st0)
        as ([g' m'] & -> & Hg' & Hw' & Hh' & Hm' & Hcells); [lia | | |]
  end.
  - split_and!; [by apply grid_new_well_formed | done..|].
    intros a b Ha Hb. simpl.
    rewrite bool_decide_eq_false_2 by lia.
    rewrite (np_get_in_range m0 w h) by done.
    unfold np_full in Hm0eq. rewrite bool_decide_eq_true_2 in Hm0eq by lia.
    injection Hm0eq as <-. simpl. by rewrite lookup_replicate_2 by nia.
  - intros i st1 Hi Hst1.
    match goal with
    | |- context [for_in (range 0 h) ?body st1] =>
        destruct (for_in_range (Inv i) 0 h body st1)
          as (st2 & -> & Hg2 & Hw2 & Hh2 & Hm2 & Hcells2); [lia | done | |]
    end.
    + intros j [g2 m2] Hj (Hg2 & Hw2 & Hh2 & Hm2 & Hcells2). simpl in *.
      destruct (np_get_ok array w h i j Harr) as [[[t c] s'] Hcell];
        [lia | lia |].
      rewrite Hcell. cbn [mbind result_bind].
      destruct (Hdec i j t c s') as [v ->]; [lia | lia | done |].
      cbn [mbind result_bind].
      destruct (grid_set_ok g2 i j v) as (g3 & -> & Hg3 & Hw3 & Hh3);
        [done | lia | lia |]. cbn [mbind result_bind].
      destruct (np_set_ok m2 w h i j (negb (bool_decide (t = 0))) Hm2)
        as (m3 & Hset & Hm3 & _); [lia | lia |].
      unfold OBJECT_TO_IDX. rewrite Hset. cbn [mbind result_bind].
      eexists. split; [done|]. unfold Inv. simpl.
      split; [done|]. split; [congruence|]. split; [congruence|].
      split; [done|].
      intros a b Ha Hb.
      rewrite (np_get_set m2 m3 w h i j a b _ Hm2) by (done || lia).
      destruct (decide (a = i ∧ b = j)) as [Hc|Hc].
      * rewrite (bool_decide_eq_true_2 _ Hc). destruct Hc as [-> ->].
        rewrite (bool_decide_eq_true_2 (i < i ∨ i = i ∧ j < j + 1)) by lia.
        unfold bit. by rewrite Hcell.
      * rewrite (bool_decide_eq_false_2 _ Hc). rewrite Hcells2 by done.
        destruct (decide (a < i ∨ (a = i ∧ b < j))) as [Hd|Hd].
        -- rewrite (bool_decide_eq_true_2 _ Hd).
           by rewrite (bool_decide_eq_true_2 (a < i ∨ a = i ∧ b < j + 1))
             by lia.
        -- rewrite (bool_decide_eq_false_2 _ Hd).
           by rewrite (bool_decide_eq_false_2 (a < i ∨ a = i ∧ b < j + 1))
             by lia.
    + exists st2. split; [done|]. split_and!; try done.
      intros a b Ha Hb. rewrite Hcells2 by done.
      destruct (decide (a < i ∨ (a = i ∧ b < h))) as [Hd|Hd].
      * rewrite (bool_decide_eq_true_2 _ Hd).
        by rewrite (bool_decide_eq_true_2 (a < i + 1 ∨ a = i + 1 ∧ b < 0))
          by lia.
      * rewrite (bool_decide_eq_false_2 _ Hd).
        by rewrite (bool_decide_eq_false_2 (a < i + 1 ∨ a = i + 1 ∧ b < 0))
          by lia.
  - exists g', m'. simpl in *. split_and!; try done.
    intros i j t c s' Hi Hj Hcell. rewrite Hcells by done.
    rewrite (bool_decide_eq_true_2 (i < w ∨ i = w ∧ j < 0)) by lia.
    unfold bit. by rewrite Hcell.
Qed.

(** Extra X5. What [decode] returns. For an array of a shape of at least 3
    by 3 on whose cells the object decoder returns, [decode] returns a
    grid of that shape and a mask of that shape whose bit [(i, j)] is on
    exactly when the type index of the cell is not 0, the index of
    [unseen]. *)
Theorem decode_mask (array : ndarray (Z * Z * Z)) (w h : Z) :
  has_shape array w h → 3 ≤ w → 3 ≤ h →
  (∀ i j t c s, 0 ≤ i < w → 0 ≤ j < h → np_get array i j = Ok (t, c, s) →
     ∃ v, WorldObj_decode t c s = Ok v) →
  ∃ grid vis_mask,
    Grid.decode array = Ok (grid, vis_mask) ∧
    Grid.well_formed grid ∧ Grid.width grid = w ∧ Grid.height grid = h ∧
    has_shape vis_mask w h ∧
    ∀ i j t c s, 0 ≤ i < w → 0 ≤ j < h → np_get array i j = Ok (t, c, s) →
      np_get vis_mask i j = Ok (negb (bool_decide (t = 0))).
Proof. exact (decode_cells array w h). Qed.


(** Extra X6. The mask survives the round trip. When each object of the
    grid has a type index that is not 0 as a byte and a triple that the
    object decoder accepts, and the decoder accepts the triples of the
    empty and of the unseen cell, then [decode(encode(M))] returns a grid
    of the same size and the mask [M] itself. *)
Theorem decode_encode_mask (g : Grid.t) (M : ndarray bool) :
  Grid.well_formed g →
  has_shape M (Grid.width g) (Grid.height g) →
  (∀ i j o, Grid.get g i j = Ok (Some o) →
     (uint8_3 (WorldObj_encode o)).1.1 ≠ 0 ∧
     ∃ v, WorldObj_decode (uint8_3 (WorldObj_encode o)).1.1
            (uint8_3 (WorldObj_encode o)).1.2
            (uint8_3 (WorldObj_encode o)).2 = Ok v) →
  (∃ v, WorldObj_decode 1 0 0 = Ok v) →
  (∃ v, WorldObj_decode 0 0 0 = Ok v) →
  ∃ array G' M',
    Grid.encode g (Some M) = Ok array ∧
    Grid.decode array = Ok (G', M') ∧
    M' = M ∧
    Grid.width G' = Grid.width g ∧ Grid.height G' = Grid.height g.
Proof.
  intros Hg HM Hobj Hempty Hunseen. pose proof Hg as (Hw & Hh & _).
  destruct (encode_cells g (Some M) Hg) as (array & Henc & Harr & Hcells).
  { by intros m [= <-]. }
  assert (Hcode : ∀ i j, 0 ≤ i < Grid.width g → 0 ≤ j < Grid.height g →
            ∃ b v, np_get M i j = Ok b ∧ Grid.get g i j = Ok v ∧
                   np_get array i j = Ok (Grid.cell_code b v)).
  { intros i j Hi Hj.
    destruct (np_get_ok M _ _ i j HM Hi Hj) as [b Hb].
    destruct (grid_get_ok g i j Hg Hi Hj) as [v Hv].
    exists b, v. split_and!; [done | done |]. by apply Hcells. }
  destruct (decode_cells array (Grid.width g) (Grid.height g) Harr Hw Hh)
    as (G' & M' & Hdec & HG' & Hw' & Hh' & HM' & Hbits).
  { intros i j t c s' Hi Hj Hcell.
    destruct (Hcode i j Hi Hj) as (b & v & _ & Hv & Hc).
    rewrite Hc in Hcell. injection Hcell as Hcell.
    destruct b; [destruct v as [o|]|]; simpl in Hcell.
    - destruct (Hobj i j o Hv) as [_ [v' Hv']]. exists v'.
      by rewrite Hcell in Hv'.
    - injection Hcell as <- <- <-. done.
    - injection Hcell as <- <- <-. done. }
  exists array, G', M'. split_and!; try done.
  apply (ndarray_ext M' M (Grid.width g) (Grid.height g)); [done | done |].
  intros i j Hi Hj.
  destruct (Hcode i j Hi Hj) as (b & v & Hb & Hv & Hc).
  destruct (Grid.cell_code b v) as [[t c] s'] eqn:Hcv.
  rewrite (Hbits i j t c s' Hi Hj Hc), Hb. f_equal.
  destruct b; [destruct v as [o|]|]; simpl in Hcv.
  - destruct (Hobj i j o Hv) as [Hne _]. rewrite Hcv in Hne. simpl in Hne.
    by rewrite bool_decide_eq_false_2.
  - by injection Hcv as <- <- <-.
  - by injection Hcv as <- <- <-.
Qed.

(** Extra X7. What grid equality compares. For two well-formed grids [==]
    and [!=] return, one the negation of the other, and [==] is true
    exactly when the sizes agree and each cell has the same triple in
    the two mask-less encodings. *)
Theorem grid_eq_cells (g1 g2 : Grid.t) :
  Grid.well_formed g1 → Grid.well_formed g2 →
  ∃ b, Grid.eq g1 g2 = Ok b ∧ Grid.ne g1 g2 = Ok (negb b) ∧
       (b = true ↔
        Grid.width g1 = Grid.width g2 ∧ Grid.height g1 = Grid.height g2 ∧
        ∀ i j v1 v2, 0 ≤ i < Grid.width g1 → 0 ≤ j < Grid.height g1 →
          Grid.get g1 i j = Ok v1 → Grid.get g2 i j = Ok v2 →
          Grid.cell_code true v1 = Grid.cell_code true v2).
Proof.
  intros Hg1 Hg2.
  destruct (encode_cells g1 None Hg1) as (a1 & Henc1 & Ha1 & Hc1); [done|].
  destruct (encode_cells g2 None Hg2) as (a2 & Henc2 & Ha2 & Hc2); [done|].
  exists (bool_decide (a2 = a1)).
  unfold Grid.ne, Grid.eq. rewrite Henc1, Henc2. simpl.
  split_and!; [done | done |].
  rewrite bool_decide_eq_true. split.
  - intros ->. destruct Ha1 as (Hs1 & _), Ha2 as (Hs2 & _).
    rewrite Hs1 in Hs2. injection Hs2 as Hw Hh.
    split_and!; [done | done |].
    intros i j v1 v2 Hi Hj Hv1 Hv2.
    pose proof (Hc1 i j v1 Hi Hj Hv1) as E1.
    pose proof (Hc2 i j v2) as E2. rewrite <- Hw, <- Hh in E2.
    specialize (E2 Hi Hj Hv2). simpl in E1, E2. congruence.
  - intros (Hw & Hh & Hcells). rewrite <- Hw, <- Hh in Ha2.
    apply (ndarray_ext a2 a1 _ _ Ha2 Ha1). intros i j Hi Hj.
    destruct (grid_get_ok g1 i j Hg1 Hi Hj) as [v1 Hv1].
    destruct (grid_get_ok g2 i j Hg2) as [v2 Hv2]; [lia | lia |].
    pose proof (Hc1 i j v1 Hi Hj Hv1) as E1.
    pose proof (Hc2 i j v2) as E2. rewrite <- Hw, <- Hh in E2.
    specialize (E2 Hi Hj Hv2). simpl in E1, E2. rewrite E1, E2.
    f_equal. symmetry. by eapply Hcells.
Qed.

End GridMore.

Section GridMore2.
Context `{ObjectLibrary}.

(** Extra X8. A new grid. For sides of at least 3 the constructor returns a
    well-formed grid of those sides in which every cell reads [None]. *)
Theorem grid_new_cells (w h : Z) :
  3 ≤ w → 3 ≤ h →
  ∃ g, Grid.new w h = Ok g ∧ Grid.well_formed g ∧
       Grid.width g = w ∧ Grid.height g = h ∧
       ∀ i j, 0 ≤ i < w → 0 ≤ j < h → Grid.get g i j = Ok None.
Proof.
  intros Hw Hh. rewrite grid_new_ok by done. eexists. split; [done|].
  pose proof (grid_new_well_formed w h Hw Hh) as Hg.
  split_and!; [done..|]. intros i j Hi Hj.
  rewrite grid_get_in_range by done. simpl.
  by rewrite lookup_replicate_2 by nia.
Qed.

(** Extra X9. [in] for a [(color, type)] key. On a well-formed grid the
    test is true exactly when some cell holds an object of that type
    whose colour is the colour of the key, or of any colour when the
    key has [None] for the colour. *)
Theorem contains_cells (g : Grid.t) (c : option Color) (ty : ObjType) :
  Grid.well_formed g →
  Grid.contains g (c, ty) = true ↔
  ∃ i j o, 0 ≤ i < Grid.width g ∧ 0 ≤ j < Grid.height g ∧
           Grid.get g i j = Ok (Some o) ∧ type o = ty ∧
           (c = None ∨ c = Some (color o)).
Proof.
  intros Hg. pose proof Hg as (Hw & Hh & Hlen).
  unfold Grid.contains. rewrite existsb_exists. split.
  - intros ([o|] & Hin & Hkey); [|done].
    apply list_elem_of_In, list_elem_of_lookup in Hin as [k Hk].
    pose proof (lookup_lt_Some _ _ _ Hk) as Hlt.
    set (w := Grid.width g) in *.
    exists (Z.of_nat k `mod` w), (Z.of_nat k `div` w), o.
    assert (0 ≤ Z.of_nat k `mod` w < w) as Hi by (apply Z.mod_pos_bound; lia).
    assert (0 ≤ Z.of_nat k `div` w < Grid.height g) as Hj.
    { split; [apply Z.div_pos; lia|]. apply Z.div_lt_upper_bound; nia. }
    split_and!; [lia.. | |  |].
    + rewrite grid_get_in_range by done. fold w.
      replace (Z.to_nat (Z.of_nat k `div` w * w + Z.of_nat k `mod` w)) with k.
      2: { pose proof (Z.div_mod (Z.of_nat k) w). nia. }
      by rewrite Hk.
    + simpl in Hkey. apply orb_prop in Hkey as [Hkey|Hkey].
      * apply bool_decide_eq_true in Hkey. by injection Hkey.
      * apply andb_prop in Hkey as [_ Hkey].
        by apply bool_decide_eq_true in Hkey.
    + simpl in Hkey. apply orb_prop in Hkey as [Hkey|Hkey].
      * apply bool_decide_eq_true in Hkey. right. by injection Hkey.
      * apply andb_prop in Hkey as [Hkey _].
        left. by apply bool_decide_eq_true in Hkey.
  - intros (i & j & o & Hi & Hj & Hget & Hty & Hc).
    rewrite grid_get_in_range in Hget by done.
    destruct (Grid.grid g !! _) as [v|] eqn:Hv; [|done].
    injection Hget as ->. exists (Some o). split.
    + apply list_elem_of_In, list_elem_of_lookup. eauto.
    + simpl. destruct Hc as [-> | ->].
      * rewrite (bool_decide_eq_true_2 (None = None)) by done.
        rewrite (bool_decide_eq_true_2 (ty = type o)) by done.
        simpl. by rewrite ?orb_true_r.
      * rewrite Hty. by rewrite bool_decide_eq_true_2.
Qed.

End GridMore2.

(** * The visibility mask *)

Section Vis.
Context `{ObjectLibrary}.
Variables (grid : Grid.t) (ox oy : Z).
Hypothesis grid_wf : Grid.well_formed grid.
Hypothesis origin_x : 0 ≤ ox < Grid.width grid.
Hypothesis origin_y : 0 ≤ oy < Grid.height grid.

#[local] Abbreviation w := (Grid.width grid).
#[local] Abbreviation h := (Grid.height grid).
#[local] Abbreviation grows := (Grid.mask_grows grid oy).
#[local] Abbreviation behind_dark := (Grid.behind_dark grid oy).
#[local] Abbreviation see_through := (Grid.see_through grid).

Lemma grows_refl m : has_shape m w h → grows m m.
Proof. intros Hm. split_and!; done. Qed.

Lemma grows_trans m1 m2 m3 : grows m1 m2 → grows m2 m3 → grows m1 m3.
Proof.
  intros (H1 & K1 & B1) (H2 & K2 & B2). split_and!; [done | eauto | eauto].
Qed.

Lemma np_set_true_grows (m : ndarray bool) (i j : Z) :
  has_shape m w h → 0 ≤ i < w → 0 ≤ j ≤ oy →
  ∃ m', np_set m i j true = Ok m' ∧ grows m m' ∧ np_get m' i j = Ok true.
Proof.
  intros Hm Hi Hj.
  destruct (np_set_ok m w h i j true Hm) as (m' & Hset & Hm' & Hget & Hkeep);
    [lia | lia |].
  exists m'. split_and!; [done | | done].
  split_and!; [done | done |].
  intros Hbehind a b Ha Hb.
  rewrite (np_get_set m m' w h i j a b true) by (done || lia).
  rewrite bool_decide_eq_false_2 by lia. by apply Hbehind.
Qed.

(** One turn of a sweep. *)
Lemma vis_spread_grows (j d i : Z) (m : ndarray bool) :
  has_shape m w h →
  (∀ a b, 0 ≤ a < w → oy < b < h → np_get m a b = Ok false) →
  0 ≤ j < h → 0 ≤ i < w → 0 ≤ i + d < w →
  ∃ m', Grid.vis_spread grid j d i m = Ok m' ∧ grows m m' ∧
        ∀ cell, np_get m i j = Ok true → Grid.get grid i j = Ok cell →
                Grid.opaque cell = false →
                np_get m' (i + d) j = Ok true ∧
                (0 < j → np_get m' (i + d) (j - 1) = Ok true ∧
                         np_get m' i (j - 1) = Ok true).
Proof.
  intros Hm Hbehind Hj Hi Hid. unfold Grid.vis_spread.
  destruct (np_get_ok m w h i j Hm Hi Hj) as [b Hb]. rewrite Hb.
  cbn [mbind result_bind].
  destruct b; simpl.
  2: { exists m. split_and!; [done | by apply grows_refl |]. intros; congruence. }
  assert (j ≤ oy) as Hjo.
  { destruct (decide (j ≤ oy)); [done|].
    rewrite Hbehind in Hb by lia. congruence. }
  destruct (grid_get_ok grid i j grid_wf Hi Hj) as [cell Hcell].
  rewrite Hcell. cbn [mbind result_bind].
  destruct (Grid.opaque cell) eqn:Hop.
  { exists m. split_and!; [done | by apply grows_refl |]. intros; congruence. }
  destruct (np_set_true_grows m (i + d) j Hm) as (m1 & -> & G1 & T1);
    [lia | lia |].
  cbn [mbind result_bind]. case_bool_decide as Hj0.
  - destruct (np_set_true_grows m1 (i + d) (j - 1) (proj1 G1))
      as (m2 & -> & G2 & T2); [lia | lia |].
    cbn [mbind result_bind].
    destruct (np_set_true_grows m2 i (j - 1) (proj1 G2))
      as (m3 & -> & G3 & T3); [lia | lia |].
    exists m3. split_and!; [done | eauto using grows_trans |].
    intros _ _ _ _. split; [by apply G3, G2|].
    intros _. split; [by apply G3 | done].
  - exists m1. split_and!; [done | done |].
    intros _ _ _ _. split; [done | lia].
Qed.


Lemma grows_dark m m' : grows m m' → behind_dark m → behind_dark m'.
Proof. intros (_ & _ & Hd). exact Hd. Qed.

(** The first sweep of a row: from a visible cell in column [c] the
    row becomes visible up to its last column. *)
Lemma sweep_right (j c : Z) (m : ndarray bool) :
  has_shape m w h → behind_dark m → 0 ≤ j < h → 0 ≤ c < w →
  ∃ m', for_in (range 0 (w - 1)) (Grid.vis_spread grid j 1) m = Ok m' ∧
        grows m m' ∧
        (see_through → np_get m c j = Ok true →
         ∀ a, c ≤ a < w → np_get m' a j = Ok true).
Proof.
  intros Hm Hdark Hj Hc. pose proof grid_wf as (Hw & Hh & _).
  destruct (for_in_range
    (λ i m', grows m m' ∧
       (see_through → np_get m c j = Ok true →
        ∀ a, c ≤ a ≤ Z.max c i → a < w → np_get m' a j = Ok true))
    0 (w - 1) (Grid.vis_spread grid j 1) m) as (m' & -> & G & Hrow);
    [lia | | |].
  - split; [by apply grows_refl|]. intros _ Hcj a Ha _.
    by replace a with c by lia.
  - intros i m1 Hi (G1 & Hrow1).
    destruct (vis_spread_grows j 1 i m1 (proj1 G1)) as (m2 & -> & G2 & Hstep);
      [by eapply grows_dark | lia..|].
    exists m2. split; [done|]. split; [by eapply grows_trans|].
    intros Hst Hcj a Ha Haw.
    destruct (decide (a ≤ Z.max c i)) as [Hle|Hgt].
    + apply G2. apply Hrow1; [done | done | lia | done].
    + assert (a = i + 1) as -> by lia.
      destruct (grid_get_ok grid i j grid_wf) as [cell Hcell]; [lia | lia |].
      eapply Hstep; [|done|by eapply Hst]. apply Hrow1; [done | done | lia | lia].
  - exists m'. split_and!; [done | done |].
    intros Hst Hcj a Ha. apply Hrow; [done..|lia|lia].
Qed.

(** The second sweep of a row that is visible from column [c] on: the
    whole row becomes visible, and above row 0 the whole row in front. *)
Lemma sweep_left (j c : Z) (m : ndarray bool) :
  has_shape m w h → behind_dark m → 0 ≤ j < h → 0 ≤ c < w →
  ∃ m', for_in (reverse (range 1 w)) (Grid.vis_spread grid j (-1)) m = Ok m' ∧
        grows m m' ∧
        (see_through → (∀ a, c ≤ a < w → np_get m a j = Ok true) →
         (∀ a, 0 ≤ a < w → np_get m' a j = Ok true) ∧
         (0 < j → ∀ a, 0 ≤ a < w → np_get m' a (j - 1) = Ok true)).
Proof.
  intros Hm Hdark Hj Hc. pose proof grid_wf as (Hw & Hh & _).
  destruct (for_in_range_reversed
    (λ x m', grows m m' ∧
       (see_through → (∀ a, c ≤ a < w → np_get m a j = Ok true) →
        (∀ a, Z.min c (x - 1) ≤ a < w → 0 ≤ a → np_get m' a j = Ok true) ∧
        (0 < j → ∀ a, x - 1 ≤ a < w → x ≤ w - 1 →
                 np_get m' a (j - 1) = Ok true)))
    1 w (Grid.vis_spread grid j (-1)) m) as (m' & -> & G & Hrows);
    [lia | | |].
  - split; [by apply grows_refl|]. intros _ Hrow. split.
    + intros a Ha _. apply Hrow. lia.
    + intros _ a Ha Hx. lia.
  - intros x m1 Hx (G1 & Hrows1).
    destruct (vis_spread_grows j (-1) x m1 (proj1 G1)) as (m2 & -> & G2 & Hstep);
      [by eapply grows_dark | lia..|].
    exists m2. split; [done|]. split; [by eapply grows_trans|].
    intros Hst Hrow. destruct (Hrows1 Hst Hrow) as [Hj1 Hf1].
    destruct (grid_get_ok grid x j grid_wf) as [cell Hcell]; [lia | lia |].
    destruct (Hstep cell) as [Hs1 Hs2]; [apply Hj1; lia | done | by eapply Hst |].
    replace (x + -1) with (x - 1) in * by lia.
    split.
    + intros a Ha Ha0.
      destruct (decide (Z.min c (x + 1 - 1) ≤ a)) as [Hle|Hgt].
      * apply G2. apply Hj1; lia.
      * by replace a with (x - 1) by lia.
    + intros Hj0 a Ha Hxw. destruct (Hs2 Hj0) as [Hd Hu].
      destruct (decide (a = x - 1)) as [->|Hne1]; [done|].
      destruct (decide (a = x)) as [->|Hne2]; [done|].
      apply G2. apply Hf1; [done | lia | lia].
  - exists m'. split_and!; [done | done |].
    intros Hst Hrow. destruct (Hrows Hst Hrow) as [Hj1 Hf1]. split.
    + intros a Ha. apply Hj1; lia.
    + intros Hj0 a Ha. apply Hf1; [done | lia | lia].
Qed.

(** The two sweeps of row [j]. *)
Lemma sweep_row (j c : Z) (m : ndarray bool) :
  has_shape m w h → behind_dark m → 0 ≤ j < h → 0 ≤ c < w →
  ∃ m', (mask ← for_in (range 0 (w - 1)) (Grid.vis_spread grid j 1) m;
         for_in (reverse (range 1 w)) (Grid.vis_spread grid j (-1)) mask)
        = Ok m' ∧
        grows m m' ∧
        (see_through → np_get m c j = Ok true →
         (∀ a, 0 ≤ a < w → np_get m' a j = Ok true) ∧
         (0 < j → ∀ a, 0 ≤ a < w → np_get m' a (j - 1) = Ok true)).
Proof.
  intros Hm Hdark Hj Hc.
  destruct (sweep_right j c m Hm Hdark Hj Hc) as (m1 & -> & G1 & Hr).
  cbn [mbind result_bind].
  destruct (sweep_left j c m1 (proj1 G1)) as (m2 & -> & G2 & Hl);
    [by eapply grows_dark | done..|].
  exists m2. split_and!; [done | by eapply grows_trans |].
  intros Hst Hcj. apply Hl; [done|]. by apply Hr.
Qed.


(** The mask that the two nested loops of [process_vis] compute. *)
Lemma vis_mask_computed :
  ∃ mask,
    (mask ← np_full w h false;
     mask ← np_set mask ox oy true;
     for_in (reverse (range 0 h)) (λ j mask,
       mask ← for_in (range 0 (w - 1)) (Grid.vis_spread grid j 1) mask;
       for_in (reverse (range 1 w)) (Grid.vis_spread grid j (-1)) mask) mask)
    = Ok mask ∧
    has_shape mask w h ∧
    np_get mask ox oy = Ok true ∧
    behind_dark mask ∧
    (see_through →
     ∀ a b, 0 ≤ a < w → 0 ≤ b ≤ oy → np_get mask a b = Ok true).
Proof.
  pose proof grid_wf as (Hw & Hh & _).
  destruct (np_full_ok w h false) as (m0 & Hfull & Hm0); [lia | lia |].
  rewrite Hfull. cbn [mbind result_bind].
  assert (Hdark0 : behind_dark m0).
  { intros a b Ha Hb. rewrite (np_get_in_range m0 w h) by (done || lia).
    unfold np_full in Hfull. rewrite bool_decide_eq_true_2 in Hfull by lia.
    injection Hfull as <-. simpl. by rewrite lookup_replicate_2 by nia. }
  destruct (np_set_true_grows m0 ox oy Hm0) as (m1 & -> & G1 & Ho);
    [lia | lia |].
  cbn [mbind result_bind].
  pose proof (grows_dark _ _ G1 Hdark0) as Hdark1.
  destruct (for_in_range_reversed
    (λ x m', grows m1 m' ∧
       (see_through → x ≤ oy →
        ∀ a b, 0 ≤ a < w → Z.max (x - 1) 0 ≤ b ≤ oy →
               np_get m' a b = Ok true))
    0 h
    (λ j mask,
       mask ← for_in (range 0 (w - 1)) (Grid.vis_spread grid j 1) mask;
       for_in (reverse (range 1 w)) (Grid.vis_spread grid j (-1)) mask)
    m1) as (m' & -> & G & Hvis); [lia | | |].
  - split; [by apply grows_refl, G1 | intros; lia].
  - intros x m2 Hx (G2 & Hvis2).
    pose proof (grows_dark _ _ G2 Hdark1) as Hdark2.
    (* a visible cell of row [x], when the row is in front of the agent *)
    set (c := if bool_decide (x = oy) then ox else 0).
    destruct (sweep_row x c m2 (proj1 G2) Hdark2) as (m3 & -> & G3 & Hrow);
      [lia | by unfold c; case_bool_decide; lia |].
    exists m3. split; [done|]. split; [by eapply grows_trans|].
    intros Hst Hxo a b Ha Hb.
    assert (np_get m2 c x = Ok true) as Hcx.
    { unfold c. case_bool_decide as Hxoy.
      - subst x. by apply G2.
      - apply Hvis2; [done | lia | lia | lia]. }
    destruct (Hrow Hst Hcx) as [Hrx Hrf].
    destruct (decide (b = x)) as [->|Hbx]; [by apply Hrx|].
    destruct (decide (b = x - 1)) as [->|Hbx1]; [apply Hrf; [lia | done]|].
    apply G3. apply Hvis2; [done | lia | done | lia].
  - exists m'. split_and!; [done | apply G | by apply G | | ].
    + by eapply grows_dark.
    + intros Hst a b Ha Hb. apply Hvis; [done | lia | done | lia].
Qed.

End Vis.

Section VisTheorems.
Context `{ObjectLibrary}.

(** The last loop of [process_vis], which empties cells through [set]. *)
Lemma vis_erase (grid : Grid.t) (mask : ndarray bool) :
  Grid.well_formed grid →
  has_shape mask (Grid.width grid) (Grid.height grid) →
  ∃ grid',
    for_in (range 0 (Grid.height grid)) (λ j grid,
      for_in (range 0 (Grid.width grid)) (λ i grid,
        b ← np_get mask i j;
        if negb b then Grid.set grid i j None else Ok grid) grid) grid
    = Ok grid' ∧
    Grid.well_formed grid' ∧
    Grid.width grid' = Grid.width grid ∧
    Grid.height grid' = Grid.height grid ∧
    ∀ a b, 0 ≤ a < Grid.width grid → 0 ≤ b < Grid.height grid →
      ((a = 1 ∧ ∃ i, 0 ≤ i < Grid.width grid ∧ np_get mask i b = Ok false) →
       Grid.get grid' a b = Ok None) ∧
      (¬ (a = 1 ∧ ∃ i, 0 ≤ i < Grid.width grid ∧ np_get mask i b = Ok false) →
       Grid.get grid' a b = Grid.get grid a b).
Proof.
  intros Hg Hm. pose proof Hg as (Hw & Hh & _).
  set (w := Grid.width grid) in *. set (h := Grid.height grid) in *.
  set (erased := λ (j i a b : Z),
         a = 1 ∧ ∃ i', 0 ≤ i' < w ∧ np_get mask i' b = Ok false ∧
                       (b < j ∨ (b = j ∧ i' < i))).
  set (Inv := λ (j i : Z) (g' : Grid.t),
         Grid.well_formed g' ∧ Grid.width g' = w ∧ Grid.height g' = h ∧
         ∀ a b, 0 ≤ a < w → 0 ≤ b < h →
           (erased j i a b → Grid.get g' a b = Ok None) ∧
           (¬ erased j i a b → Grid.get g' a b = Grid.get grid a b)).
  match goal with
  | |- context [for_in (range 0 h) ?body grid] =>
      destruct (for_in_range (λ j, Inv j 0) 0 h body grid)
        as (g' & -> & Hg' & Hw' & Hh' & Hcells); [lia | | |]
  end.
  - split_and!; [done..|]. intros a b Ha Hb. split; [|done].
    intros (_ & i' & Hi' & _ & Hlt). lia.
  - intros j g1 Hj Hg1. cbv beta.
    replace (Grid.width g1) with w by (symmetry; apply Hg1).
    match goal with
    | |- context [for_in (range 0 w) ?body g1] =>
        destruct (for_in_range (Inv j) 0 w body g1)
          as (g2 & -> & Hg2 & Hw2 & Hh2 & Hcells2); [lia | done | |]
    end.
    + intros i g2 Hi (Hg2 & Hw2 & Hh2 & Hcells2).
      destruct (np_get_ok mask w h i j Hm) as [bit Hbit]; [lia | lia |].
      rewrite Hbit. cbn [mbind result_bind]. destruct bit; simpl.
      * exists g2. split; [done|]. split_and!; [done..|].
        intros a b Ha Hb. destruct (Hcells2 a b Ha Hb) as [He Hk]. split.
        -- intros (Ha1 & i' & Hi' & Hf & Hlt). apply He.
           split; [done|]. exists i'. split; [done|]. split; [done|].
           destruct (decide (b = j ∧ i' = i)) as [[-> ->]|]; [congruence | lia].
        -- intros Hn. apply Hk. intros (Ha1 & i' & Hi' & Hf & Hlt). apply Hn.
           split; [done|]. exists i'. split; [done|]. split; [done | lia].
      * destruct (grid_set_then_get g2 i j 0 0 None)
          as (g3 & Hset & Hg3 & Hw3 & Hh3 & _); [done | lia..|].
        exists g3. split; [done|].
        split_and!; [done | congruence | congruence |].
        intros a b Ha Hb.
        destruct (grid_set_then_get g2 i j a b None)
          as (g3' & Hset' & _ & _ & _ & Hget); [done | lia..|].
        rewrite Hset in Hset'. injection Hset' as <-. rewrite Hget. clear Hget.
        destruct (Hcells2 a b Ha Hb) as [He Hk].
        destruct (decide (a = 1 ∧ b = j)) as [Hc|Hc].
        -- rewrite (bool_decide_eq_true_2 _ Hc). split; [done|].
           intros Hn. destruct Hn. destruct Hc as [-> ->].
           split; [done|]. exists i. split; [lia|]. split; [done | lia].
        -- rewrite (bool_decide_eq_false_2 _ Hc). split.
           ++ intros (Ha1 & i' & Hi' & Hf & Hlt). apply He.
              split; [done|]. exists i'. split; [done|]. split; [done | lia].
           ++ intros Hn. apply Hk.
              intros (Ha1 & i' & Hi' & Hf & Hlt). apply Hn.
              split; [done|]. exists i'. split; [done|]. split; [done | lia].
    + exists g2. split; [done|]. split_and!; [done..|].
      intros a b Ha Hb. destruct (Hcells2 a b Ha Hb) as [He Hk]. split.
      * intros (Ha1 & i' & Hi' & Hf & Hlt). apply He.
        split; [done|]. exists i'. split; [done|]. split; [done | lia].
      * intros Hn. apply Hk. intros (Ha1 & i' & Hi' & Hf & Hlt). apply Hn.
        split; [done|]. exists i'. split; [done|]. split; [done | lia].
  - exists g'. split; [done|]. split_and!; [done..|].
    intros a b Ha Hb. destruct (Hcells a b Ha Hb) as [He Hk]. split.
    + intros (Ha1 & i' & Hi' & Hf). apply He.
      split; [done|]. exists i'. split; [done|]. split; [done | lia].
    + intros Hn. apply Hk. intros (Ha1 & i' & Hi' & Hf & Hlt). apply Hn.
      split; [done|]. by exists i'.
Qed.

(** [process_vis] is the mask of the two nested loops and the grid of the
    last loop. *)
Lemma process_vis_phases (grid : Grid.t) (ox oy : Z)
    (P : ndarray bool → Prop) :
  Grid.well_formed grid →
  0 ≤ ox < Grid.width grid → 0 ≤ oy < Grid.height grid →
  (∀ mask, has_shape mask (Grid.width grid) (Grid.height grid) →
           np_get mask ox oy = Ok true →
           Grid.behind_dark grid oy mask →
           (Grid.see_through grid →
            ∀ a b, 0 ≤ a < Grid.width grid → 0 ≤ b ≤ oy →
                   np_get mask a b = Ok true) →
           P mask) →
  ∃ grid' mask,
    Grid.process_vis grid (ox, oy) = Ok (grid', mask) ∧ P mask ∧
    Grid.well_formed grid' ∧
    Grid.width grid' = Grid.width grid ∧
    Grid.height grid' = Grid.height grid ∧
    ∀ a b, 0 ≤ a < Grid.width grid → 0 ≤ b < Grid.height grid →
      ((a = 1 ∧ ∃ i, 0 ≤ i < Grid.width grid ∧ np_get mask i b = Ok false) →
       Grid.get grid' a b = Ok None) ∧
      (¬ (a = 1 ∧ ∃ i, 0 ≤ i < Grid.width grid ∧ np_get mask i b = Ok false) →
       Grid.get grid' a b = Grid.get grid a b).
Proof.
  intros Hg Hx Hy HP. unfold Grid.process_vis. simpl.
  destruct (vis_mask_computed grid ox oy Hg Hx Hy)
    as (mask & Hmask & Hm & Ho & Hdark & Hst).
  destruct (np_full _ _ false) as [m0|] eqn:Hfull; [|done].
  cbn [mbind result_bind] in Hmask |- *.
  destruct (np_set m0 ox oy true) as [m1|] eqn:Hset; [|done].
  cbn [mbind result_bind] in Hmask |- *.
  rewrite Hmask. cbn [mbind result_bind].
  destruct (vis_erase grid mask Hg Hm) as (g' & -> & Hg' & Hw' & Hh' & Hcells).
  cbn [mbind result_bind].
  exists g', mask. split_and!; [done | by apply HP | done..].
Qed.

End VisTheorems.

Section VisTheorems2.
Context `{ObjectLibrary}.

(** Extra X10. Nothing behind the agent is visible. On a well-formed grid
    and for an origin inside it, [process_vis] returns a mask of the
    shape of the grid in which the origin is visible and no cell of a row
    behind the origin (a row of higher index) is. *)
Theorem process_vis_never_behind (grid : Grid.t) (ox oy : Z) :
  Grid.well_formed grid →
  0 ≤ ox < Grid.width grid → 0 ≤ oy < Grid.height grid →
  ∃ grid' mask,
    Grid.process_vis grid (ox, oy) = Ok (grid', mask) ∧
    has_shape mask (Grid.width grid) (Grid.height grid) ∧
    np_get mask ox oy = Ok true ∧
    ∀ a b, 0 ≤ a < Grid.width grid → oy < b < Grid.height grid →
           np_get mask a b = Ok false.
Proof.
  intros Hg Hx Hy.
  destruct (process_vis_phases grid ox oy
    (λ mask, has_shape mask (Grid.width grid) (Grid.height grid) ∧
             np_get mask ox oy = Ok true ∧
             Grid.behind_dark grid oy mask) Hg Hx Hy)
    as (g' & mask & Hrun & (Hm & Ho & Hdark) & _); [done|].
  exists g', mask. split_and!; done.
Qed.

(** Extra X11. The view over a grid without opaque cells. When no cell of
    the grid stops the view, the mask of [process_vis] is on exactly in
    the rows from row 0 to the row of the origin. *)
Theorem process_vis_see_through (grid : Grid.t) (ox oy : Z) :
  Grid.well_formed grid →
  0 ≤ ox < Grid.width grid → 0 ≤ oy < Grid.height grid →
  (∀ i j cell, Grid.get grid i j = Ok cell → Grid.opaque cell = false) →
  ∃ grid' mask,
    Grid.process_vis grid (ox, oy) = Ok (grid', mask) ∧
    ∀ a b, 0 ≤ a < Grid.width grid → 0 ≤ b < Grid.height grid →
           np_get mask a b = Ok (bool_decide (b ≤ oy)).
Proof.
  intros Hg Hx Hy Hst.
  destruct (process_vis_phases grid ox oy
    (λ mask, ∀ a b, 0 ≤ a < Grid.width grid → 0 ≤ b < Grid.height grid →
                    np_get mask a b = Ok (bool_decide (b ≤ oy))) Hg Hx Hy)
    as (g' & mask & Hrun & Hbits & _).
  { intros mask Hm Ho Hdark Hfront a b Ha Hb. case_bool_decide.
    - apply Hfront; [done | done | lia].
    - apply Hdark; [done | lia]. }
  by exists g', mask.
Qed.

(** Extra X12. What [process_vis] erases. The grid that [process_vis] leaves
    has the size of the grid it was given. In a row with a hidden cell
    the cell of column 1 is empty afterwards; every other cell holds
    what it held. *)
Theorem process_vis_erases (grid : Grid.t) (ox oy : Z) :
  Grid.well_formed grid →
  0 ≤ ox < Grid.width grid → 0 ≤ oy < Grid.height grid →
  ∃ grid' mask,
    Grid.process_vis grid (ox, oy) = Ok (grid', mask) ∧
    Grid.width grid' = Grid.width grid ∧
    Grid.height grid' = Grid.height grid ∧
    ∀ a b, 0 ≤ a < Grid.width grid → 0 ≤ b < Grid.height grid →
      ((a = 1 ∧ ∃ i, 0 ≤ i < Grid.width grid ∧ np_get mask i b = Ok false) →
       Grid.get grid' a b = Ok None) ∧
      (¬ (a = 1 ∧ ∃ i, 0 ≤ i < Grid.width grid ∧ np_get mask i b = Ok false) →
       Grid.get grid' a b = Grid.get grid a b).
Proof.
  intros Hg Hx Hy.
  destruct (process_vis_phases grid ox oy (λ _, True) Hg Hx Hy)
    as (g' & mask & Hrun & _ & _ & Hw & Hh & Hcells); [done|].
  by exists g', mask.
Qed.

End VisTheorems2.

(** ** The grids the class builds *)

Section Built.
Context `{ObjectLibrary}.

(** A [set] that returns was given a cell of the grid. *)
Lemma grid_set_returns (g g' : Grid.t) (i j : Z) (v : option WorldObj) :
  Grid.set g i j v = Ok g' →
  0 ≤ i < Grid.width g ∧ 0 ≤ j < Grid.height g.
Proof.
  intros Hset.
  destruct (decide (0 ≤ i < Grid.width g ∧ 0 ≤ j < Grid.height g))
    as [|Hout]; [done|].
  rewrite grid_set_out_of_bounds in Hset by done. discriminate.
Qed.

(** A constructor that returns was given sides of at least 3. *)
Lemma grid_new_returns (w h : Z) (g : Grid.t) :
  Grid.new w h = Ok g →
  3 ≤ w ∧ 3 ≤ h ∧ g = Grid.mk w h (replicate (Z.to_nat (w * h)) None).
Proof.
  intros Hnew. destruct (decide (3 ≤ w ∧ 3 ≤ h)) as [[Hw Hh]|Hsmall].
  - rewrite grid_new_ok in Hnew by done. by injection Hnew as <-.
  - rewrite grid_new_too_small in Hnew by done. discriminate.
Qed.

(** Every grid that the class builds is well formed and holds objects
    in column 1 only: [set] writes no other column. *)
Lemma built_column_one (g : Grid.t) :
  Grid.built g →
  Grid.well_formed g ∧
  ∀ a b, 0 ≤ a < Grid.width g → 0 ≤ b < Grid.height g → a ≠ 1 →
         Grid.get g a b = Ok None.
Proof.
  induction 1 as [w h g Hnew | g i j v g' _ [Hwf Hcol] Hset
                 | g x y w h g' _ [Hwf Hcol] Hsl | g g' _ [Hwf Hcol] Hrot].
  - apply grid_new_returns in Hnew as (Hw & Hh & ->).
    pose proof (grid_new_well_formed w h Hw Hh) as Hg.
    split; [done|]. intros a b Ha Hb _.
    rewrite grid_get_in_range by done. simpl in *.
    by rewrite lookup_replicate_2 by nia.
  - pose proof (grid_set_returns _ _ _ _ _ Hset) as [Hi Hj].
    assert (0 ≤ 1 < Grid.width g) as H1 by (destruct Hwf; lia).
    destruct (grid_set_then_get g i j 1 j v Hwf Hi Hj H1 Hj)
      as (g0 & Hset0 & Hwf' & Hw' & Hh' & _).
    rewrite Hset in Hset0. injection Hset0 as <-.
    split; [done|]. rewrite Hw', Hh'. intros a b Ha Hb Hne.
    destruct (grid_set_then_get g i j a b v Hwf Hi Hj Ha Hb)
      as (g0 & Hset0 & _ & _ & _ & Hget).
    rewrite Hset in Hset0. injection Hset0 as <-.
    rewrite Hget, bool_decide_eq_false_2 by (intros [? ?]; done).
    by apply Hcol.
  - assert (3 ≤ w ∧ 3 ≤ h) as [Hw Hh].
    { destruct (decide (3 ≤ w ∧ 3 ≤ h)) as [|Hsmall]; [done|].
      unfold Grid.slice in Hsl.
      rewrite grid_new_too_small in Hsl by done. discriminate. }
    destruct (slice_cells g x y w h Hwf Hw Hh)
      as (g0 & Hsl0 & Hwf' & Hw' & Hh' & Hcells).
    rewrite Hsl in Hsl0. injection Hsl0 as <-.
    split; [done|]. rewrite Hw', Hh'. intros a b Ha Hb Hne.
    rewrite Hcells by done. by rewrite bool_decide_eq_false_2 by done.
  - destruct (rotate_left_cells g Hwf)
      as (g0 & Hrot0 & Hwf' & Hw' & Hh' & Hcells).
    rewrite Hrot in Hrot0. injection Hrot0 as <-.
    split; [done|]. rewrite Hw', Hh'. intros a b Ha Hb Hne.
    rewrite Hcells by done.
    by rewrite bool_decide_eq_false_2 by (intros [? ?]; done).
Qed.

(** Claim C2. For every grid that the class builds (by the constructor,
    [set], [slice] and [rotate_left]) and every origin inside it,
    [process_vis] returns a mask of the shape of the grid in which the
    origin is on, and in the grid it leaves every cell whose mask bit is
    off holds [None]. *)
Theorem process_vis_erases_hidden (g : Grid.t) (ox oy : Z) :
  Grid.built g →
  0 ≤ ox < Grid.width g → 0 ≤ oy < Grid.height g →
  ∃ g' mask,
    Grid.process_vis g (ox, oy) = Ok (g', mask) ∧
    has_shape mask (Grid.width g) (Grid.height g) ∧
    np_get mask ox oy = Ok true ∧
    Grid.width g' = Grid.width g ∧ Grid.height g' = Grid.height g ∧
    ∀ a b, 0 ≤ a < Grid.width g → 0 ≤ b < Grid.height g →
           np_get mask a b = Ok false → Grid.get g' a b = Ok None.
Proof.
  intros [Hwf Hcol]%built_column_one Hx Hy.
  destruct (process_vis_phases g ox oy
    (λ mask, has_shape mask (Grid.width g) (Grid.height g) ∧
             np_get mask ox oy = Ok true) Hwf Hx Hy)
    as (g' & mask & Hrun & (Hm & Ho) & _ & Hw' & Hh' & Hcells); [done|].
  exists g', mask. split_and!; [done..|].
  intros a b Ha Hb Hoff.
  destruct (Hcells a b Ha Hb) as [Herased Hkept].
  destruct (decide (a = 1)) as [->|Hne].
  - apply Herased. split; [done|]. by exists 1.
  - rewrite Hkept by (intros [? _]; done). by apply Hcol.
Qed.

End Built.

(** * Further properties of the environment *)

Section EnvMore.
Context `{ObjectLibrary}.
Import MiniGridEnv.

Lemma dir_vec_placed (s : t) (d : Z) :
  agent_dir s = Some d → 0 ≤ d < 4 → dir_vec s = Ok (DIR_TO_VEC d).
Proof.
  intros Hd Hr. unfold dir_vec, agent_dir_int. rewrite Hd. simpl.
  by rewrite !bool_decide_eq_true_2 by lia.
Qed.

(** Extra X13. The right vector. For a facing in 0..3 the right vector is
    the direction vector of the facing one turn to the right; the two are
    unit vectors at a right angle. *)
Theorem right_vec_is_next_dir_vec (s : t) (d : Z) :
  agent_dir s = Some d → 0 ≤ d < 4 →
  ∃ dx dy,
    dir_vec s = Ok (dx, dy) ∧
    right_vec s = Ok (- dy, dx) ∧
    right_vec s = dir_vec (set_agent_dir (Some ((d + 1) `mod` 4)) s) ∧
    dx * dx + dy * dy = 1 ∧
    dx * - dy + dy * dx = 0.
Proof.
  intros Hd Hr. unfold right_vec.
  rewrite (dir_vec_placed s d), (dir_vec_placed _ ((d + 1) `mod` 4));
    [| done | by apply Z.mod_pos_bound | done | done].
  assert (d = 0 ∨ d = 1 ∨ d = 2 ∨ d = 3) as [-> | [-> | [-> | ->]]] by lia;
    eexists _, _; split_and!; reflexivity.
Qed.

Lemma get_view_coords_placed (s : t) (p : Position) (d i j : Z) :
  agent_pos s = Some p → agent_dir s = Some d → 0 ≤ d < 4 →
  get_view_coords s i j =
    let '(ax, ay) := coords p in
    let '(dx, dy) := DIR_TO_VEC d in
    let sz := agent_view_size s in
    let hs := sz `div` 2 in
    let lx := i - (ax + dx * (sz - 1) - - dy * hs) in
    let ly := j - (ay + dy * (sz - 1) - dx * hs) in
    Ok (- dy * lx + dx * ly, - (dx * lx + dy * ly)).
Proof.
  intros Hp Hd Hr. unfold get_view_coords, right_vec, agent_pos_xy.
  rewrite Hp, (dir_vec_placed s d) by done. simpl.
  destruct (coords p), (DIR_TO_VEC d). reflexivity.
Qed.

(** Extra X14. The agent in its own view. For a placed agent with a facing
    in 0..3 and a view size of at least 1, the view coordinates of the
    agent's cell are the middle of the last row, [(sz // 2, sz - 1)],
    those of the cell in front of it are [(sz // 2, sz - 2)], and the
    agent's cell is in view. *)
Theorem view_coords_of_agent (s : t) (p : Position) (d : Z) :
  agent_pos s = Some p → agent_dir s = Some d → 0 ≤ d < 4 →
  1 ≤ agent_view_size s →
  let sz := agent_view_size s in
  get_view_coords s (coords p).1 (coords p).2 = Ok (sz `div` 2, sz - 1) ∧
  get_view_coords s ((coords p).1 + (DIR_TO_VEC d).1)
                    ((coords p).2 + (DIR_TO_VEC d).2)
    = Ok (sz `div` 2, sz - 2) ∧
  relative_coords s (coords p).1 (coords p).2 = Ok (Some (sz `div` 2, sz - 1)) ∧
  in_view s (coords p).1 (coords p).2 = Ok true.
Proof.
  intros Hp Hd Hr Hsz sz.
  assert (get_view_coords s (coords p).1 (coords p).2
          = Ok (sz `div` 2, sz - 1)) as Hown.
  { rewrite (get_view_coords_placed s p d) by done.
    destruct (coords p) as [ax ay]. simpl. subst sz.
    assert (d = 0 ∨ d = 1 ∨ d = 2 ∨ d = 3) as [-> | [-> | [-> | ->]]] by lia;
      simpl; f_equal; f_equal; lia. }
  assert (0 ≤ sz `div` 2 < sz) as Hhs.
  { split; [apply Z.div_pos; lia | apply Z.div_lt; lia]. }
  assert (relative_coords s (coords p).1 (coords p).2
          = Ok (Some (sz `div` 2, sz - 1))) as Hrel.
  { unfold relative_coords. rewrite Hown. simpl. fold sz.
    by rewrite !bool_decide_eq_false_2 by lia. }
  split_and!; [done | | done |].
  - rewrite (get_view_coords_placed s p d) by done.
    destruct (coords p) as [ax ay]. simpl. subst sz.
    assert (d = 0 ∨ d = 1 ∨ d = 2 ∨ d = 3) as [-> | [-> | [-> | ->]]] by lia;
      simpl; f_equal; f_equal; lia.
  - unfold in_view. rewrite Hrel. reflexivity.
Qed.

(** Extra X15. The view and its extents. Where [get_view_exts] returns (the
    facings 0 and 2) and the view size is odd, a cell is in view exactly
    when it lies in the rectangle of the extents, bottom and right edge
    excluded. *)
Theorem in_view_matches_exts (s : t) (topX topY botX botY x y : Z) :
  get_view_exts s = Ok (topX, topY, botX, botY) →
  agent_view_size s `mod` 2 = 1 →
  in_view s x y = Ok (bool_decide (topX ≤ x < botX ∧ topY ≤ y < botY)).
Proof.
  intros Hext Hodd. pose proof (get_view_exts_ok s _ Hext) as Hd.
  unfold get_view_exts, agent_pos_xy in Hext.
  destruct (agent_pos s) as [p|] eqn:Hp.
  2: { destruct Hd as [Hd|Hd]; rewrite Hd in Hext; simpl in Hext; done. }
  set (sz := agent_view_size s) in *.
  assert (sz = 2 * (sz `div` 2) + 1) as Hsz.
  { pose proof (Z.div_mod sz 2). lia. }
  unfold in_view, relative_coords.
  destruct Hd as [Hd|Hd]; rewrite Hd in Hext; simpl in Hext.
  - rewrite (get_view_coords_placed s p 0) by (done || lia).
    destruct (coords p) as [ax ay]. simpl in *. injection Hext as <- <- <- <-.
    fold sz. f_equal.
    repeat case_bool_decide; simpl; try done; lia.
  - rewrite (get_view_coords_placed s p 2) by (done || lia).
    destruct (coords p) as [ax ay]. simpl in *. injection Hext as <- <- <- <-.
    fold sz. f_equal.
    repeat case_bool_decide; simpl; try done; lia.
Qed.

End EnvMore.

Section EnvMore2.
Context `{ObjectLibrary}.
Import MiniGridEnv.

(** Extra X16. The two turns. When the agent is placed, faces a direction
    [d] in 0..3 and the cell in front of it is in the grid, [step(left)]
    leaves the facing [(d + 3) mod 4] and [step(right)] the facing
    [(d + 1) mod 4]; the step counter is one more and nothing else of
    the environment has changed. *)
Theorem step_turns (s : t) (p : Position) (d : Z) (cell : option WorldObj) :
  agent_pos s = Some p → agent_dir s = Some d → 0 ≤ d < 4 →
  Grid.get (grid s) ((coords p).1 + (DIR_TO_VEC d).1)
                    ((coords p).2 + (DIR_TO_VEC d).2) = Ok cell →
  (step Actions.left s).1 =
    set_agent_dir (Some ((d + 3) `mod` 4)) (set_step_count (step_count s + 1) s) ∧
  (step Actions.right s).1 =
    set_agent_dir (Some ((d + 1) `mod` 4)) (set_step_count (step_count s + 1) s).
Proof.
  intros Hp Hd Hr Hget.
  unfold step, mbind, M_bind, read, update, lift, call, when, mret, M_ret.
  rewrite (front_pos_placed _ p d) by done.
  cbn [coords fst snd set_step_count grid]. rewrite Hget.
  rewrite (bool_decide_eq_true_2 (Actions.left = Actions.left)) by done.
  rewrite (bool_decide_eq_false_2 (Actions.right = Actions.left)) by done.
  rewrite (bool_decide_eq_true_2 (Actions.right = Actions.right)) by done.
  unfold agent_dir_int. cbn [agent_dir set_step_count]. rewrite Hd.
  split.
  - destruct (decide (d - 1 < 0)) as [Hneg|Hpos].
    + rewrite (bool_decide_eq_true_2 _ Hneg).
      assert (d = 0) as -> by lia. simpl.
      repeat match goal with
      | |- context [bool_decide ?P] => destruct (bool_decide P); simpl
      | |- context [gen_obs ?s] => destruct (gen_obs s); simpl
      end; reflexivity.
    + rewrite (bool_decide_eq_false_2 _ Hpos).
      replace ((d + 3) `mod` 4) with (d - 1).
      2: { assert (d = 1 ∨ d = 2 ∨ d = 3) as [-> | [-> | ->]] by lia; done. }
      simpl.
      repeat match goal with
      | |- context [bool_decide ?P] => destruct (bool_decide P); simpl
      | |- context [gen_obs ?s] => destruct (gen_obs s); simpl
      end; reflexivity.
  - simpl.
    repeat match goal with
    | |- context [bool_decide ?P] => destruct (bool_decide P); simpl
    | |- context [gen_obs ?s] => destruct (gen_obs s); simpl
    end; reflexivity.
Qed.

(** Extra X17. What a [step] can change. No call of [step] returns: each
    one raises. It leaves the step counter one higher, so that
    [steps_remaining] is one lower, and the grid, the carried object,
    [max_steps], the view size and the random source as they were. *)
Theorem step_raises_and_keeps (action : Z) (s : t) :
  (∃ e, (step action s).2 = Raise e) ∧
  step_count (step action s).1 = step_count s + 1 ∧
  steps_remaining (step action s).1 = steps_remaining s - 1 ∧
  grid (step action s).1 = grid s ∧
  carrying (step action s).1 = carrying s ∧
  max_steps (step action s).1 = max_steps s ∧
  agent_view_size (step action s).1 = agent_view_size s ∧
  np_random (step action s).1 = np_random s.
Proof.
  split; [apply step_raises|].
  assert (∃ pos dir,
    (step action s).1 =
      set_agent_pos pos (set_agent_dir dir
        (set_step_count (step_count s + 1) s))) as (pos & dir & ->).
  { exists (agent_pos (step action s).1), (agent_dir (step action s).1).
    unfold step, mbind, M_bind, read, update, lift, call, when, mret, M_ret.
    repeat match goal with
    | |- context [front_pos ?s] => destruct (front_pos s); simpl
    | |- context [Grid.get ?g ?i ?j] => destruct (Grid.get g i j); simpl
    | |- context [agent_dir_int ?s] => destruct (agent_dir_int s); simpl
    | |- context [enterable ?c] => destruct (enterable c); simpl
    | |- context [has_type ?c ?ty] => destruct (has_type c ty); simpl
    | |- context [_reward ?s] => destruct (_reward s); simpl
    | |- context [bool_decide ?P] => destruct (bool_decide P); simpl
    | |- context [gen_obs ?s] => destruct (gen_obs s); simpl
    end; by destruct s. }
  unfold steps_remaining. simpl. split_and!; try done. lia.
Qed.

(** Extra X18. No observation is ever produced. [gen_obs_grid] and [gen_obs]
    raise in every state, [reset] raises for every grid generator, and
    [agent_sees] never answers true: it answers false exactly for the
    cells outside the view and raises for the others. *)
Theorem no_observation (s : t) :
  (∃ e, gen_obs_grid s = Raise e) ∧
  (∃ e, gen_obs s = Raise e) ∧
  (∀ _gen_grid, ∃ e, (reset _gen_grid s).2 = Raise e) ∧
  (∀ x y, agent_sees s x y ≠ Ok true ∧
          (agent_sees s x y = Ok false ↔ relative_coords s x y = Ok None)).
Proof.
  split_and!.
  - apply gen_obs_grid_raises.
  - apply gen_obs_raises.
  - intros gen. unfold reset, mbind, M_bind, read, update, lift, call.
    destruct (gen _) as [s1 [[]|e]]; [|by eexists]. simpl.
    repeat match goal with
    | |- context [assert ?c] => destruct (assert c) as [[]|]; simpl
    | |- context [agent_pos_xy ?s] => destruct (agent_pos_xy s) as [[??]|]; simpl
    | |- context [Grid.get ?g ?i ?j] => destruct (Grid.get g i j); simpl
    | |- context [gen_obs ?s] => destruct (gen_obs_raises s) as [? ->]; simpl
    end; by eexists.
  - intros x y. unfold agent_sees.
    destruct (relative_coords s x y) as [[[vx vy]|]|e]; simpl.
    + destruct (gen_obs_raises s) as [e ->]. simpl. split; [done|].
      split; discriminate.
    + split; [done | done].
    + split; [done|]. split; discriminate.
Qed.

End EnvMore2.

Section Placement.
Context `{ObjectLibrary}.
Import MiniGridEnv.

Lemma randint_result (low high : Z) (s : t) :
  low < high →
  ∃ x, randint low high s
       = (set_np_random (mk_rng (draws (np_random s))
                                (S (cursor (np_random s)))) s, Ok x) ∧
       low ≤ x < high.
Proof.
  intros Hlt. unfold randint. rewrite bool_decide_eq_false_2 by lia.
  eexists. split; [done|].
  pose proof (Z.mod_pos_bound (draws (np_random s) (cursor (np_random s)))
                (high - low)). lia.
Qed.

Lemma randint_range (low high x : Z) (s s' : t) :
  randint low high s = (s', Ok x) → low ≤ x < high.
Proof.
  unfold randint. case_bool_decide; [done|]. intros [= <- <-].
  pose proof (Z.mod_pos_bound (draws (np_random s) (cursor (np_random s)))
                (high - low)). lia.
Qed.

(** A position that the sampling loop returns. *)
Lemma place_obj_loop_ok fuel top size reject_fn max_tries num_tries
    (s s' : t) (pos : Position) :
  place_obj_loop fuel top size reject_fn max_tries num_tries s
    = Some (s', Ok pos) →
  (∃ rs, s' = set_np_random rs s) ∧
  pos = NdArray (coords pos).1 (coords pos).2 ∧
  top.1 ≤ (coords pos).1 < Z.min (top.1 + size.1) (Grid.width (grid s)) ∧
  top.2 ≤ (coords pos).2 < Z.min (top.2 + size.2) (Grid.height (grid s)) ∧
  Grid.get (grid s) (coords pos).1 (coords pos).2 = Ok None ∧
  coords <$> agent_pos s ≠ Some (coords pos) ∧
  (∀ f, reject_fn = Some f → f s' pos = false).
Proof.
  revert num_tries s. induction fuel as [|fuel IH]; intros num_tries s; [done|].
  simpl. destruct (exceeds _ _); [done|].
  unfold _rand_int, mbind, M_bind, mret, M_ret.
  destruct (randint top.1 _ s) as [s1 [x|e]] eqn:Hx; [|done].
  pose proof (randint_range _ _ _ _ _ Hx) as Hxr.
  apply randint_state in Hx as [rs1 ->].
  destruct (randint top.2 _ _) as [s2 [y|e]] eqn:Hy; [|done].
  pose proof (randint_range _ _ _ _ _ Hy) as Hyr.
  apply randint_state in Hy as [rs2 ->].
  cbn [coords fst snd] in *.
  replace (set_np_random rs2 (set_np_random rs1 s))
    with (set_np_random rs2 s) in * by (by destruct s).
  assert (Hback : ∀ P : t → Prop,
    (∃ rs, s' = set_np_random rs (set_np_random rs2 s)) →
    ∃ rs, s' = set_np_random rs s).
  { intros _ [rs ->]. by exists rs. }
  change (grid (set_np_random rs2 s)) with (grid s) in *.
  destruct (Grid.get (grid s) x y) as [cell|e] eqn:Hcell; [|done].
  unfold at_agent. change (agent_pos (set_np_random rs2 s)) with (agent_pos s).
  destruct (occupied cell) eqn:Hocc.
  { intros Hloop. destruct (IH _ _ Hloop) as (Hrs & Hrest).
    split; [by apply (Hback (λ _, True))|]. exact Hrest. }
  case_bool_decide as Hag.
  { intros Hloop. destruct (IH _ _ Hloop) as (Hrs & Hrest).
    split; [by apply (Hback (λ _, True))|]. exact Hrest. }
  destruct (match reject_fn with Some f => f _ _ | None => false end) eqn:Hrej.
  { intros Hloop. destruct (IH _ _ Hloop) as (Hrs & Hrest).
    split; [by apply (Hback (λ _, True))|]. exact Hrest. }
  intros [= <- <-]. cbn [coords fst snd].
  split; [by eexists|]. split; [done|]. split; [done|]. split; [done|].
  split; [by destruct cell|]. split; [done|].
  intros f ->. done.
Qed.

(** What holds of a position returned by [place_obj]. *)
Lemma place_obj_ok fuel obj top size reject_fn max_tries
    (s s' : t) (pos : Position) :
  place_obj fuel obj top size reject_fn max_tries s = Some (s', Ok pos) →
  let top' := match top with
              | None => (0, 0)
              | Some top => (Z.max top.1 0, Z.max top.2 0)
              end in
  let size' := match size with
               | None => (Grid.width (grid s), Grid.height (grid s))
               | Some size => size
               end in
  let '(x, y) := coords pos in
  top'.1 ≤ x < top'.1 + size'.1 ∧ 0 ≤ x < Grid.width (grid s) ∧
  top'.2 ≤ y < top'.2 + size'.2 ∧ 0 ≤ y < Grid.height (grid s) ∧
  Grid.get (grid s) x y = Ok None ∧
  coords <$> agent_pos s ≠ Some (x, y) ∧
  ∃ rs g',
    Grid.set (grid s) x y (placed_at pos obj) = Ok g' ∧
    s' = set_grid g' (set_np_random rs s) ∧
    ∀ f, reject_fn = Some f → f (set_np_random rs s) pos = false.
Proof.
  intros Hplace top' size'. unfold place_obj in Hplace.
  fold top' size' in Hplace.
  destruct (place_obj_loop _ _ _ _ _ _ _) as [[s1 [pos1|e1]]|] eqn:Hloop;
    [|done..].
  apply place_obj_loop_ok in Hloop
    as ([rs ->] & Hpos & Hx & Hy & Hcell & Hag & Hrej).
  change (grid (set_np_random rs s)) with (grid s) in Hplace.
  destruct (Grid.set _ _ _ _) as [g'|] eqn:Hset; [|done].
  injection Hplace as <- <-.
  destruct (coords pos1) as [x y] eqn:Hc. simpl in *.
  assert (0 ≤ top'.1 ∧ 0 ≤ top'.2) as [Ht1 Ht2].
  { unfold top'. destruct top as [[??]|]; simpl; lia. }
  split_and!; try lia; try done.
  exists rs, g'. split_and!; done.
Qed.

(** Extra X19. Where [place_obj] places. A position that [place_obj] returns
    lies in the rectangle asked for, cut to the grid; its cell was
    empty, it is not the agent's cell, and the rejection function, if
    there is one, answered false on it. The grid of the environment is
    then the old grid after [set] at that position, of the object with
    [init_pos] and [cur_pos] assigned; apart from the grid only the random
    source has changed. *)
Theorem place_obj_returns fuel obj top size reject_fn max_tries
    (s s' : t) (pos : Position) :
  place_obj fuel obj top size reject_fn max_tries s = Some (s', Ok pos) →
  let top' := match top with
              | None => (0, 0)
              | Some top => (Z.max top.1 0, Z.max top.2 0)
              end in
  let size' := match size with
               | None => (Grid.width (grid s), Grid.height (grid s))
               | Some size => size
               end in
  let '(x, y) := coords pos in
  top'.1 ≤ x < top'.1 + size'.1 ∧ 0 ≤ x < Grid.width (grid s) ∧
  top'.2 ≤ y < top'.2 + size'.2 ∧ 0 ≤ y < Grid.height (grid s) ∧
  Grid.get (grid s) x y = Ok None ∧
  coords <$> agent_pos s ≠ Some (x, y) ∧
  ∃ rs g',
    Grid.set (grid s) x y (placed_at pos obj) = Ok g' ∧
    s' = set_grid g' (set_np_random rs s) ∧
    ∀ f, reject_fn = Some f → f (set_np_random rs s) pos = false.
Proof. exact (place_obj_ok fuel obj top size reject_fn max_tries s s' pos). Qed.

(** The loop gives up when the attempts are used up. *)
Lemma place_obj_loop_ends fuel top size reject_fn (m num_tries : Z) (s : t) :
  (Z.to_nat (m + 1 - num_tries) + 1 ≤ fuel)%nat →
  is_Some (place_obj_loop fuel top size reject_fn (Some m) num_tries s).
Proof.
  revert num_tries s. induction fuel as [|fuel IH]; intros n s Hfuel; [lia|].
  simpl. case_bool_decide as Hex; [by eexists|].
  unfold _rand_int, mbind, M_bind, mret, M_ret.
  destruct (randint top.1 _ s) as [s1 [x|e]]; [|by eexists].
  destruct (randint top.2 _ _) as [s2 [y|e]]; [|by eexists].
  destruct (Grid.get _ _ _) as [cell|e]; [|by eexists].
  repeat match goal with
  | |- context [if ?b then _ else _] => destruct b
  end; try (apply IH; lia). by eexists.
Qed.

(** Extra X20. The attempt budget. With a finite [max_tries] the loop of
    [place_obj] ends after at most [max_tries + 1] draws of a position:
    the call returns a position or raises. *)
Theorem place_obj_ends fuel obj top size reject_fn (m : Z) (s : t) :
  (Z.to_nat (m + 1) + 1 ≤ fuel)%nat →
  ∃ s' r, place_obj fuel obj top size reject_fn (Some m) s = Some (s', r).
Proof.
  intros Hfuel. unfold place_obj.
  destruct (place_obj_loop_ends fuel
              match top with
              | None => (0, 0)
              | Some top => (Z.max top.1 0, Z.max top.2 0)
              end
              match size with
              | None => (Grid.width (grid s), Grid.height (grid s))
              | Some size => size
              end reject_fn m 0 s) as [[s1 [pos|e]] ->].
  { replace (m + 1 - 0) with (m + 1) by lia. done. }
  - destruct (Grid.set _ _ _ _); by eexists _, _.
  - by eexists _, _.
Qed.

(** Extra X21. Where [place_agent] puts the agent. When [place_agent]
    returns a position, the agent is at that position, the cell was empty
    in the grid before the call, and the facing is a draw from 0..3 when
    [rand_dir] is set and the former facing otherwise; the carried
    object, the counters and the size of the grid are as they were. *)
Theorem place_agent_returns fuel top size rand_dir max_tries
    (s s' : t) (pos : Position) :
  place_agent fuel top size rand_dir max_tries s = Some (s', Ok pos) →
  agent_pos s' = Some pos ∧
  Grid.get (grid s) (coords pos).1 (coords pos).2 = Ok None ∧
  (if rand_dir then ∃ d, agent_dir s' = Some d ∧ 0 ≤ d < 4
   else agent_dir s' = agent_dir s) ∧
  carrying s' = carrying s ∧ step_count s' = step_count s ∧
  max_steps s' = max_steps s.
Proof.
  unfold place_agent.
  destruct (place_obj _ _ _ _ _ _ _) as [[s1 [pos1|e1]]|] eqn:Hobj; [|done..].
  apply place_obj_ok in Hobj. destruct (coords pos1) as [x y] eqn:Hc.
  destruct Hobj as (_ & _ & _ & _ & Hcell & _ & rs & g' & _ & -> & _).
  change (grid (set_agent_pos None s)) with (grid s) in Hcell.
  destruct rand_dir.
  - unfold _rand_int.
    destruct (randint_result 0 4 (set_agent_pos (Some pos1)
                (set_grid g' (set_np_random rs (set_agent_pos None s)))))
      as (d & -> & Hd); [lia|].
    intros [= <- <-]. rewrite Hc. simpl. split_and!; try done. by exists d.
  - intros [= <- <-]. rewrite Hc. simpl. split_and!; done.
Qed.

End Placement.

Section Random.
Context `{ObjectLibrary}.
Import MiniGridEnv.

Lemma getitem_in_range {A} (l : list A) (i : Z) :
  0 ≤ i < Z.of_nat (length l) →
  ∃ x, getitem l i = Ok x ∧ l !! Z.to_nat i = Some x.
Proof.
  intros Hi. unfold getitem. rewrite py_index_in_range by done. simpl.
  destruct (l !! Z.to_nat i) as [x|] eqn:Hx; [by eexists|].
  apply lookup_ge_None in Hx. lia.
Qed.

(** The two outcomes of [_rand_elem]. *)
Lemma rand_elem_ok {A} (lst : list A) (s : t) :
  (lst = [] → _rand_elem lst s = (s, Raise ValueError)) ∧
  (lst ≠ [] →
   ∃ x, _rand_elem lst s
        = (set_np_random (mk_rng (draws (np_random s))
                                 (S (cursor (np_random s)))) s, Ok x) ∧
        x ∈ lst).
Proof.
  split.
  - intros ->. reflexivity.
  - intros Hne. unfold _rand_elem, _rand_int, mbind, M_bind, lift.
    destruct (randint_result 0 (Z.of_nat (length lst)) s) as (idx & -> & Hidx).
    { destruct lst; [done | simpl; lia]. }
    destruct (getitem_in_range lst idx Hidx) as (x & -> & Hx).
    exists x. split; [done|]. apply list_elem_of_lookup. eauto.
Qed.

(** Extra X22. [_rand_elem]. On an empty list it raises [ValueError] and
    draws nothing; on any other list it makes one draw and returns an
    item of the list. *)
Theorem rand_elem_result {A} (lst : list A) (s : t) :
  (lst = [] → _rand_elem lst s = (s, Raise ValueError)) ∧
  (lst ≠ [] →
   ∃ x, _rand_elem lst s
        = (set_np_random (mk_rng (draws (np_random s))
                                 (S (cursor (np_random s)))) s, Ok x) ∧
        x ∈ lst).
Proof. exact (rand_elem_ok lst s). Qed.

Lemma list_remove_elem {A} `{EqDecision A} (x : A) (l : list A) :
  x ∈ l → ∃ l', list_remove x l = Ok l' ∧ l ≡ₚ x :: l'.
Proof.
  induction l as [|y l IH]; intros Hx; [by apply elem_of_nil in Hx|].
  simpl. destruct (decide (y = x)) as [->|Hne]; [by eexists|].
  apply elem_of_cons in Hx as [->|Hx]; [done|].
  destruct (IH Hx) as (l' & -> & Hperm). simpl.
  eexists. split; [done|]. rewrite Hperm. apply Permutation_swap.
Qed.

Lemma rand_subset_loop_result {A} `{EqDecision A} (n : nat)
    (lst out : list A) (s : t) :
  (n ≤ length lst)%nat →
  ∃ picked rest rs,
    _rand_subset_loop n lst out s = (set_np_random rs s, Ok (out ++ picked)) ∧
    length picked = n ∧ lst ≡ₚ picked ++ rest.
Proof.
  revert lst out s. induction n as [|n IH]; intros lst out s Hn.
  - exists [], lst, (np_random s). simpl.
    rewrite app_nil_r, set_np_random_self. done.
  - simpl. unfold mbind, M_bind at 1.
    destruct (rand_elem_ok lst s) as [_ Hpick].
    destruct Hpick as (x & -> & Hx); [by destruct lst; simpl in *; [lia|]|].
    destruct (list_remove_elem x lst Hx) as (lst' & Hrem & Hperm).
    unfold lift, M_bind at 1. rewrite Hrem.
    assert (n ≤ length lst')%nat as Hn'.
    { apply Permutation_length in Hperm. simpl in Hperm. lia. }
    destruct (IH lst' (out ++ [x]) (set_np_random
                (mk_rng (draws (np_random s)) (S (cursor (np_random s)))) s) Hn')
      as (picked & rest & rs & -> & Hlen & Hperm').
    exists (x :: picked), rest, rs. split_and!.
    + rewrite <- app_assoc. simpl. by destruct s.
    + simpl. lia.
    + rewrite Hperm. simpl. by rewrite Hperm'.
Qed.

(** Extra X23. [_rand_subset]. Asked for more items than the list has, it
    raises [AssertionError] and draws nothing. Otherwise it returns
    [num_elems] items (none for a negative number) taken from different
    places of the list: the list is a rearrangement of the items
    returned and a rest. So a list without repetitions gives a result
    without repetitions. *)
Theorem rand_subset_result {A} `{EqDecision A} (lst : list A)
    (num_elems : Z) (s : t) :
  (Z.of_nat (length lst) < num_elems →
   _rand_subset lst num_elems s = (s, Raise AssertionError)) ∧
  (num_elems ≤ Z.of_nat (length lst) →
   ∃ out rest rs,
     _rand_subset lst num_elems s = (set_np_random rs s, Ok out) ∧
     Z.of_nat (length out) = Z.max num_elems 0 ∧
     lst ≡ₚ out ++ rest ∧
     (NoDup lst → NoDup out)).
Proof.
  unfold _rand_subset, mbind, M_bind at 1, lift, assert. split; intros Hn.
  - by rewrite bool_decide_eq_false_2 by lia.
  - rewrite bool_decide_eq_true_2 by lia. unfold M_bind. cbv beta iota.
    destruct (rand_subset_loop_result (Z.to_nat num_elems) lst [] s)
      as (picked & rest & rs & -> & Hlen & Hperm); [lia|].
    exists picked, rest, rs. split_and!; [done | lia | done |].
    intros Hnd. rewrite Hperm in Hnd. by apply NoDup_app in Hnd as [? _].
Qed.

End Random.

Section RandomMore.
Context `{ObjectLibrary}.
Import MiniGridEnv.

(** The random source after [n] more draws. *)
#[local] Abbreviation drawn n s :=
  (set_np_random (mk_rng (draws (np_random s)) (n + cursor (np_random s))) s).

(** Extra X25. [_rand_pos]. The two coordinates are drawn one after the
    other. With an empty range for [x] the call raises [ValueError]
    before any draw; with an empty range for [y] only, it raises after
    one draw was made; otherwise it makes two draws and returns a
    position inside the rectangle, the upper bounds excluded. *)
Theorem rand_pos_result (xLow xHigh yLow yHigh : Z) (s : t) :
  (xHigh ≤ xLow →
   _rand_pos xLow xHigh yLow yHigh s = (s, Raise ValueError)) ∧
  (xLow < xHigh → yHigh ≤ yLow →
   _rand_pos xLow xHigh yLow yHigh s = (drawn 1%nat s, Raise ValueError)) ∧
  (xLow < xHigh → yLow < yHigh →
   ∃ x y, _rand_pos xLow xHigh yLow yHigh s = (drawn 2%nat s, Ok (PyTuple x y)) ∧
          xLow ≤ x < xHigh ∧ yLow ≤ y < yHigh).
Proof.
  unfold _rand_pos, mbind, M_bind. split_and!.
  - intros Hx. unfold randint at 1. by rewrite bool_decide_eq_true_2 by lia.
  - intros Hx Hy.
    destruct (randint_result xLow xHigh s Hx) as (x & -> & _).
    unfold randint. by rewrite bool_decide_eq_true_2 by lia.
  - intros Hx Hy.
    destruct (randint_result xLow xHigh s Hx) as (x & -> & Hxr).
    destruct (randint_result yLow yHigh (drawn 1%nat s) Hy) as (y & Hrun & Hyr).
    simpl in Hrun. rewrite Hrun. exists x, y. split; [|done].
    by destruct s.
Qed.

(** Extra X26. [_rand_bool] and [_rand_color] always return. Each makes
    one draw; the colour is one of the six names of [COLOR_NAMES]. *)
Theorem rand_bool_and_color_return (s : t) :
  (∃ b, _rand_bool s = (drawn 1%nat s, Ok b)) ∧
  (∃ c, _rand_color s = (drawn 1%nat s, Ok c) ∧ c ∈ COLOR_NAMES).
Proof.
  split.
  - unfold _rand_bool, mbind, M_bind.
    destruct (randint_result 0 2 s) as (d & -> & _); [lia|]. by eexists.
  - exact (proj2 (rand_elem_ok COLOR_NAMES s) ltac:(discriminate)).
Qed.

(** Extra X27. [put_obj]. Outside the grid it raises [AssertionError]
    and the environment is as before. Inside, it returns; the object,
    with [init_pos] and [cur_pos] set to [(i, j)], is then read from the
    cell [(1, j)], and every other cell reads as before. *)
Theorem put_obj_result (obj : WorldObj) (i j : Z) (s : t) :
  Grid.well_formed (grid s) →
  (¬ (0 ≤ i < Grid.width (grid s) ∧ 0 ≤ j < Grid.height (grid s)) →
   put_obj obj i j s = (s, Raise AssertionError)) ∧
  (0 ≤ i < Grid.width (grid s) → 0 ≤ j < Grid.height (grid s) →
   ∃ g', put_obj obj i j s = (set_grid g' s, Ok ()) ∧
         ∀ a b, 0 ≤ a < Grid.width (grid s) → 0 ≤ b < Grid.height (grid s) →
           Grid.get g' a b =
             if bool_decide (a = 1 ∧ b = j)
             then Ok (Some (mk_obj (type obj) (color obj) (state obj)
                                   (Some (PyTuple i j)) (Some (PyTuple i j))))
             else Grid.get (grid s) a b).
Proof.
  intros Hg. unfold put_obj. split.
  - intros Hout. by rewrite grid_set_out_of_bounds.
  - intros Hi Hj.
    destruct (grid_set_then_get (grid s) i j 1 j
                (placed_at (PyTuple i j) (Some obj)) Hg Hi Hj)
      as (g' & Hset & _); [destruct Hg; lia | done |].
    rewrite Hset. exists g'. split; [done|].
    intros a b Ha Hb.
    destruct (grid_set_then_get (grid s) i j a b
                (placed_at (PyTuple i j) (Some obj)) Hg Hi Hj Ha Hb)
      as (g'' & Hset' & _ & _ & _ & Hget).
    rewrite Hset in Hset'. injection Hset' as <-. exact Hget.
Qed.

End RandomMore.

(** * The further properties on concrete inputs *)

Section GridMore3.
Context `{ObjectLibrary}.

(** What [l[i]] returns is an item of [l]. *)
Lemma getitem_elem {A} (l : list A) (i : Z) (x : A) :
  getitem l i = Ok x → x ∈ l.
Proof.
  unfold getitem. destruct (py_index _ i) as [k|e]; simpl; [|done].
  destruct (l !! k) as [y|] eqn:Hy; [|done].
  intros [= <-]. apply list_elem_of_lookup. by exists k.
Qed.

(** What [get] returns is in the list of the grid. *)
Lemma grid_get_elem (g : Grid.t) (i j : Z) (v : option WorldObj) :
  Grid.get g i j = Ok v → v ∈ Grid.grid g.
Proof.
  unfold Grid.get, assert.
  destruct (bool_decide (i >= 0) && _); [|intros [=]].
  destruct (bool_decide (j >= 0) && _); [|intros [=]].
  apply getitem_elem.
Qed.

End GridMore3.

Section MoreExamples.
#[local] Existing Instance spec_objects.
Import MiniGridEnv.

(** Evaluation of a closed statement. *)
Ltac eval_closed :=
  vm_compute;
  lazymatch goal with
  | |- _ = _ => reflexivity
  | |- _ => discriminate
  end.

(** A closed grid is well formed, a closed array has its shape. *)
Ltac closed_shape :=
  unfold Grid.well_formed, has_shape; simpl; split_and?; (lia || reflexivity).

(** Extra X1 applied: [set(2, 0, key)] on the empty 3 by 3 grid puts the
    key into cell (1, 0). *)
Lemma grid_get_after_set_witness :
  ∃ g', Grid.set grid_empty3 2 0 (Some a_key) = Ok g' ∧
        Grid.well_formed g' ∧
        Grid.width g' = 3 ∧ Grid.height g' = 3 ∧
        Grid.get g' 1 0 = Ok (Some a_key).
Proof.
  apply (grid_get_after_set grid_empty3 2 0 1 0 (Some a_key));
    [closed_shape | simpl; lia ..].
Defined.

(** Extra X2 applied to the grid with a wall in cell (1, 0). *)
Lemma rotate_left_result_witness :
  ∃ g', Grid.rotate_left grid_wall_1_0 = Ok g' ∧
        Grid.well_formed g' ∧
        Grid.width g' = 3 ∧ Grid.height g' = 3 ∧
        ∀ a b, 0 ≤ a < 3 → 0 ≤ b < 3 →
          Grid.get g' a b =
            if bool_decide (a = 1 ∧ b = 3 - 2)
            then Grid.get grid_wall_1_0 (3 - 1) (3 - 1)
            else Ok None.
Proof. apply (rotate_left_result grid_wall_1_0). closed_shape. Defined.

(** Extra X4 applied to the grid with a wall in cell (1, 0) and the mask
    with every bit on. *)
Lemma encode_result_witness :
  ∃ array, Grid.encode grid_wall_1_0 (Some all_visible3) = Ok array ∧
    has_shape array 3 3 ∧
    ∀ i j v, 0 ≤ i < 3 → 0 ≤ j < 3 →
      Grid.get grid_wall_1_0 i j = Ok v →
      ∀ b, np_get all_visible3 i j = Ok b →
           np_get array i j = Ok (Grid.cell_code b v).
Proof.
  apply (encode_result grid_wall_1_0 (Some all_visible3)); [closed_shape|].
  intros m [= <-]. closed_shape.
Defined.

(** Extra X5 applied to [array_wall_1_0]. *)
Lemma decode_mask_witness :
  ∃ grid vis_mask,
    Grid.decode array_wall_1_0 = Ok (grid, vis_mask) ∧
    Grid.well_formed grid ∧ Grid.width grid = 3 ∧ Grid.height grid = 3 ∧
    has_shape vis_mask 3 3 ∧
    ∀ i j t c s, 0 ≤ i < 3 → 0 ≤ j < 3 →
      np_get array_wall_1_0 i j = Ok (t, c, s) →
      np_get vis_mask i j = Ok (negb (bool_decide (t = 0))).
Proof.
  apply (decode_mask array_wall_1_0 3 3); [closed_shape | lia | lia |].
  intros i j t c s Hi Hj Hcell.
  assert (i = 0 ∨ i = 1 ∨ i = 2) as [-> | [-> | ->]] by lia;
    (assert (j = 0 ∨ j = 1 ∨ j = 2) as [-> | [-> | ->]] by lia);
    vm_compute in Hcell; injection Hcell as <- <- <-; by eexists.
Defined.

(** Extra X6 applied to the grid with a wall in cell (1, 0) and the mask
    with every bit on. *)
Lemma decode_encode_mask_witness :
  ∃ array G' M',
    Grid.encode grid_wall_1_0 (Some all_visible3) = Ok array ∧
    Grid.decode array = Ok (G', M') ∧
    M' = all_visible3 ∧
    Grid.width G' = 3 ∧ Grid.height G' = 3.
Proof.
  apply (decode_encode_mask grid_wall_1_0 all_visible3);
    [closed_shape | closed_shape | | by eexists | by eexists].
  intros i j o Hget%grid_get_elem. simpl in Hget.
  repeat (apply elem_of_cons in Hget as [Hget | Hget]; [try discriminate|]).
  - injection Hget as ->. split; [by vm_compute | by eexists].
  - by apply elem_of_nil in Hget.
Defined.

(** Extra X7 applied to the empty grid and the grid with a wall. *)
Lemma grid_eq_cells_witness :
  ∃ b, Grid.eq grid_empty3 grid_wall_1_0 = Ok b ∧
       Grid.ne grid_empty3 grid_wall_1_0 = Ok (negb b) ∧
       (b = true ↔
        3 = 3 ∧ 3 = 3 ∧
        ∀ i j v1 v2, 0 ≤ i < 3 → 0 ≤ j < 3 →
          Grid.get grid_empty3 i j = Ok v1 →
          Grid.get grid_wall_1_0 i j = Ok v2 →
          Grid.cell_code true v1 = Grid.cell_code true v2).
Proof. apply (grid_eq_cells grid_empty3 grid_wall_1_0); closed_shape. Defined.

(** Extra X8 applied: [Grid(3, 4)]. *)
Lemma grid_new_cells_witness :
  ∃ g, Grid.new 3 4 = Ok g ∧ Grid.well_formed g ∧
       Grid.width g = 3 ∧ Grid.height g = 4 ∧
       ∀ i j, 0 ≤ i < 3 → 0 ≤ j < 4 → Grid.get g i j = Ok None.
Proof. apply (grid_new_cells 3 4); lia. Defined.

(** Extra X9 applied: the key [(grey, wall)] on the grid with a grey
    wall. *)
Lemma contains_cells_witness :
  Grid.contains grid_wall_1_0 (Some grey, wall) = true ↔
  ∃ i j o, 0 ≤ i < 3 ∧ 0 ≤ j < 3 ∧
           Grid.get grid_wall_1_0 i j = Ok (Some o) ∧ type o = wall ∧
           (Some grey = None ∨ Some grey = Some (color o)).
Proof. apply (contains_cells grid_wall_1_0 (Some grey) wall). closed_shape. Defined.

(** Extra X10 applied to the view with the key behind the walls. *)
Lemma process_vis_never_behind_witness :
  ∃ grid' mask,
    Grid.process_vis grid_key_behind_walls (1, 1) = Ok (grid', mask) ∧
    has_shape mask 3 3 ∧
    np_get mask 1 1 = Ok true ∧
    ∀ a b, 0 ≤ a < 3 → 1 < b < 3 → np_get mask a b = Ok false.
Proof.
  apply (process_vis_never_behind grid_key_behind_walls 1 1);
    [closed_shape | simpl; lia | simpl; lia].
Defined.

(** Extra X11 applied to the empty grid seen from (1, 1). *)
Lemma process_vis_see_through_witness :
  ∃ grid' mask,
    Grid.process_vis grid_empty3 (1, 1) = Ok (grid', mask) ∧
    ∀ a b, 0 ≤ a < 3 → 0 ≤ b < 3 →
           np_get mask a b = Ok (bool_decide (b ≤ 1)).
Proof.
  apply (process_vis_see_through grid_empty3 1 1);
    [closed_shape | simpl; lia | simpl; lia |].
  intros i j cell Hget%grid_get_elem.
  by apply elem_of_replicate in Hget as [-> _].
Defined.

(** Extra X12 applied to the view with the key behind the walls. *)
Lemma process_vis_erases_witness :
  ∃ grid' mask,
    Grid.process_vis grid_key_behind_walls (1, 2) = Ok (grid', mask) ∧
    Grid.width grid' = 3 ∧ Grid.height grid' = 3 ∧
    ∀ a b, 0 ≤ a < 3 → 0 ≤ b < 3 →
      ((a = 1 ∧ ∃ i, 0 ≤ i < 3 ∧ np_get mask i b = Ok false) →
       Grid.get grid' a b = Ok None) ∧
      (¬ (a = 1 ∧ ∃ i, 0 ≤ i < 3 ∧ np_get mask i b = Ok false) →
       Grid.get grid' a b = Grid.get grid_key_behind_walls a b).
Proof.
  apply (process_vis_erases grid_key_behind_walls 1 2);
    [closed_shape | simpl; lia | simpl; lia].
Defined.

(** Extra X13 applied to an agent facing right. *)
Lemma right_vec_is_next_dir_vec_witness :
  let s := env_of grid_empty5 (PyTuple 2 2) 0 10 in
  ∃ dx dy,
    dir_vec s = Ok (dx, dy) ∧
    right_vec s = Ok (- dy, dx) ∧
    right_vec s = dir_vec (set_agent_dir (Some ((0 + 1) `mod` 4)) s) ∧
    dx * dx + dy * dy = 1 ∧
    dx * - dy + dy * dx = 0.
Proof.
  intros s. apply (right_vec_is_next_dir_vec s 0); [reflexivity | lia].
Defined.

(** Extra X14 applied to an agent at (2, 2) facing right, with the view
    size 7. *)
Lemma view_coords_of_agent_witness :
  let s := env_of grid_empty5 (PyTuple 2 2) 0 10 in
  get_view_coords s 2 2 = Ok (3, 6) ∧
  get_view_coords s 3 2 = Ok (3, 5) ∧
  relative_coords s 2 2 = Ok (Some (3, 6)) ∧
  in_view s 2 2 = Ok true.
Proof.
  intros s.
  apply (view_coords_of_agent s (PyTuple 2 2) 0);
    [reflexivity | reflexivity | lia | simpl; lia].
Defined.

(** Extra X15 applied to the same agent and the cell (4, 0). *)
Lemma in_view_matches_exts_witness :
  let s := env_of grid_empty5 (PyTuple 2 2) 0 10 in
  in_view s 4 0 = Ok (bool_decide (2 ≤ 4 < 9 ∧ -1 ≤ 0 < 6)).
Proof.
  intros s.
  apply (in_view_matches_exts s 2 (-1) 9 6 4 0); eval_closed.
Defined.

(** Extra X16 applied to the same agent. *)
Lemma step_turns_witness :
  let s := env_of grid_empty5 (PyTuple 2 2) 0 10 in
  (step Actions.left s).1 =
    set_agent_dir (Some ((0 + 3) `mod` 4)) (set_step_count (step_count s + 1) s) ∧
  (step Actions.right s).1 =
    set_agent_dir (Some ((0 + 1) `mod` 4)) (set_step_count (step_count s + 1) s).
Proof.
  intros s.
  apply (step_turns s (PyTuple 2 2) 0 None);
    [reflexivity | reflexivity | lia | eval_closed].
Defined.

(** Extra X20 applied: one attempt allowed, fuel for two. *)
Lemma place_obj_ends_witness :
  let s := env_of grid_empty3 (PyTuple 0 0) 0 10 in
  ∃ s' r, place_obj 2 (Some a_key) None None None (Some 0) s = Some (s', r).
Proof.
  intros s. apply (place_obj_ends 2 (Some a_key) None None None 0 s).
  simpl. lia.
Defined.

(** Extra X22 applied to a list of three items. *)
Lemma rand_elem_result_witness :
  let s := env_of grid_empty3 (PyTuple 0 0) 0 10 in
  ∃ x, _rand_elem [10; 20; 30] s
       = (set_np_random (mk_rng (draws (np_random s))
                                (S (cursor (np_random s)))) s, Ok x) ∧
       x ∈ [10; 20; 30].
Proof.
  intros s. apply (proj2 (rand_elem_result [10; 20; 30] s)). discriminate.
Defined.

(** Extra X23 applied: two items of a list of three. *)
Lemma rand_subset_result_witness :
  let s := env_of grid_empty3 (PyTuple 0 0) 0 10 in
  ∃ out rest rs,
    _rand_subset [10; 20; 30] 2 s = (set_np_random rs s, Ok out) ∧
    Z.of_nat (length out) = Z.max 2 0 ∧
    [10; 20; 30] ≡ₚ out ++ rest ∧
    (NoDup [10; 20; 30] → NoDup out).
Proof.
  intros s. apply (proj2 (rand_subset_result [10; 20; 30] 2 s)). simpl. lia.
Defined.

(** Extra X19 applied: a key is placed in the empty 3 by 3 grid, with
    the agent at (0, 1) and a random source that always draws 0. *)
Lemma place_obj_returns_witness :
  let s := env_of grid_empty3 (PyTuple 0 1) 0 10 in
  let pos := NdArray 0 0 in
  let s' := set_grid
              (Grid.mk 3 3 (<[1%nat := placed_at pos (Some a_key)]>
                              (replicate 9 None)))
              (set_np_random (mk_rng (λ _, 0) 2) s) in
  place_obj 5 (Some a_key) None None None None s = Some (s', Ok pos) ∧
  (0 ≤ 0 < 0 + 3 ∧ 0 ≤ 0 < 3 ∧ 0 ≤ 0 < 0 + 3 ∧ 0 ≤ 0 < 3 ∧
   Grid.get (grid s) 0 0 = Ok None ∧
   coords <$> agent_pos s ≠ Some (0, 0) ∧
   ∃ rs g',
     Grid.set (grid s) 0 0 (placed_at pos (Some a_key)) = Ok g' ∧
     s' = set_grid g' (set_np_random rs s) ∧
     ∀ f, None = Some f → f (set_np_random rs s) pos = false).
Proof.
  intros s pos s'.
  assert (place_obj 5 (Some a_key) None None None None s = Some (s', Ok pos))
    as Hrun by eval_closed.
  split; [exact Hrun|].
  exact (place_obj_returns 5 (Some a_key) None None None None s s' pos Hrun).
Defined.

(** Extra X21 applied: the agent is placed in the empty 3 by 3 grid with
    a random facing. *)
Lemma place_agent_returns_witness :
  let s := env_of grid_empty3 (PyTuple 0 1) 0 10 in
  let pos := NdArray 0 0 in
  let s' := set_agent_dir (Some 0)
              (set_agent_pos (Some pos)
                 (set_np_random (mk_rng (λ _, 0) 3) s)) in
  place_agent 5 None None true None s = Some (s', Ok pos) ∧
  (agent_pos s' = Some pos ∧
   Grid.get (grid s) 0 0 = Ok None ∧
   (∃ d, agent_dir s' = Some d ∧ 0 ≤ d < 4) ∧
   carrying s' = carrying s ∧ step_count s' = step_count s ∧
   max_steps s' = max_steps s).
Proof.
  intros s pos s'.
  assert (place_agent 5 None None true None s = Some (s', Ok pos))
    as Hrun by eval_closed.
  split; [exact Hrun|].
  exact (place_agent_returns 5 None None true None s s' pos Hrun).
Defined.

(** Extra X25 applied: a position in the square of side 3. *)
Lemma rand_pos_result_witness :
  let s := env_of grid_empty3 (PyTuple 0 0) 0 10 in
  ∃ x y, _rand_pos 0 3 0 3 s
         = (set_np_random (mk_rng (draws (np_random s))
                                  (2 + cursor (np_random s))) s,
            Ok (PyTuple x y)) ∧
         0 ≤ x < 3 ∧ 0 ≤ y < 3.
Proof.
  intros s. apply (proj2 (proj2 (rand_pos_result 0 3 0 3 s))); lia.
Defined.

(** Extra X27 applied: a key put at (2, 0) of the empty grid. *)
Lemma put_obj_result_witness :
  let s := env_of grid_empty3 (PyTuple 0 1) 0 10 in
  ∃ g', put_obj a_key 2 0 s = (set_grid g' s, Ok ()) ∧
        ∀ a b, 0 ≤ a < 3 → 0 ≤ b < 3 →
          Grid.get g' a b =
            if bool_decide (a = 1 ∧ b = 0)
            then Ok (Some (mk_obj key yellow 0
                             (Some (PyTuple 2 0)) (Some (PyTuple 2 0))))
            else Grid.get grid_empty3 a b.
Proof.
  intros s.
  refine (proj2 (put_obj_result a_key 2 0 s _) _ _);
    [closed_shape | simpl; lia | simpl; lia].
Defined.

(** Claim C2 applied: the agent at (0, 2) next to the walls of column 1.
    The cells (2, 1) and (2, 2) are hidden. *)
Lemma process_vis_erases_hidden_witness :
  ∃ g' mask,
    Grid.process_vis grid_wall_1_1_and_1_2 (0, 2) = Ok (g', mask) ∧
    has_shape mask 3 3 ∧
    np_get mask 0 2 = Ok true ∧
    Grid.width g' = 3 ∧ Grid.height g' = 3 ∧
    ∀ a b, 0 ≤ a < 3 → 0 ≤ b < 3 →
           np_get mask a b = Ok false → Grid.get g' a b = Ok None.
Proof.
  apply (process_vis_erases_hidden grid_wall_1_1_and_1_2 0 2);
    [|simpl; lia | simpl; lia].
  apply (Grid.built_set
           (Grid.mk 3 3 [None; None; None; None; Some a_wall; None;
                         None; None; None]) 1 2 (Some a_wall)); [|eval_closed].
  apply (Grid.built_set grid_empty3 1 1 (Some a_wall)); [|eval_closed].
  apply (Grid.built_new 3 3). eval_closed.
Defined.

End MoreExamples.
